(** * Company research agent: the asynchronous pipeline nodes

    A shallow embedding of
      - [backend/nodes/researchers/base.py]  (class [BaseResearcher]),
      - [backend/nodes/briefing.py]          (class [Briefing]),
      - [backend/nodes/editor.py]            (class [Editor]),
    and the properties of the pipeline that follow from the code.

    Conventions of the embedding.

    - A Python [str] is a [string]; a character is a code point below 256.
      The two message texts of the editor that hold other characters are
      written as they stand in the source; no length is taken of them.
    - An exception is a member of [Exception], which is what the handlers
      of the code catch.
    - Awaited calls to the providers (the chat model, the search provider,
      the briefing model) are answered by oracles that are arguments of
      the embedded function; an oracle answers with a value or with a
      raised exception.
    - Everything a function does to the outside world is recorded, in
      program order, in a trace of [Event]s.
    - [websocket_manager.send_status_update] is the status broadcaster,
      an external collaborator; an update is sent only when both the
      manager and the job id are present.  The modules [QueryGenerator],
      [SearchFanout], [Briefing] and [Editor] take every update to be
      delivered: a call records a [StatusUpdate] event and returns.  The
      module [Run] embeds the researcher and the editor once more, as
      computations against a broadcaster that may raise at any update;
      the two agree when no update raises, as the last part shows, and
      what is said about exceptions that reach the caller is said of
      [Run].
    - A score is what [float] makes of the value found: a finite number,
      an infinity, NaN, or an exception.  With a NaN key the order that
      [sorted] returns depends on the steps of the sorting algorithm; it
      is a parameter of the embedding, of which nothing is assumed. *)

From Stdlib Require Import Bool Arith ZArith List String Ascii Lia.
From Stdlib Require Import DecimalString Permutation Sorted QArith.
Import ListNotations.

Local Open Scope string_scope.
Local Open Scope list_scope.
Local Open Scope nat_scope.

(** String concatenation, kept apart from list concatenation. *)
Infix "+:+" := String.append (at level 60, right associativity).

(** ** Python values used by all three nodes *)

(** Exceptions.  [asyncio.TimeoutError] is told apart because
    [generate_queries] words its log line by it; every other member of
    [Exception] carries its message. *)
Inductive exn : Type :=
| TimeoutError
| Error (msg : string).

(** The outcome of an awaited call or of a block that may raise. *)
Inductive result (A : Type) : Type :=
| Ok (a : A)
| Raise (e : exn).
Arguments Ok {A} a.
Arguments Raise {A} e.

(** What the node does to the outside world. *)
Inductive Event : Type :=
| StatusUpdate (status : string) (detail : string) (* send_status_update *)
| Sleep (seconds : nat)                            (* asyncio.sleep *)
| ChatRequest (model : string)                     (* chat.completions.create *)
| SearchRequest (query : string) (topic : option string) (* tavily search *)
| GenerateContent (category : string).             (* gemini generate_content *)

Definition Trace := list Event.

(** [if websocket_manager and job_id: await send_status_update(...)] *)
Definition notify (on : bool) (status detail : string) : Trace :=
  if on then [StatusUpdate status detail] else [].

(** ** Python string operations *)

Module PyStr.

Definition newline : ascii := ascii_of_nat 10.

(** The one-character string made of a newline. *)
Definition nl : string := String newline EmptyString.

Definition is_empty (s : string) : bool :=
  match s with EmptyString => true | String _ _ => false end.

(** Truth value of a [str]: non-empty. *)
Definition truthy (s : string) : bool := negb (is_empty s).

(** [str.isspace] on one character below 256: tab to carriage return,
    the four separators 28..31, space, NEL (133) and NBSP (160). *)
Definition isspace (c : ascii) : bool :=
  let n := nat_of_ascii c in
  ((9 <=? n) && (n <=? 13)) || ((28 <=? n) && (n <=? 32))
  || (n =? 133) || (n =? 160).

Fixpoint lstrip (s : string) : string :=
  match s with
  | EmptyString => EmptyString
  | String c s' => if isspace c then lstrip s' else s
  end.

Fixpoint rstrip (s : string) : string :=
  match s with
  | EmptyString => EmptyString
  | String c s' =>
      match rstrip s' with
      | EmptyString => if isspace c then EmptyString else String c EmptyString
      | r => String c r
      end
  end.

(** [s.strip()] *)
Definition strip (s : string) : string := rstrip (lstrip s).

(** [sep in s] for a one-character [sep]. *)
Fixpoint contains (sep : ascii) (s : string) : bool :=
  match s with
  | EmptyString => false
  | String c s' => if Ascii.eqb c sep then true else contains sep s'
  end.

(** [s.split(sep)] for a one-character [sep]: never the empty list. *)
Fixpoint split (sep : ascii) (s : string) : list string :=
  match s with
  | EmptyString => [EmptyString]
  | String c s' =>
      if Ascii.eqb c sep then EmptyString :: split sep s'
      else match split sep s' with
           | p :: ps => String c p :: ps
           | [] => [String c EmptyString]
           end
  end.

(** [s.split()]: the maximal runs of non-whitespace characters. *)
Fixpoint words_from (acc : string) (s : string) : list string :=
  match s with
  | EmptyString => if is_empty acc then [] else [acc]
  | String c s' =>
      if isspace c
      then (if is_empty acc then words_from EmptyString s'
            else acc :: words_from EmptyString s')
      else words_from (acc +:+ String c EmptyString) s'
  end.

Definition words (s : string) : list string := words_from EmptyString s.

(** [str.lower] on one character below 256: A..Z and the capital letters
    192..222 other than the multiplication sign 215 move up by 32. *)
Definition lower_char (c : ascii) : ascii :=
  let n := nat_of_ascii c in
  if ((65 <=? n) && (n <=? 90))
     || ((192 <=? n) && (n <=? 222) && negb (n =? 215))
  then ascii_of_nat (n + 32) else c.

Fixpoint lower (s : string) : string :=
  match s with
  | EmptyString => EmptyString
  | String c s' => String (lower_char c) (lower s')
  end.

(** [s[:n]] *)
Fixpoint take (n : nat) (s : string) : string :=
  match n, s with
  | S k, String c s' => String c (take k s')
  | _, _ => EmptyString
  end.

(** [str(n)] for an [int]. *)
Definition of_int (n : Z) : string := NilZero.string_of_int (Z.to_int n).

(** [sep.join(parts)] *)
Fixpoint join (sep : string) (parts : list string) : string :=
  match parts with
  | [] => EmptyString
  | [p] => p
  | p :: rest => p +:+ sep +:+ join sep rest
  end.

End PyStr.

(** ** Streamed chat completions *)

Module Chat.

(** One streamed chunk: [chunk.choices[0].finish_reason] and
    [chunk.choices[0].delta.content]. *)
Record Chunk : Type := {
  finish_reason : option string;
  delta_content : option string
}.

(** The asynchronous iterator over the response yields a chunk or raises
    while it is advanced; a list that runs out is a stream that ended. *)
Inductive StreamItem : Type :=
| Yield (c : Chunk)
| StreamRaises (e : exn).

(** What awaiting [chat.completions.create(..., stream=True)] does: it
    raises (a timeout or any other exception), or it returns the
    stream. *)
Inductive Response : Type :=
| RequestRaises (e : exn)
| Stream (items : list StreamItem).

(** [chunk.choices[0].finish_reason == "stop"] *)
Definition is_stop (c : Chunk) : bool :=
  match finish_reason c with
  | Some r => String.eqb r "stop"
  | None => false
  end.

(** A chunk that carries the text [t] and no finish reason. *)
Definition token (t : string) : StreamItem :=
  Yield {| finish_reason := None; delta_content := Some t |}.

End Chat.

(** ** [BaseResearcher.generate_queries] and [_fallback_queries] *)

Module QueryGenerator.
Import PyStr Chat.

Definition max_retries : nat := 3.
Definition retry_delay : nat := 2.

(** The [for query in parts[:-1]] loop: strip, keep the non-empty ones. *)
Fixpoint finalize_parts (on : bool) (parts queries : list string)
    (current_query_number : nat) : list string * nat * Trace :=
  match parts with
  | [] => (queries, current_query_number, [])
  | query :: rest =>
      let query := strip query in
      if truthy query then
        let queries := queries ++ [query] in
        let '(qs, n, tr) :=
          finalize_parts on rest queries (S current_query_number) in
        (qs, n, notify on "query_generated" query ++ tr)
      else finalize_parts on rest queries current_query_number
  end.

(** The local variables of the streaming loop. *)
Record Acc : Type := {
  queries : list string;
  current_query : string;
  current_query_number : nat
}.

Definition acc0 : Acc :=
  {| queries := []; current_query := ""; current_query_number := 1 |}.

(** [async for chunk in response: ...] *)
Fixpoint consume (on : bool) (items : list StreamItem) (a : Acc)
    : result Acc * Trace :=
  match items with
  | [] => (Ok a, [])
  | StreamRaises e :: _ => (Raise e, [])
  | Yield c :: rest =>
      if is_stop c then (Ok a, [])
      else
        match delta_content c with
        | Some (String ch tl) =>
            let cur := current_query a +:+ String ch tl in
            let tr1 := notify on "query_generating" cur in
            if contains newline cur then
              let parts := split newline cur in
              let '(qs, n, tr2) :=
                finalize_parts on (removelast parts) (queries a)
                               (current_query_number a) in
              let '(r, tr3) :=
                consume on rest
                  {| queries := qs;
                     current_query := last parts EmptyString;
                     current_query_number := n |} in
              (r, tr1 ++ tr2 ++ tr3)
            else
              let '(r, tr3) :=
                consume on rest
                  {| queries := queries a;
                     current_query := cur;
                     current_query_number := current_query_number a |} in
              (r, tr1 ++ tr3)
        | _ => consume on rest a
        end
  end.

(** The queries finalized by one whole stream: the loop, then the
    remaining buffer. *)
Definition finalized (on : bool) (items : list StreamItem)
    : result (list string) * Trace :=
  match consume on items acc0 with
  | (Raise e, tr) => (Raise e, tr)
  | (Ok a, tr) =>
      let query := strip (current_query a) in
      if truthy query
      then (Ok (queries a ++ [query]), tr ++ notify on "query_generated" query)
      else (Ok (queries a), tr)
  end.

(** The body of the inner [try] of one attempt. *)
Definition attempt (on : bool) (company : string) (r : Response)
    : result (list string) * Trace :=
  match r with
  | RequestRaises e => (Raise e, [ChatRequest "gpt-4"])
  | Stream items =>
      match finalized on items with
      | (Raise e, tr) => (Raise e, ChatRequest "gpt-4" :: tr)
      | (Ok [], tr) =>
          (Raise (Error ("No queries generated for " +:+ company)),
           ChatRequest "gpt-4" :: tr)
      | (Ok qs, tr) => (Ok (firstn 4 qs), ChatRequest "gpt-4" :: tr)
      end
  end.

Definition _fallback_queries (analyst_type company : string) (year : Z)
    : list string :=
  let y := of_int year in
  if String.eqb analyst_type "company_analyzer" then
    [ company +:+ " company overview " +:+ y;
      company +:+ " business model";
      company +:+ " products and services";
      company +:+ " leadership team" ]
  else if String.eqb analyst_type "financial_analyzer" then
    [ company +:+ " financial performance " +:+ y;
      company +:+ " revenue " +:+ y;
      company +:+ " financial reports " +:+ y;
      company +:+ " profit margin" ]
  else if String.eqb analyst_type "industry_analyzer" then
    [ company +:+ " industry position " +:+ y;
      company +:+ " market share";
      company +:+ " competitors analysis";
      company +:+ " industry trends " +:+ y ]
  else if String.eqb analyst_type "news_analyzer" then
    [ company +:+ " latest news " +:+ y;
      company +:+ " recent developments";
      company +:+ " press releases " +:+ y;
      company +:+ " recent announcements" ]
  else
    [ company +:+ " overview " +:+ y;
      company +:+ " recent news " +:+ y;
      company +:+ " financial reports " +:+ y;
      company +:+ " industry analysis " +:+ y ].

(** What [generate_queries] reads from [self] and [state]:
    [company] is [state.get("company", "Unknown Company")]. *)
Record Ctx : Type := {
  analyst_type : string;
  company : string;
  current_year : Z;
  notifying : bool     (* websocket_manager and job_id *)
}.

(** [for attempt in range(max_retries)], entered at iteration [i] with
    [remaining] iterations to go.  [None] is the loop running out
    without a [return].

    The handler of the inner [try] sleeps and goes on, or sends the
    warning and returns the fallback list.  The handler of the outer
    [try], which returns the same fallback list, is never entered: what
    the loop body does outside the inner [try] (logging, reading
    [analyst_type], which [__init__] has set) does not raise, and neither
    does the inner handler. *)
Fixpoint attempts (cx : Ctx) (responses : nat -> Response)
    (remaining i : nat) : option (list string) * Trace :=
  match remaining with
  | O => (None, [])
  | S k =>
      match attempt (notifying cx) (company cx) (responses i) with
      | (Ok qs, tr) => (Some qs, tr)
      | (Raise e, tr) =>
          if i <? max_retries - 1 then
            let '(r, tr') := attempts cx responses k (S i) in
            (r, tr ++ Sleep (retry_delay * 2 ^ i) :: tr')
          else
            (Some (_fallback_queries (analyst_type cx) (company cx)
                                     (current_year cx)),
             tr ++ notify (notifying cx) "warning" "query_generation_fallback")
      end
  end.

Definition generate_queries (cx : Ctx) (responses : nat -> Response)
    : option (list string) * Trace :=
  attempts cx responses max_retries 0.

(** The text a stream delivers: the contents of its chunks up to the
    first chunk whose finish reason is "stop", or the exception raised
    before that. *)
Fixpoint streamed_text (items : list StreamItem) : result string :=
  match items with
  | [] => Ok EmptyString
  | StreamRaises e :: _ => Raise e
  | Yield c :: rest =>
      if is_stop c then Ok EmptyString
      else
        match streamed_text rest with
        | Raise e => Raise e
        | Ok t =>
            Ok (match delta_content c with Some s => s +:+ t | None => t end)
        end
  end.

(** The lines of a text, each stripped, the blank ones left out. *)
Definition query_lines (text : string) : list string :=
  filter truthy (map strip (split newline text)).

(** An attempt fails when its inner [try] block raises. *)
Definition fails (cx : Ctx) (r : Response) : Prop :=
  exists e, fst (attempt (notifying cx) (company cx) r) = Raise e.

End QueryGenerator.

(** ** Python dictionaries with [str] keys

    A [dict] keeps its keys in insertion order; assigning to a key that
    is present replaces the value where the key stands. *)

Module PyDict.

Definition dict (V : Type) : Type := list (string * V).

(** [d[k] = v] *)
Fixpoint set {V : Type} (k : string) (v : V) (d : dict V) : dict V :=
  match d with
  | [] => [(k, v)]
  | (k', v') :: rest =>
      if String.eqb k' k then (k, v) :: rest else (k', v') :: set k v rest
  end.

(** [d.get(k)] *)
Fixpoint get {V : Type} (k : string) (d : dict V) : option V :=
  match d with
  | [] => None
  | (k', v') :: rest => if String.eqb k' k then Some v' else get k rest
  end.

Definition keys {V : Type} (d : dict V) : list string := map fst d.

Definition values {V : Type} (d : dict V) : list V := map snd d.

End PyDict.

(** ** [BaseResearcher.search_single_query] and [search_documents] *)

Module SearchFanout.
Import PyStr.

(** One entry of the provider's ["results"] list, with the texts the
    provider returns.  [None] is a key that is absent. *)
Record Hit : Type := {
  hit_content : option string;
  hit_url : option string;
  hit_title : option string;
  hit_score : option Q
}.

(** A stored document. *)
Record Doc : Type := {
  title : string;
  content : string;
  query : string;
  url : string;
  source : string;
  score : Q
}.

(** Truth value of [item.get(key)]. *)
Definition present (field : option string) : bool :=
  match field with
  | Some s => truthy s
  | None => false
  end.

(** [item.get(key, "")] *)
Definition get_or_empty (field : option string) : string :=
  match field with
  | Some s => s
  | None => EmptyString
  end.

(** The hits that are not skipped:
    [if not item.get("content") or not item.get("url"): continue]. *)
Definition usable (h : Hit) : bool :=
  present (hit_content h) && present (hit_url h).

(** [url = item.get("url")] of a hit. *)
Definition hit_key (h : Hit) : string := get_or_empty (hit_url h).

(** The [search_params] topic chosen from the analyst type. *)
Definition topic (analyst_type : string) : option string :=
  if String.eqb analyst_type "news_analyst" then Some "news"
  else if String.eqb analyst_type "financial_analyst" then Some "finance"
  else None.

(** [asyncio.gather] over the tasks: the list of all results, or the exception
    of a task that raised (which one is of no consequence here: the
    handler drops it). *)
Fixpoint gather {A : Type} (outcomes : list (result A)) : result (list A) :=
  match outcomes with
  | [] => Ok []
  | Raise e :: _ => Raise e
  | Ok a :: rest =>
      match gather rest with
      | Ok l => Ok (a :: l)
      | Raise e => Raise e
      end
  end.

Section WithCleanTitle.

(** [clean_title] of [utils/references.py]. *)
Variable clean_title : string -> string.

(** The title as it is stored. *)
Definition stored_title (title url : string) : string :=
  if truthy title then
    let title := clean_title title in
    if String.eqb (lower title) (lower url) || negb (truthy (strip title))
    then EmptyString else title
  else title.

(** The dictionary stored under the hit's URL. *)
Definition make_doc (q : string) (h : Hit) : Doc :=
  let u := hit_key h in
  {| title := stored_title (get_or_empty (hit_title h)) u;
     content := get_or_empty (hit_content h);
     query := q;
     url := u;
     source := "web_search";
     score := match hit_score h with Some x => x | None => 0%Q end |}.

(** One turn of the loop over the hits of query [q]. *)
Definition add_hit (q : string) (docs : PyDict.dict Doc) (h : Hit)
    : PyDict.dict Doc :=
  if usable h
  then PyDict.set (hit_key h) (make_doc q h) docs
  else docs.

(** [for item in result.get("results", []): ...] *)
Definition add_hits (q : string) (hits : list Hit) (docs : PyDict.dict Doc)
    : PyDict.dict Doc :=
  fold_left (add_hit q) hits docs.

(** [for query, result in zip(queries, results): ...] *)
Fixpoint merge (queries : list string) (results : list (list Hit))
    (docs : PyDict.dict Doc) : PyDict.dict Doc :=
  match queries, results with
  | q :: queries', hits :: results' =>
      merge queries' results' (add_hits q hits docs)
  | _, _ => docs
  end.

(** [search_single_query(query, websocket_manager, job_id)];
    [search query] is what the provider does with the request. *)
Definition search_single_query (analyst_type : string) (on : bool)
    (search : string -> result (list Hit)) (query : string)
    : PyDict.dict Doc * Trace :=
  if is_empty query || (List.length (words query) <? 3) then ([], [])
  else
    let tr := notify on "query_searching" query
              ++ [SearchRequest query (topic analyst_type)] in
    match search query with
    | Ok hits =>
        (add_hits query hits [],
         tr ++ notify on "query_searched" query)
    | Raise e => ([], tr ++ notify on "query_error" query)
    end.

(** The requests of the batch, in the order of the queries; the request
    at position [i] is answered by [search i]. *)
Fixpoint requests (search : nat -> string -> result (list Hit))
    (i : nat) (queries : list string) : list (result (list Hit)) :=
  match queries with
  | [] => []
  | q :: rest => search i q :: requests search (S i) rest
  end.

(** [search_documents(state, queries)] *)
Definition search_documents (analyst_type : string) (on : bool)
    (search : nat -> string -> result (list Hit)) (queries : list string)
    : PyDict.dict Doc * Trace :=
  match queries with
  | [] => ([], [])
  | _ =>
      let tr := notify on "queries_generated" analyst_type
                ++ notify on "search_started" analyst_type
                ++ map (fun q => SearchRequest q (topic analyst_type)) queries in
      match gather (requests search 0 queries) with
      | Raise e => ([], tr)
      | Ok results =>
          (merge queries results [],
           tr ++ notify on "search_complete" analyst_type)
      end
  end.

(** Every entry stands under the URL of a usable hit it was made from. *)
Definition made_from_hits (docs : PyDict.dict Doc) : Prop :=
  forall u d, In (u, d) docs ->
    exists h, usable h = true /\ hit_key h = u /\ d = make_doc (query d) h.

End WithCleanTitle.

End SearchFanout.

(** ** The pipeline state

    [ResearchState] is a typed dictionary.  The keys whose type the nodes
    rely on are fields of a record: the identity of the company, the
    broadcaster handle and the job id, which are only read, the list of
    messages, and the 'editor' entry, of which the code asks whether it
    is there and whether it is a dictionary.  The other keys are kept as
    a dictionary of values, whose truth and type the code tests. *)

Module Pipeline.
Import PyStr.

(** A curated document, as [generate_category_briefing] reads it.  The
    score is what [float] makes of
    [doc.get('evaluation', {}).get('overall_score', '0')]. *)
Inductive ScoreField : Type :=
| NoScore            (* no 'evaluation', or no 'overall_score' in it *)
| Numeric (x : Q)    (* a value that float() converts to a finite number *)
| Infinite (positive : bool)   (* float() gives inf or -inf: "inf", "-1e999" *)
| NotANumber         (* float() gives nan: "nan", float('nan') *)
| NotNumeric.        (* a value that float() refuses, such as "n/a" *)

Record CuratedDoc : Type := {
  doc_title : option string;
  doc_raw_content : option string;
  doc_content : option string;
  doc_score : ScoreField
}.

Inductive Value : Type :=
| VNone
| VStr (s : string)
| VDict (d : PyDict.dict string)
| VList (l : list string)
| VDocs (d : PyDict.dict CuratedDoc)
| VDocList (l : list CuratedDoc).

(** Truth value of an object. *)
Definition truthy_value (v : Value) : bool :=
  match v with
  | VNone => false
  | VStr s => truthy s
  | VDict [] | VList [] | VDocs [] | VDocList [] => false
  | _ => true
  end.

(** [len(v)] of a truthy value. *)
Definition len_value (v : Value) : nat :=
  match v with
  | VNone => 0
  | VStr s => String.length s
  | VDict d => List.length d
  | VList l => List.length l
  | VDocs d => List.length d
  | VDocList l => List.length l
  end.

(** [state['editor']] *)
Inductive EditorEntry : Type :=
| EditorAbsent
| EditorNotDict
| EditorDict (d : PyDict.dict string).

Record ResearchState : Type := {
  company : option string;
  industry : option string;
  hq_location : option string;
  websocket_manager : bool;        (* a manager is present *)
  job_id : option string;
  messages : option (list string);
  editor : EditorEntry;
  fields : PyDict.dict Value
}.

(** [state.get(key)] and [state[key] = v] on the assigned keys. *)
Definition get_field (key : string) (st : ResearchState) : option Value :=
  PyDict.get key (fields st).

Definition set_field (key : string) (v : Value) (st : ResearchState)
    : ResearchState :=
  {| company := company st;
     industry := industry st;
     hq_location := hq_location st;
     websocket_manager := websocket_manager st;
     job_id := job_id st;
     messages := messages st;
     editor := editor st;
     fields := PyDict.set key v (fields st) |}.

(** [if websocket_manager := state.get('websocket_manager'):
       if job_id := state.get('job_id'): ...] *)
Definition notifying (st : ResearchState) : bool :=
  websocket_manager st
  && match job_id st with Some j => truthy j | None => false end.

(** The report categories, with the strings the code names them by. *)
Inductive Category : Type := Financial | News | Industry | Company.

Definition cat_eqb (a b : Category) : bool :=
  match a, b with
  | Financial, Financial | News, News
  | Industry, Industry | Company, Company => true
  | _, _ => false
  end.

Definition cat_name (c : Category) : string :=
  match c with
  | Financial => "financial" | News => "news"
  | Industry => "industry" | Company => "company"
  end.

Definition briefing_key (c : Category) : string := cat_name c +:+ "_briefing".

Definition data_field (c : Category) : string := cat_name c +:+ "_data".

Definition curated_key (c : Category) : string := "curated_" +:+ data_field c.

End Pipeline.

(** ** [Briefing.generate_category_briefing] and [create_briefings] *)

Module Briefing.
Import PyStr Pipeline.

Local Open Scope Z_scope.

Definition max_doc_length : Z := 8000.
Definition prompt_limit : Z := 120000.
Definition truncation_marker : string := "... [content truncated]".

(** [len(s)] *)
Definition len (s : string) : Z := Z.of_nat (String.length s).

(** A [float] as the sort sees it: a finite number, an infinity, or
    NaN. *)
Inductive Float : Type :=
| NaN
| NegInf
| Fin (x : Q)
| PosInf.

Definition is_nan (a : Float) : bool :=
  match a with
  | NaN => true
  | _ => false
  end.

(** [a <= b] on floats: false as soon as one side is NaN. *)
Definition float_leb (a b : Float) : bool :=
  match a, b with
  | NaN, _ | _, NaN => false
  | NegInf, _ => true
  | _, PosInf => true
  | Fin x, Fin y => Qle_bool x y
  | _, _ => false
  end.

(** [a == b] on floats. *)
Definition float_eqb (a b : Float) : bool := float_leb a b && float_leb b a.

(** [float(doc.get('evaluation', {}).get('overall_score', '0'))] *)
Definition score_key (d : CuratedDoc) : result Float :=
  match doc_score d with
  | NoScore => Ok (Fin 0)
  | Numeric x => Ok (Fin x)
  | Infinite true => Ok PosInf
  | Infinite false => Ok NegInf
  | NotANumber => Ok NaN
  | NotNumeric => Raise (Error "could not convert string to float")
  end.

(** The keys are computed for all items before any is compared. *)
Fixpoint with_keys (docs : list CuratedDoc)
    : result (list (Float * CuratedDoc)) :=
  match docs with
  | [] => Ok []
  | d :: rest =>
      match score_key d with
      | Raise e => Raise e
      | Ok k =>
          match with_keys rest with
          | Raise e => Raise e
          | Ok l => Ok ((k, d) :: l)
          end
      end
  end.

(** [sorted(..., reverse=True)] on keys that can all be compared (none
    is NaN) is stable: of two items with the same key, the one that came
    first stays first.  [place x l] puts [x], which came before the items
    of the sorted [l], in front of the first item whose key is not
    greater. *)
Fixpoint place (x : Float * CuratedDoc) (l : list (Float * CuratedDoc))
    : list (Float * CuratedDoc) :=
  match l with
  | [] => [x]
  | y :: l' =>
      if float_leb (fst y) (fst x) then x :: y :: l' else y :: place x l'
  end.

Definition sort_desc (l : list (Float * CuratedDoc))
    : list (Float * CuratedDoc) :=
  fold_right place [] l.

(** One of the keys is NaN. *)
Definition has_nan (l : list (Float * CuratedDoc)) : bool :=
  existsb (fun p => is_nan (fst p)) l.

(** [items]: the documents of a dictionary, or of a list.  [len(docs)]
    raises on [None]; on a non-empty value of another type the first
    [.get] raises. *)
Definition documents_of (docs : Value) : result (list CuratedDoc) :=
  match docs with
  | VDocs d => Ok (PyDict.values d)
  | VDocList l => Ok l
  | VDict [] | VList [] | VStr EmptyString => Ok []
  | VNone => Raise (Error "object of type 'NoneType' has no len()")
  | _ => Raise (Error "object has no attribute 'get'")
  end.

Section WithSort.

(** What [sorted] makes of items of which one has the key NaN.  Every
    comparison with NaN is false, so the keys are not ordered and the
    result depends on the steps of the sorting algorithm; nothing is
    assumed of it here. *)
Variable unordered : list (Float * CuratedDoc) -> list CuratedDoc.

Definition sorted_items (docs : Value) : result (list CuratedDoc) :=
  match documents_of docs with
  | Raise e => Raise e
  | Ok l =>
      match with_keys l with
      | Raise e => Raise e
      | Ok keyed =>
          Ok (if has_nan keyed then unordered keyed
              else map snd (sort_desc keyed))
      end
  end.

(** [doc.get('raw_content') or doc.get('content', '')] *)
Definition full_content (d : CuratedDoc) : string :=
  match doc_raw_content d with
  | Some (String c s) => String c s
  | _ => match doc_content d with Some s => s | None => EmptyString end
  end.

(** The content, cut to [max_doc_length] with the marker behind it when
    it is longer. *)
Definition doc_text (d : CuratedDoc) : string :=
  let content := full_content d in
  if max_doc_length <? len content
  then take (Z.to_nat max_doc_length) content +:+ truncation_marker
  else content.

Definition doc_entry (d : CuratedDoc) : string :=
  "Title: " +:+ match doc_title d with Some t => t | None => EmptyString end
  +:+ nl +:+ nl +:+ "Content: " +:+ doc_text d.

(** The loop that fills [doc_texts], entered with [total_length]. *)
Fixpoint add_entries (docs : list CuratedDoc) (total_length : Z)
    : list string :=
  match docs with
  | [] => []
  | d :: rest =>
      let entry := doc_entry d in
      if total_length + len entry <? prompt_limit
      then entry :: add_entries rest (total_length + len entry)
      else []
  end.

(** The score a document is ranked by when every score converts. *)
Definition score_value (d : CuratedDoc) : Float :=
  match doc_score d with
  | Numeric x => Fin x
  | Infinite true => PosInf
  | Infinite false => NegInf
  | NotANumber => NaN
  | _ => Fin 0
  end.

(** Descending order, of the keys and of the documents' scores. *)
Definition key_desc (a b : Float * CuratedDoc) : Prop :=
  float_leb (fst b) (fst a) = true.

Definition score_desc (a b : CuratedDoc) : Prop :=
  float_leb (score_value b) (score_value a) = true.

(** [total_length] after the given entries. *)
Definition total_len (entries : list string) : Z :=
  fold_right (fun e acc => len e + acc) 0 entries.

(** The document selection of [generate_category_briefing]:
    normalize, sort, fill [doc_texts]. *)
Definition select_documents (docs : Value) : result (list string) :=
  match sorted_items docs with
  | Raise e => Raise e
  | Ok sorted => Ok (add_entries sorted 0)
  end.

(** [generate_category_briefing(docs, category, context)]; [llm] is what
    [generate_content] followed by [response.text] does with the prompt
    built for the category from the selected texts. *)
Definition generate_category_briefing (on : bool)
    (llm : string -> list string -> result string)
    (docs : Value) (category : string) : result string * Trace :=
  let tr := match docs with
            | VNone => []
            | _ => notify on "briefing_start" category
            end in
  match select_documents docs with
  | Raise e => (Raise e, tr)
  | Ok doc_texts =>
      let tr := tr ++ [GenerateContent category] in
      match llm category doc_texts with
      | Raise e => (Ok EmptyString, tr)
      | Ok text =>
          let content := strip text in
          if truthy content
          then (Ok content, tr ++ notify on "briefing_complete" category)
          else (Ok EmptyString, tr)
      end
  end.

Local Close Scope Z_scope.

(** *** [create_briefings]

    The tasks of [asyncio.gather] take turns on one event loop.  A task
    is advanced from one suspension point to the next: entering
    [async with briefing_semaphore] (it stays where it is while no slot
    is free), then the body up to the release of the slot.  An execution
    is the list of the categories whose task is advanced, in order. *)

Inductive Status : Type :=
| NoTask              (* no curated data: no task was created *)
| Waiting             (* created, not yet inside the semaphore *)
| InFlight            (* inside the semaphore *)
| Finished            (* left the semaphore, result stored *)
| Failed (e : exn).   (* left the semaphore by an exception *)

Record Config : Type := {
  state : ResearchState;
  briefings : PyDict.dict string;
  tasks : list (Category * Value);  (* briefing_tasks, with curated_data *)
  status : Category -> Status;
  permits : nat;                    (* the value of the semaphore *)
  failure : option exn;             (* the exception gather re-raises *)
  trace : Trace
}.

Definition update (f : Category -> Status) (c : Category) (s : Status)
    : Category -> Status :=
  fun c' => if cat_eqb c c' then s else f c'.

(** The order of the [categories] dictionary. *)
Definition categories : list Category := [Financial; News; Industry; Company].

(** [state.get(curated_key, {})] *)
Definition curated_data (st : ResearchState) (c : Category) : Value :=
  match get_field (curated_key c) st with
  | Some v => v
  | None => VDict []
  end.

(** The first loop: a task for each category that has data, the empty
    briefing for the others. *)
Fixpoint prepare (cs : list Category) (st : ResearchState)
    : ResearchState * list (Category * Value) :=
  match cs with
  | [] => (st, [])
  | c :: rest =>
      let curated := curated_data st c in
      if truthy_value curated then
        let '(st', tasks) := prepare rest st in (st', (c, curated) :: tasks)
      else prepare rest (set_field (briefing_key c) (VStr EmptyString) st)
  end.

(** [task['curated_data']] of the task of category [c]. *)
Fixpoint task_data (tasks : list (Category * Value)) (c : Category)
    : option Value :=
  match tasks with
  | [] => None
  | (c', v) :: rest => if cat_eqb c' c then Some v else task_data rest c
  end.

Definition start (st : ResearchState) (tasks : list (Category * Value))
    : Config :=
  {| state := st;
     briefings := [];
     tasks := tasks;
     status := fun c => match task_data tasks c with
                        | Some _ => Waiting
                        | None => NoTask
                        end;
     permits := 2;
     failure := None;
     trace := [] |}.

(** The body of [process_briefing] inside the semaphore. *)
Definition finish (llm : string -> list string -> result string)
    (c : Category) (cfg : Config) : Config :=
  let st := state cfg in
  let docs := match task_data (tasks cfg) c with
              | Some v => v
              | None => VNone
              end in
  let '(r, tr) :=
    generate_category_briefing (notifying st) llm docs (cat_name c) in
  match r with
  | Raise e =>
      {| state := st;
         briefings := briefings cfg;
         tasks := tasks cfg;
         status := update (status cfg) c (Failed e);
         permits := S (permits cfg);
         failure := match failure cfg with Some e0 => Some e0 | None => Some e end;
         trace := trace cfg ++ tr |}
  | Ok content =>
      {| state := set_field (briefing_key c)
                    (VStr (if truthy content then content else EmptyString)) st;
         briefings := if truthy content
                      then PyDict.set (cat_name c) content (briefings cfg)
                      else briefings cfg;
         tasks := tasks cfg;
         status := update (status cfg) c Finished;
         permits := S (permits cfg);
         failure := failure cfg;
         trace := trace cfg ++ tr |}
  end.

(** The task of category [c] takes its next turn. *)
Definition advance (llm : string -> list string -> result string)
    (c : Category) (cfg : Config) : Config :=
  match status cfg c with
  | Waiting =>
      match permits cfg with
      | O => cfg
      | S k =>
          {| state := state cfg;
             briefings := briefings cfg;
             tasks := tasks cfg;
             status := update (status cfg) c InFlight;
             permits := k;
             failure := failure cfg;
             trace := trace cfg |}
      end
  | InFlight => finish llm c cfg
  | _ => cfg
  end.

Definition run (llm : string -> list string -> result string)
    (schedule : list Category) (cfg : Config) : Config :=
  fold_left (fun cfg c => advance llm c cfg) schedule cfg.

(** The number of tasks inside the semaphore. *)
Definition in_flight (cfg : Config) : nat :=
  List.length
    (filter (fun c => match status cfg c with InFlight => true | _ => false end)
            categories).

(** Free slots and tasks inside the semaphore add up to its capacity. *)
Definition balanced (cfg : Config) : Prop := permits cfg + in_flight cfg = 2.

(** A category without a task: it holds no slot of the semaphore, its
    briefing is the empty string, and no request was made for it. *)
Definition idle (c : Category) (cfg : Config) : Prop :=
  status cfg c = NoTask
  /\ get_field (briefing_key c) (state cfg) = Some (VStr EmptyString)
  /\ ~ In (GenerateContent (cat_name c)) (trace cfg).

(** No task is inside the semaphore and none has failed. *)
Definition quiet (cfg : Config) : Prop :=
  permits cfg = 2 /\ failure cfg = None
  /\ forall c, match status cfg c with
               | InFlight | Failed _ => False
               | _ => True
               end.

Definition settled (s : Status) : bool :=
  match s with
  | Waiting | InFlight => false
  | _ => true
  end.

(** [create_briefings(state)] along one execution.  [None]: the
    execution stops before every task is through, so the call has not
    come back yet. *)
Definition create_briefings (llm : string -> list string -> result string)
    (schedule : list Category) (st : ResearchState)
    : option (result ResearchState) * Trace :=
  let tr := notify (notifying st) "processing" "Briefing" in
  let '(st1, briefing_tasks) := prepare categories st in
  match briefing_tasks with
  | [] => (Some (Ok (set_field "briefings" (VDict []) st1)), tr)
  | _ =>
      let cfg := run llm schedule (start st1 briefing_tasks) in
      match failure cfg with
      | Some e => (Some (Raise e), tr ++ trace cfg)
      | None =>
          if forallb (fun c => settled (status cfg c)) categories
          then (Some (Ok (set_field "briefings" (VDict (briefings cfg))
                                    (state cfg))),
                tr ++ trace cfg)
          else (None, tr ++ trace cfg)
      end
  end.

(** Every task in turn, each to its end. *)
Definition sequential : list Category :=
  flat_map (fun c => [c; c]) categories.

(** The configuration an execution of [create_briefings] reaches. *)
Definition execution (llm : string -> list string -> result string)
    (schedule : list Category) (st : ResearchState) : Config :=
  let '(st1, briefing_tasks) := prepare categories st in
  run llm schedule (start st1 briefing_tasks).

(** What the synthesis of category [c] returns when the call is made. *)
Definition outcome (llm : string -> list string -> result string)
    (st : ResearchState) (c : Category) : result string :=
  fst (generate_category_briefing (notifying st) llm (curated_data st c)
                                  (cat_name c)).

(** The non-empty content synthesized for category [c], if any. *)
Definition synthesized (llm : string -> list string -> result string)
    (st : ResearchState) (c : Category) : option string :=
  if truthy_value (curated_data st c) then
    match outcome llm st c with
    | Ok content => if truthy content then Some content else None
    | Raise _ => None
    end
  else None.

(** How the slots and the map of briefings follow the tasks, in a
    configuration of a call entered with state [st]. *)
Definition consistent (llm : string -> list string -> result string)
    (st : ResearchState) (cfg : Config) : Prop :=
  notifying (state cfg) = notifying st
  /\ (forall c,
        task_data (tasks cfg) c
        = if truthy_value (curated_data st c)
          then Some (curated_data st c) else None)
  /\ (forall k, In k (PyDict.keys (briefings cfg)) -> exists c, k = cat_name c)
  /\ (forall c,
        match status cfg c with
        | NoTask =>
            truthy_value (curated_data st c) = false
            /\ get_field (briefing_key c) (state cfg) = Some (VStr EmptyString)
            /\ PyDict.get (cat_name c) (briefings cfg) = None
        | Waiting | InFlight =>
            truthy_value (curated_data st c) = true
            /\ PyDict.get (cat_name c) (briefings cfg) = None
        | Finished =>
            truthy_value (curated_data st c) = true
            /\ exists content,
                 outcome llm st c = Ok content
                 /\ get_field (briefing_key c) (state cfg) = Some (VStr content)
                 /\ PyDict.get (cat_name c) (briefings cfg)
                    = if truthy content then Some content else None
        | Failed e => failure cfg <> None
        end).

End WithSort.

End Briefing.

(** ** [Editor.compile_briefings], [edit_report], [compile_content] and
    [content_sweep] *)

Module Editor.
Import PyStr Chat Pipeline.

(** The order of the [briefing_keys] dictionary. *)
Definition briefing_keys : list Category := [Company; Industry; Financial; News].

Definition set_editor (e : EditorEntry) (st : ResearchState) : ResearchState :=
  {| company := company st;
     industry := industry st;
     hq_location := hq_location st;
     websocket_manager := websocket_manager st;
     job_id := job_id st;
     messages := messages st;
     editor := e;
     fields := fields st |}.

(** [state.setdefault('messages', []).append(AIMessage(content=text))] *)
Definition append_message (text : string) (st : ResearchState)
    : ResearchState :=
  {| company := company st;
     industry := industry st;
     hq_location := hq_location st;
     websocket_manager := websocket_manager st;
     job_id := job_id st;
     messages := Some (match messages st with
                       | Some l => l ++ [text]
                       | None => [text]
                       end);
     editor := editor st;
     fields := fields st |}.

(** ["\n\n".join(content for content in briefings.values())]: a value
    that is not a [str] raises. *)
Fixpoint texts (vs : list Value) : result (list string) :=
  match vs with
  | [] => Ok []
  | VStr s :: rest =>
      match texts rest with
      | Ok l => Ok (s :: l)
      | Raise e => Raise e
      end
  | _ :: _ => Raise (Error "sequence item: expected str instance")
  end.

(** Any of the characters that end a sentence or a line. *)
Definition has_boundary (buffer : string) : bool :=
  contains "."%char buffer || contains "!"%char buffer
  || contains "?"%char buffer || contains newline buffer.

(** [async for chunk in response: ...] of [content_sweep], entered with
    the text accumulated so far and the broadcast buffer. *)
Fixpoint sweep_stream (on : bool) (items : list StreamItem)
    (accumulated_text buffer : string) : result string * Trace :=
  match items with
  | [] => (Ok accumulated_text, [])
  | StreamRaises e :: _ => (Raise e, [])
  | Yield c :: rest =>
      if is_stop c then
        (Ok accumulated_text,
         if truthy buffer then notify on "report_chunk" buffer else [])
      else
        match delta_content c with
        | Some (String ch tl) =>
            let accumulated_text := accumulated_text +:+ String ch tl in
            let buffer := buffer +:+ String ch tl in
            if has_boundary buffer && (10 <? String.length buffer) then
              let '(r, tr) := sweep_stream on rest accumulated_text EmptyString in
              (r, notify on "report_chunk" buffer ++ tr)
            else sweep_stream on rest accumulated_text buffer
        | _ => sweep_stream on rest accumulated_text buffer
        end
  end.

(** [content_sweep(state, content, company)]; [sweep] is what the
    streamed request for the given report does. *)
Definition content_sweep (on : bool) (sweep : string -> Response)
    (content : string) : string * Trace :=
  match sweep content with
  | RequestRaises e => (strip content, [ChatRequest "gpt-4.1-mini"])
  | Stream items =>
      match sweep_stream on items EmptyString EmptyString with
      | (Ok accumulated_text, tr) =>
          (strip accumulated_text, ChatRequest "gpt-4.1-mini" :: tr)
      | (Raise e, tr) => (strip content, ChatRequest "gpt-4.1-mini" :: tr)
      end
  end.

Section WithReferences.

(** [format_references_section] of [utils/references.py], applied to
    [references], [reference_info] and [reference_titles]. *)
Variable format_references_section : Value -> Value -> Value -> result string.

Definition get_or (key : string) (default : Value) (st : ResearchState)
    : Value :=
  match get_field key st with
  | Some v => v
  | None => default
  end.

(** [compile_content(state, briefings, company)]; [compile] is what the
    request for the combined briefings, followed by
    [response.choices[0].message.content], does. *)
Definition compile_content (compile : string -> result string)
    (st : ResearchState) (briefings : PyDict.dict Value)
    : result string * Trace :=
  match texts (PyDict.values briefings) with
  | Raise e => (Raise e, [])
  | Ok contents =>
      let combined_content := join (nl +:+ nl) contents in
      let references := get_or "references" (VList []) st in
      let reference_text :=
        if truthy_value references
        then format_references_section references
               (get_or "reference_info" (VDict []) st)
               (get_or "reference_titles" (VDict []) st)
        else Ok EmptyString in
      match reference_text with
      | Raise e => (Raise e, [])
      | Ok reference_text =>
          match compile combined_content with
          | Ok text =>
              let initial_report := strip text in
              (Ok (if truthy reference_text
                   then initial_report +:+ nl +:+ nl +:+ reference_text
                   else initial_report),
               [ChatRequest "gpt-4.1"])
          | Raise e => (Ok (strip combined_content), [ChatRequest "gpt-4.1"])
          end
      end
  end.

(** The body of the [try] of [edit_report], with the state as it stands
    when the body is left. *)
Definition edit_report_body (compile : string -> result string)
    (sweep : string -> Response) (st : ResearchState)
    (briefings : PyDict.dict Value)
    : result string * ResearchState * Trace :=
  let on := notifying st in
  let tr := notify on "processing" "compilation" in
  match compile_content compile st briefings with
  | (Raise e, tr1) => (Raise e, st, tr ++ tr1)
  | (Ok edited_report, tr1) =>
      let tr := tr ++ tr1 in
      if negb (truthy edited_report) then (Ok EmptyString, st, tr)
      else
        let tr := tr ++ notify on "processing" "cleanup"
                     ++ notify on "processing" "format" in
        let '(final_report, tr2) := content_sweep on sweep edited_report in
        let tr := tr ++ tr2 in
        if negb (truthy (strip final_report)) then (Ok EmptyString, st, tr)
        else
          let st := set_field "report" (VStr final_report) st in
          let st := set_field "status" (VStr "editor_complete") st in
          let st :=
            match editor st with
            | EditorDict d =>
                set_editor (EditorDict (PyDict.set "report" final_report d)) st
            | _ => set_editor (EditorDict [("report", final_report)]) st
            end in
          (Ok final_report, st, tr ++ notify on "editor_complete" "report")
  end.

(** [edit_report(state, briefings, context)] *)
Definition edit_report (compile : string -> result string)
    (sweep : string -> Response) (st : ResearchState)
    (briefings : PyDict.dict Value) : string * ResearchState * Trace :=
  match edit_report_body compile sweep st briefings with
  | (Ok report, st', tr) => (report, st', tr)
  | (Raise e, st', tr) => (EmptyString, st', tr)
  end.

(** The loop over [briefing_keys]: what is found, and the lines of the
    message. *)
Fixpoint collect (cs : list Category) (st : ResearchState)
    (individual_briefings : PyDict.dict Value) (msg : list string)
    : PyDict.dict Value * list string :=
  match cs with
  | [] => (individual_briefings, msg)
  | c :: rest =>
      match get_field (briefing_key c) st with
      | Some v =>
          if truthy_value v then
            collect rest st
              (PyDict.set (cat_name c) v individual_briefings)
              (msg ++ ["Found " +:+ cat_name c +:+ " briefing ("
                       +:+ of_int (Z.of_nat (len_value v)) +:+ " characters)"])
          else
            collect rest st individual_briefings
              (msg ++ ["No " +:+ cat_name c +:+ " briefing available"])
      | None =>
          collect rest st individual_briefings
            (msg ++ ["No " +:+ cat_name c +:+ " briefing available"])
      end
  end.

Definition no_briefings_line : string :=
  nl +:+ "⚠️ No briefing sections available to compile".

(** The slot of category [c] is absent or holds a false value. *)
Definition no_briefing (st : ResearchState) (c : Category) : Prop :=
  match get_field (briefing_key c) st with
  | Some v => truthy_value v = false
  | None => True
  end.

(** The message appended when no briefing is found. *)
Definition nothing_to_compile (st : ResearchState) : string :=
  join nl
    (["📑 Compiling final report for "
      +:+ match company st with Some c => c | None => "Unknown Company" end
      +:+ "..."]
     ++ map (fun c => "No " +:+ cat_name c +:+ " briefing available")
            briefing_keys
     ++ [no_briefings_line]).

(** [compile_briefings(state)] *)
Definition compile_briefings (compile : string -> result string)
    (sweep : string -> Response) (st : ResearchState)
    : ResearchState * Trace :=
  let company :=
    match company st with Some c => c | None => "Unknown Company" end in
  let on := notifying st in
  let tr := notify on "processing" "initialization"
            ++ notify on "processing" "collecting_briefings" in
  let '(individual_briefings, msg) :=
    collect briefing_keys st []
            ["📑 Compiling final report for " +:+ company +:+ "..."] in
  match individual_briefings with
  | [] =>
      (append_message (join nl (msg ++ [no_briefings_line])) st, tr)
  | _ =>
      let '(compiled_report, st', tr') :=
        edit_report compile sweep st individual_briefings in
      (append_message (join nl msg) st', tr ++ tr')
  end.

End WithReferences.

End Editor.

(** The wording of the streaming rule, taken literally: every token is
    appended to the buffer; each newline finalizes the buffer content
    before it as one completed query and leaves the remainder in the
    buffer; at the end a non-empty buffer is finalized as it is. *)
Module StreamingRule.
Import PyStr.

Fixpoint run (tokens : list string) (buffer : string)
    (completed : list string) : list string :=
  match tokens with
  | [] => if truthy buffer then completed ++ [buffer] else completed
  | t :: rest =>
      let parts := split newline (buffer +:+ t) in
      run rest (last parts EmptyString) (completed ++ removelast parts)
  end.

Definition queries_of (tokens : list string) : list string :=
  run tokens EmptyString [].

End StreamingRule.

(** The wording of the merge rule: of the hits of a batch, taken in the
    order of the queries and, for one query, in the order of its results,
    the last hit with a content and a URL is the one whose document
    stands under that URL. *)
Module MergeRule.
Import SearchFanout.

(** The hits of the batch in the order they are processed, each with the
    query it answers. *)
Fixpoint tagged (queries : list string) (results : list (list Hit))
    : list (string * Hit) :=
  match queries, results with
  | q :: queries', hits :: results' =>
      map (pair q) hits ++ tagged queries' results'
  | _, _ => []
  end.

Definition later (u : string) (best : option (string * Hit))
    (qh : string * Hit) : option (string * Hit) :=
  if usable (snd qh) && String.eqb (hit_key (snd qh)) u then Some qh else best.

(** The last usable hit for the URL [u], with its query. *)
Definition last_hit (u : string) (hits : list (string * Hit))
    : option (string * Hit) :=
  fold_left (later u) hits None.

End MergeRule.

(** ** Sample inputs *)

Module Samples.

Definition news_ctx : QueryGenerator.Ctx :=
  {| QueryGenerator.analyst_type := "news_analyzer";
     QueryGenerator.company := "Acme";
     QueryGenerator.current_year := 2026%Z;
     QueryGenerator.notifying := true |}.

Definition tesla_hit : SearchFanout.Hit :=
  {| SearchFanout.hit_content := Some "Tesla, Inc. designs electric vehicles.";
     SearchFanout.hit_url := Some "https://example.com/tesla";
     SearchFanout.hit_title := None;
     SearchFanout.hit_score := None |}.

(** A hit for one fixed URL whose content is the query that found it. *)
Definition same_url_hit (q : string) : SearchFanout.Hit :=
  {| SearchFanout.hit_content := Some q;
     SearchFanout.hit_url := Some "https://example.com/a";
     SearchFanout.hit_title := Some "A";
     SearchFanout.hit_score := None |}.

Definition scored_doc (t : string) (sc : Pipeline.ScoreField)
    : Pipeline.CuratedDoc :=
  {| Pipeline.doc_title := Some t;
     Pipeline.doc_raw_content := None;
     Pipeline.doc_content := Some "Acme makes anvils.";
     Pipeline.doc_score := sc |}.

(** Three documents: scores 0.3, none, 0.9. *)
Definition three_docs : Pipeline.Value :=
  Pipeline.VDocList
    [ scored_doc "low" (Pipeline.Numeric (3 # 10));
      scored_doc "unscored" Pipeline.NoScore;
      scored_doc "high" (Pipeline.Numeric (9 # 10)) ].

(** A document whose score is the text "n/a". *)
Definition unrated_docs : Pipeline.Value :=
  Pipeline.VDocList [ scored_doc "unrated" Pipeline.NotNumeric ].

(** A document whose content is 8001 times the letter x. *)
Fixpoint letters (n : nat) : string :=
  match n with
  | O => EmptyString
  | S k => String "x"%char (letters k)
  end.

Definition long_doc : Pipeline.CuratedDoc :=
  {| Pipeline.doc_title := Some "long";
     Pipeline.doc_raw_content := Some (letters (Z.to_nat 8001));
     Pipeline.doc_content := None;
     Pipeline.doc_score := Pipeline.NoScore |}.

(** A dictionary of one curated document. *)
Definition one_doc : Pipeline.Value :=
  Pipeline.VDocs
    [("https://example.com/a", scored_doc "a" (Pipeline.Numeric (1 # 2)))].

Definition state_with (fs : PyDict.dict Pipeline.Value)
    : Pipeline.ResearchState :=
  {| Pipeline.company := Some "Acme";
     Pipeline.industry := None;
     Pipeline.hq_location := None;
     Pipeline.websocket_manager := false;
     Pipeline.job_id := None;
     Pipeline.messages := None;
     Pipeline.editor := Pipeline.EditorAbsent;
     Pipeline.fields := fs |}.

(** Curated input for the company category alone. *)
Definition company_only : Pipeline.ResearchState :=
  state_with [("curated_company_data", one_doc)].

(** Curated input for all four categories. *)
Definition all_four : Pipeline.ResearchState :=
  state_with [ ("curated_financial_data", one_doc);
               ("curated_news_data", one_doc);
               ("curated_industry_data", one_doc);
               ("curated_company_data", one_doc) ].

(** A state without any briefing. *)
Definition no_briefings : Pipeline.ResearchState := state_with [].

(** Providers for the editor: a compiler and a cleaner that answer, and
    no references to format. *)
Definition no_references (a b c : Pipeline.Value) : result string :=
  Ok EmptyString.

Definition compile_ok (combined : string) : result string :=
  Ok ("# Acme" +:+ combined).

Definition sweep_ok (report : string) : Chat.Response :=
  Chat.Stream [Chat.token report].

(** A state with the company briefing alone. *)
Definition company_briefed : Pipeline.ResearchState :=
  state_with [("company_briefing", Pipeline.VStr "Acme makes anvils.")].

(** A briefing model that answers every prompt. *)
Definition echo (category : string) (texts : list string) : result string :=
  Ok ("About " +:+ category).

(** An order for the documents of a collection with a NaN score: as they
    came. *)
Definition as_given (keyed : list (Briefing.Float * Pipeline.CuratedDoc))
    : list Pipeline.CuratedDoc :=
  map snd keyed.

End Samples.

(** ** Reading a trace *)

Module Observe.

(** The seconds slept, in order. *)
Fixpoint sleeps (tr : Trace) : list nat :=
  match tr with
  | [] => []
  | Sleep n :: rest => n :: sleeps rest
  | _ :: rest => sleeps rest
  end.

(** The models asked for a chat completion, in order. *)
Fixpoint chat_models (tr : Trace) : list string :=
  match tr with
  | [] => []
  | ChatRequest m :: rest => m :: chat_models rest
  | _ :: rest => chat_models rest
  end.

(** The queries sent to the search provider, in order. *)
Fixpoint searched (tr : Trace) : list string :=
  match tr with
  | [] => []
  | SearchRequest q _ :: rest => q :: searched rest
  | _ :: rest => searched rest
  end.

(** The texts carried by the status updates, one after the other. *)
Fixpoint payloads (tr : Trace) : string :=
  match tr with
  | [] => EmptyString
  | StatusUpdate _ detail :: rest => detail +:+ payloads rest
  | _ :: rest => payloads rest
  end.

Definition is_update (e : Event) : bool :=
  match e with
  | StatusUpdate _ _ => true
  | _ => false
  end.

(** A stream that reaches a chunk whose finish reason is "stop" before
    it runs out or raises. *)
Fixpoint stops (items : list Chat.StreamItem) : bool :=
  match items with
  | [] => false
  | Chat.StreamRaises _ :: _ => false
  | Chat.Yield c :: rest => if Chat.is_stop c then true else stops rest
  end.

(** The categories a synthesis was requested for, in order. *)
Fixpoint generated (tr : Trace) : list string :=
  match tr with
  | [] => []
  | GenerateContent c :: rest => c :: generated rest
  | _ :: rest => generated rest
  end.

(** The entries of the state that a node does not write: the fixed
    entries, and every other key outside [written]. *)
Definition same_but (written : string -> Prop)
    (st st' : Pipeline.ResearchState) : Prop :=
  Pipeline.company st' = Pipeline.company st
  /\ Pipeline.industry st' = Pipeline.industry st
  /\ Pipeline.hq_location st' = Pipeline.hq_location st
  /\ Pipeline.websocket_manager st' = Pipeline.websocket_manager st
  /\ Pipeline.job_id st' = Pipeline.job_id st
  /\ forall key, ~ written key ->
       Pipeline.get_field key st' = Pipeline.get_field key st.

(** The keys that [create_briefings] assigns. *)
Definition briefing_slot (key : string) : Prop :=
  key = "briefings" \/ exists c, key = Pipeline.briefing_key c.

(** The keys that [edit_report] assigns. *)
Definition report_slot (key : string) : Prop :=
  key = "report" \/ key = "status".

(** In a configuration of [create_briefings]: no category was requested
    twice, and a category was requested exactly when its task has left
    the semaphore with a result, or has failed. *)
Definition requested_once (cfg : Briefing.Config) : Prop :=
  NoDup (generated (Briefing.trace cfg))
  /\ forall c,
       (In (Pipeline.cat_name c) (generated (Briefing.trace cfg)) ->
        Briefing.status cfg c = Briefing.Finished
        \/ exists e, Briefing.status cfg c = Briefing.Failed e)
       /\ (Briefing.status cfg c = Briefing.Finished ->
           In (Pipeline.cat_name c) (generated (Briefing.trace cfg))).

(** What [create_briefings] leaves as it is. *)
Definition kept (st st' : Pipeline.ResearchState) : Prop :=
  same_but briefing_slot st st'
  /\ Pipeline.messages st' = Pipeline.messages st
  /\ Pipeline.editor st' = Pipeline.editor st.

(** The default list of [_fallback_queries]. *)
Definition default_queries (company : string) (year : Z) : list string :=
  QueryGenerator._fallback_queries "base_researcher" company year.

(** The entry that the loop over [briefing_keys] makes for a category. *)
Definition found (st : Pipeline.ResearchState) (c : Pipeline.Category)
    : list (string * Pipeline.Value) :=
  match Pipeline.get_field (Pipeline.briefing_key c) st with
  | Some v => if Pipeline.truthy_value v then [(Pipeline.cat_name c, v)] else []
  | None => []
  end.

End Observe.

(** * The nodes with a broadcaster that can fail

    [send_status_update] is code of the server, not of these nodes: it
    may raise (a closed socket, a payload that cannot be encoded).  Here
    the nodes are run against a broadcaster that answers each update by
    returning or by raising, as the events so far and the update decide.
    A computation takes the store (the state dictionary, where a node
    has one) and the events so far, and gives a value or an exception,
    with the store and the events as they then stand: an assignment made
    before an exception is raised stays made. *)

Module Run.
Import PyStr.

(** What the broadcaster does with the update [status], [detail] after
    the events [tr]: [None] when it returns, the exception when it
    raises. *)
Definition Broadcaster : Type := Trace -> string -> string -> option exn.

Definition M (S A : Type) : Type := S -> Trace -> result A * S * Trace.

Definition ret {S A : Type} (a : A) : M S A := fun s tr => (Ok a, s, tr).

(** [raise e] *)
Definition raise {S A : Type} (e : exn) : M S A :=
  fun s tr => (Raise e, s, tr).

Definition bind {S A B : Type} (m : M S A) (k : A -> M S B) : M S B :=
  fun s tr =>
    match m s tr with
    | (Ok a, s', tr') => k a s' tr'
    | (Raise e, s', tr') => (Raise e, s', tr')
    end.

Notation "x <- m ;; k" := (bind m (fun x => k))
  (at level 61, m at next level, right associativity).
Notation "m ;; k" := (bind m (fun _ => k))
  (at level 61, right associativity).

(** [try: body  except Exception as e: handler] *)
Definition try_except {S A : Type} (body : M S A) (handler : exn -> M S A)
    : M S A :=
  fun s tr =>
    match body s tr with
    | (Ok a, s', tr') => (Ok a, s', tr')
    | (Raise e, s', tr') => handler e s' tr'
    end.

(** An awaited call to a provider, whose outcome the oracle gave. *)
Definition lift {S A : Type} (r : result A) : M S A := fun s tr => (r, s, tr).

Definition emit {S : Type} (e : Event) : M S unit :=
  fun s tr => (Ok tt, s, tr ++ [e]).

Definition emit_all {S : Type} (es : Trace) : M S unit :=
  fun s tr => (Ok tt, s, tr ++ es).

Definition get {S : Type} : M S S := fun s tr => (Ok s, s, tr).

Definition modify {S : Type} (f : S -> S) : M S unit :=
  fun s tr => (Ok tt, f s, tr).

(** [if websocket_manager and job_id: await send_status_update(...)] *)
Definition send_status_update {S : Type} (bc : Broadcaster) (on : bool)
    (status detail : string) : M S unit :=
  fun s tr =>
    if on then
      (match bc tr status detail with
       | Some e => Raise e
       | None => Ok tt
       end, s, tr ++ [StatusUpdate status detail])
    else (Ok tt, s, tr).

(** What a computation returns, and the events it adds, from the start. *)
Definition value {S A : Type} (out : result A * S * Trace) : result A :=
  fst (fst out).

Definition store {S A : Type} (out : result A * S * Trace) : S :=
  snd (fst out).

Definition events {S A : Type} (out : result A * S * Trace) : Trace :=
  snd out.

(** A broadcaster that delivers every update. *)
Definition delivers (bc : Broadcaster) : Prop :=
  forall tr status detail, bc tr status detail = None.

(** ** [BaseResearcher.generate_queries] *)

Section Researcher.
Import Chat QueryGenerator SearchFanout.
Variable bc : Broadcaster.

(** The [for query in parts[:-1]] loop. *)
Fixpoint finalize_parts (on : bool) (parts queries : list string)
    (current_query_number : nat) : M unit (list string * nat) :=
  match parts with
  | [] => ret (queries, current_query_number)
  | query :: rest =>
      let query := strip query in
      if truthy query then
        send_status_update bc on "query_generated" query ;;
        finalize_parts on rest (queries ++ [query]) (S current_query_number)
      else finalize_parts on rest queries current_query_number
  end.

(** [async for chunk in response: ...] *)
Fixpoint consume (on : bool) (items : list StreamItem) (a : Acc)
    : M unit Acc :=
  match items with
  | [] => ret a
  | StreamRaises e :: _ => raise e
  | Yield c :: rest =>
      if is_stop c then ret a
      else
        match delta_content c with
        | Some (String ch tl) =>
            let cur := current_query a +:+ String ch tl in
            send_status_update bc on "query_generating" cur ;;
            if contains newline cur then
              let parts := split newline cur in
              p <- finalize_parts on (removelast parts) (queries a)
                                  (current_query_number a) ;;
              consume on rest
                {| queries := fst p;
                   current_query := last parts EmptyString;
                   current_query_number := snd p |}
            else
              consume on rest
                {| queries := queries a;
                   current_query := cur;
                   current_query_number := current_query_number a |}
        | _ => consume on rest a
        end
  end.

(** The body of the inner [try] of one attempt. *)
Definition attempt (on : bool) (company : string) (r : Response)
    : M unit (list string) :=
  emit (ChatRequest "gpt-4") ;;
  match r with
  | RequestRaises e => raise e
  | Stream items =>
      a <- consume on items acc0 ;;
      let query := strip (current_query a) in
      qs <- (if truthy query
             then send_status_update bc on "query_generated" query ;;
                  ret (queries a ++ [query])
             else ret (queries a)) ;;
      match qs with
      | [] => raise (Error ("No queries generated for " +:+ company))
      | _ => ret (firstn 4 qs)
      end
  end.

(** One turn of [for attempt in range(max_retries)]: the outer [try]
    around the inner one.  [Some] is a [return], [None] the [continue]
    of the inner handler. *)
Definition iteration (cx : Ctx) (responses : nat -> Response) (i : nat)
    : M unit (option (list string)) :=
  let fallback :=
    _fallback_queries (analyst_type cx) (company cx) (current_year cx) in
  try_except
    (try_except
       (qs <- attempt (notifying cx) (company cx) (responses i) ;;
        ret (Some qs))
       (fun e =>
          if i <? max_retries - 1 then
            emit (Sleep (retry_delay * 2 ^ i)) ;; ret None
          else
            send_status_update bc (notifying cx)
              "warning" "query_generation_fallback" ;;
            ret (Some fallback)))
    (fun e =>
       send_status_update bc (notifying cx)
         "error" "Failed to generate research queries" ;;
       ret (Some fallback)).

Fixpoint attempts (cx : Ctx) (responses : nat -> Response)
    (remaining i : nat) : M unit (option (list string)) :=
  match remaining with
  | O => ret None
  | S k =>
      r <- iteration cx responses i ;;
      match r with
      | Some qs => ret (Some qs)
      | None => attempts cx responses k (S i)
      end
  end.

Definition generate_queries (cx : Ctx) (responses : nat -> Response)
    : M unit (option (list string)) :=
  attempts cx responses max_retries 0.

(** ** [search_single_query] and [search_documents] *)

(** [clean_title] of [utils/references.py]. *)
Variable clean_title : string -> string.

Definition search_single_query (analyst_type : string) (on : bool)
    (search : string -> result (list Hit)) (query : string)
    : M unit (PyDict.dict Doc) :=
  if is_empty query || (List.length (words query) <? 3) then ret []
  else
    try_except
      (send_status_update bc on "query_searching" query ;;
       emit (SearchRequest query (topic analyst_type)) ;;
       hits <- lift (search query) ;;
       let docs := add_hits clean_title query hits [] in
       send_status_update bc on "query_searched" query ;;
       ret docs)
      (fun e =>
         send_status_update bc on "query_error" query ;;
         ret []).

Definition search_documents (analyst_type : string) (on : bool)
    (search : nat -> string -> result (list Hit)) (queries : list string)
    : M unit (PyDict.dict Doc) :=
  match queries with
  | [] => ret []
  | _ =>
      send_status_update bc on "queries_generated" analyst_type ;;
      send_status_update bc on "search_started" analyst_type ;;
      emit_all (map (fun q => SearchRequest q (topic analyst_type)) queries) ;;
      gathered <- try_except
                    (results <- lift (gather (requests search 0 queries)) ;;
                     ret (Some results))
                    (fun e => ret None) ;;
      match gathered with
      | None => ret []
      | Some results =>
          let merged_docs := merge clean_title queries results [] in
          send_status_update bc on "search_complete" analyst_type ;;
          ret merged_docs
      end
  end.

End Researcher.

(** ** The editor *)

Section Editing.
Import Chat Pipeline Editor.
Variable bc : Broadcaster.

(** [format_references_section] of [utils/references.py]. *)
Variable format_references_section : Value -> Value -> Value -> result string.

(** The update is sent when the state holds a manager and a job id. *)
Definition update (status detail : string) : M ResearchState unit :=
  st <- get ;;
  send_status_update bc (notifying st) status detail.

(** [async for chunk in response: ...] of [content_sweep]. *)
Fixpoint sweep_stream (items : list StreamItem)
    (accumulated_text buffer : string) : M ResearchState string :=
  match items with
  | [] => ret accumulated_text
  | StreamRaises e :: _ => raise e
  | Yield c :: rest =>
      if is_stop c then
        (if truthy buffer then update "report_chunk" buffer else ret tt) ;;
        ret accumulated_text
      else
        match delta_content c with
        | Some (String ch tl) =>
            let accumulated_text := accumulated_text +:+ String ch tl in
            let buffer := buffer +:+ String ch tl in
            if has_boundary buffer && (10 <? String.length buffer) then
              update "report_chunk" buffer ;;
              sweep_stream rest accumulated_text EmptyString
            else sweep_stream rest accumulated_text buffer
        | _ => sweep_stream rest accumulated_text buffer
        end
  end.

(** [content_sweep(state, content, company)] *)
Definition content_sweep (sweep : string -> Response) (content : string)
    : M ResearchState string :=
  try_except
    (emit (ChatRequest "gpt-4.1-mini") ;;
     match sweep content with
     | RequestRaises e => raise e
     | Stream items =>
         accumulated_text <- sweep_stream items EmptyString EmptyString ;;
         ret (strip accumulated_text)
     end)
    (fun e => ret (strip content)).

(** [compile_content(state, briefings, company)] sends no update. *)
Definition compile_content (compile : string -> result string)
    (briefings : PyDict.dict Value) : M ResearchState string :=
  st <- get ;;
  emit_all (snd (Editor.compile_content format_references_section
                   compile st briefings)) ;;
  lift (fst (Editor.compile_content format_references_section
               compile st briefings)).

(** The three assignments of [edit_report]. *)
Definition store_report (final_report : string) (st : ResearchState)
    : ResearchState :=
  let st := set_field "report" (VStr final_report) st in
  let st := set_field "status" (VStr "editor_complete") st in
  match editor st with
  | EditorDict d =>
      set_editor (EditorDict (PyDict.set "report" final_report d)) st
  | _ => set_editor (EditorDict [("report", final_report)]) st
  end.

(** [edit_report(state, briefings, context)] *)
Definition edit_report (compile : string -> result string)
    (sweep : string -> Response) (briefings : PyDict.dict Value)
    : M ResearchState string :=
  try_except
    (update "processing" "compilation" ;;
     edited_report <- compile_content compile briefings ;;
     if negb (truthy edited_report) then ret EmptyString
     else
       update "processing" "cleanup" ;;
       update "processing" "format" ;;
       final_report <- content_sweep sweep edited_report ;;
       if negb (truthy (strip final_report)) then ret EmptyString
       else
         modify (store_report final_report) ;;
         update "editor_complete" "report" ;;
         ret final_report)
    (fun e => ret EmptyString).

(** [compile_briefings(state)]; the state it returns is the store. *)
Definition compile_briefings (compile : string -> result string)
    (sweep : string -> Response) : M ResearchState unit :=
  st <- get ;;
  let company :=
    match company st with Some c => c | None => "Unknown Company" end in
  update "processing" "initialization" ;;
  update "processing" "collecting_briefings" ;;
  let found :=
    collect briefing_keys st []
            ["📑 Compiling final report for " +:+ company +:+ "..."] in
  match fst found with
  | [] =>
      modify (append_message (join nl (snd found ++ [no_briefings_line])))
  | _ =>
      try_except
        (edit_report compile sweep (fst found) ;; ret tt)
        (fun e => ret tt) ;;
      modify (append_message (join nl (snd found)))
  end.

End Editing.

End Run.

(** Broadcasters and states for the examples. *)
Module Cases.

(** Every update is delivered. *)
Definition silent : Run.Broadcaster := fun _ _ _ => None.

(** The connection is gone: every update raises. *)
Definition closed : Run.Broadcaster :=
  fun _ _ _ => Some (Error "connection closed").

(** The updates of one status raise, the others are delivered. *)
Definition fails_on (status : string) : Run.Broadcaster :=
  fun _ s _ =>
    if String.eqb s status then Some (Error "connection closed") else None.

(** A state with a manager and a job id. *)
Definition watched (fs : PyDict.dict Pipeline.Value)
    : Pipeline.ResearchState :=
  {| Pipeline.company := Some "Acme";
     Pipeline.industry := None;
     Pipeline.hq_location := None;
     Pipeline.websocket_manager := true;
     Pipeline.job_id := Some "job-1";
     Pipeline.messages := None;
     Pipeline.editor := Pipeline.EditorAbsent;
     Pipeline.fields := fs |}.

End Cases.

(** * Properties *)

(** ** Strings *)

Section PyStrFacts.
Import PyStr.

Lemma append_assoc (a b c : string) : (a +:+ b) +:+ c = a +:+ (b +:+ c).
Proof. induction a as [|x a IH]; simpl; [reflexivity | now rewrite IH]. Qed.

Lemma append_empty_r (a : string) : a +:+ EmptyString = a.
Proof. induction a as [|x a IH]; simpl; [reflexivity | now rewrite IH]. Qed.

Lemma split_not_nil sep s : split sep s <> [].
Proof.
  destruct s as [|c s]; simpl; [discriminate|].
  destruct (Ascii.eqb c sep); [discriminate|].
  destruct (split sep s); discriminate.
Qed.

Lemma split_no_sep sep s : contains sep s = false -> split sep s = [s].
Proof.
  induction s as [|c s IH]; simpl; [reflexivity|].
  destruct (Ascii.eqb c sep); [discriminate|].
  intros H. now rewrite (IH H).
Qed.

Lemma last_split_no_sep sep s :
  contains sep (last (split sep s) EmptyString) = false.
Proof.
  induction s as [|c s IH]; simpl; [reflexivity|].
  destruct (Ascii.eqb c sep) eqn:E.
  - destruct (split sep s) eqn:S; [now apply split_not_nil in S | exact IH].
  - destruct (split sep s) as [|p [|q ps]] eqn:S.
    + now apply split_not_nil in S.
    + simpl in *. now rewrite E.
    + exact IH.
Qed.

(** Splitting a text that continues: the parts before the last separator
    of the first piece are final, the last part goes on. *)
Lemma split_app sep x r :
  split sep (x +:+ r)
  = removelast (split sep x) ++ split sep (last (split sep x) EmptyString +:+ r).
Proof.
  induction x as [|c x IH]; [reflexivity|].
  cbn [String.append split].
  destruct (Ascii.eqb c sep) eqn:E.
  - rewrite IH.
    destruct (split sep x) as [|p ps] eqn:S; [now apply split_not_nil in S|].
    reflexivity.
  - rewrite IH.
    destruct (split sep x) as [|p [|q ps]] eqn:S.
    + now apply split_not_nil in S.
    + cbn [removelast last app String.append split]. now rewrite E.
    + reflexivity.
Qed.

End PyStrFacts.

(** ** Query generation *)

Section QueryGeneratorFacts.
Import PyStr Chat QueryGenerator Samples.

Lemma finalize_parts_queries on parts qs n :
  fst (fst (finalize_parts on parts qs n))
  = qs ++ filter truthy (map strip parts).
Proof.
  revert qs n. induction parts as [|p parts IH]; intros qs n; simpl.
  - now rewrite app_nil_r.
  - destruct (truthy (strip p)) eqn:T.
    + specialize (IH (qs ++ [strip p]) (S n)).
      destruct (finalize_parts on parts (qs ++ [strip p]) (S n)) as [[qs' n'] tr].
      simpl in *. rewrite IH. now rewrite <- app_assoc.
    + apply IH.
Qed.

Lemma query_lines_app x r :
  query_lines (x +:+ r)
  = filter truthy (map strip (removelast (split newline x)))
    ++ query_lines (last (split newline x) EmptyString +:+ r).
Proof.
  unfold query_lines. now rewrite split_app, map_app, filter_app.
Qed.

Lemma query_lines_no_newline s :
  contains newline s = false ->
  query_lines s = if truthy (strip s) then [strip s] else [].
Proof. intros H. unfold query_lines. now rewrite (split_no_sep _ _ H). Qed.

(** The loop keeps the buffer free of newlines. *)
Lemma consume_buffer on items : forall a a',
  contains newline (current_query a) = false ->
  fst (consume on items a) = Ok a' ->
  contains newline (current_query a') = false.
Proof.
  induction items as [|[c|e] items IH]; intros a a' Ha H; simpl in H.
  - now inversion H; subst.
  - destruct (is_stop c); [now inversion H; subst|].
    destruct (delta_content c) as [[|ch tl]|]; try (now apply (IH a a')).
    destruct (contains newline (current_query a +:+ String ch tl)) eqn:N.
    + destruct (finalize_parts _ _ _ _) as [[qs n] tr2].
      destruct (consume on items _) as [r tr3] eqn:C. simpl in H. subst r.
      eapply IH; [|rewrite C; reflexivity]. simpl. apply last_split_no_sep.
    + destruct (consume on items _) as [r tr3] eqn:C. simpl in H. subst r.
      eapply IH; [|rewrite C; reflexivity]. exact N.
  - discriminate.
Qed.

(** The loop invariant: what is finalized so far, followed by the lines
    of the buffer continued by the rest of the stream, stays the same. *)
Lemma consume_lines on items : forall a,
  match fst (consume on items a), streamed_text items with
  | Ok a', Ok t =>
      queries a' ++ query_lines (current_query a')
      = queries a ++ query_lines (current_query a +:+ t)
  | Raise e, Raise e' => e = e'
  | _, _ => False
  end.
Proof.
  induction items as [|[c|e] items IH]; intros a; simpl.
  - now rewrite append_empty_r.
  - destruct (is_stop c); simpl; [now rewrite append_empty_r|].
    destruct (delta_content c) as [[|ch tl]|] eqn:Ec.
    + specialize (IH a). destruct (fst (consume on items a)), (streamed_text items);
        simpl; auto.
    + destruct (contains newline (current_query a +:+ String ch tl)) eqn:N.
      * pose proof (finalize_parts_queries on
          (removelast (split newline (current_query a +:+ String ch tl)))
          (queries a) (current_query_number a)) as F.
        destruct (finalize_parts _ _ _ _) as [[qs n] tr2]. simpl in F.
        match goal with |- context [consume on items ?b] =>
          specialize (IH b); destruct (consume on items b) as [r tr3] end.
        simpl in *. destruct r, (streamed_text items); auto.
        rewrite IH. simpl. rewrite F, <- app_assoc, <- query_lines_app.
        now rewrite append_assoc.
      * match goal with |- context [consume on items ?b] =>
          specialize (IH b); destruct (consume on items b) as [r tr3] end.
        simpl in *. destruct r, (streamed_text items); auto.
        rewrite IH. simpl. now rewrite append_assoc.
    + specialize (IH a). destruct (fst (consume on items a)), (streamed_text items);
        simpl; auto.
  - reflexivity.
Qed.

(** The queries of a whole stream are the stripped non-blank lines of
    the text it delivers. *)
Lemma finalized_lines on items :
  fst (finalized on items)
  = match streamed_text items with
    | Ok t => Ok (query_lines t)
    | Raise e => Raise e
    end.
Proof.
  unfold finalized.
  pose proof (consume_lines on items acc0) as L.
  pose proof (consume_buffer on items acc0) as B.
  destruct (consume on items acc0) as [[a|e] tr]; simpl in *.
  - destruct (streamed_text items) as [t|e']; [|contradiction].
    specialize (B a eq_refl eq_refl).
    rewrite (query_lines_no_newline _ B) in L.
    destruct (truthy (strip (current_query a))); simpl; f_equal.
    + exact L.
    + now rewrite app_nil_r in L.
  - destruct (streamed_text items) as [t|e']; [contradiction|]. now subst.
Qed.

Lemma streamed_text_tokens tokens :
  streamed_text (map token tokens) = Ok (join EmptyString tokens).
Proof.
  induction tokens as [|t tokens IH]; [reflexivity|].
  cbn [map streamed_text token is_stop finish_reason delta_content]. rewrite IH.
  destruct tokens; simpl; [now rewrite append_empty_r | reflexivity].
Qed.

Lemma attempt_ok_length on company r qs :
  fst (attempt on company r) = Ok qs -> 1 <= List.length qs <= 4.
Proof.
  unfold attempt. destruct r as [e|items]; [discriminate|].
  destruct (finalized on items) as [[[|q l]|e] tr]; simpl; try discriminate.
  intros H. inversion H; subst. destruct l as [|? [|? [|? ?]]]; simpl; lia.
Qed.

Lemma fallback_length analyst company year :
  List.length (_fallback_queries analyst company year) = 4.
Proof.
  unfold _fallback_queries.
  repeat match goal with |- context [if ?b then _ else _] => destruct b end;
    reflexivity.
Qed.

Lemma attempts_returns cx responses : forall remaining i,
  remaining + i = max_retries -> 0 < remaining ->
  exists qs, fst (attempts cx responses remaining i) = Some qs
             /\ 1 <= List.length qs <= 4.
Proof.
  induction remaining as [|k IH]; intros i Hsum Hpos; [lia|].
  simpl. destruct (attempt _ _ _) as [[qs|e] tr] eqn:A.
  - exists qs. split; [reflexivity|].
    apply (attempt_ok_length (notifying cx) (company cx) (responses i)).
    now rewrite A.
  - change (max_retries - 1) with 2. destruct (i <? 2) eqn:L.
    + apply Nat.ltb_lt in L. unfold max_retries in *.
      destruct (IH (S i)) as [qs [E B]]; [lia | lia |].
      destruct (attempts cx responses k (S i)) as [r tr']. simpl in *.
      exists qs. split; [exact E | exact B].
    + eexists. split; [reflexivity|]. rewrite fallback_length. lia.
Qed.

Lemma attempts_all_fail cx responses : forall remaining i,
  remaining + i = max_retries -> 0 < remaining ->
  (forall j, j < max_retries -> fails cx (responses j)) ->
  fst (attempts cx responses remaining i)
  = Some (_fallback_queries (analyst_type cx) (company cx) (current_year cx)).
Proof.
  induction remaining as [|k IH]; intros i Hsum Hpos Hfail; [lia|].
  simpl. destruct (Hfail i) as [e He]; [lia|].
  destruct (attempt _ _ _) as [[qs|e'] tr]; [discriminate|].
  change (max_retries - 1) with 2. destruct (i <? 2) eqn:L.
  - apply Nat.ltb_lt in L. unfold max_retries in *.
    specialize (IH (S i)).
    destruct (attempts cx responses k (S i)) as [r tr']. simpl in *.
    apply IH; [lia | lia | assumption].
  - reflexivity.
Qed.

(** With updates that are delivered: when each of the three attempts of
    [generate_queries] fails (its request or its stream raises, a
    timeout included, or it ends with no query), the call returns the
    fallback list, which is a function of the analyst type, the company
    name and the current year alone; and every call returns a list, of
    at most 4 entries. *)
Theorem generate_queries_falls_back_and_is_bounded :
  forall (cx : Ctx) (responses : nat -> Response),
    ((forall i, i < max_retries -> fails cx (responses i)) ->
     fst (generate_queries cx responses)
     = Some (_fallback_queries (analyst_type cx) (company cx)
                               (current_year cx)))
    /\ (exists qs, fst (generate_queries cx responses) = Some qs
                   /\ List.length qs <= 4).
Proof.
  intros cx responses. split.
  - intros Hfail.
    apply attempts_all_fail; [reflexivity | unfold max_retries; lia | exact Hfail].
  - destruct (attempts_returns cx responses max_retries 0) as [qs [E B]];
      [reflexivity | unfold max_retries; lia |].
    exists qs. split; [exact E | lia].
Qed.

Lemma generate_queries_falls_back_witness :
  fst (generate_queries news_ctx (fun _ => RequestRaises TimeoutError))
  = Some [ "Acme latest news 2026"; "Acme recent developments";
           "Acme press releases 2026"; "Acme recent announcements" ].
Proof.
  apply (proj1 (generate_queries_falls_back_and_is_bounded
                  news_ctx (fun _ => RequestRaises TimeoutError))).
  intros i _. exists TimeoutError. reflexivity.
Defined.




End QueryGeneratorFacts.

(** ** Dictionaries *)

Section PyDictFacts.
Import PyDict.
Context {V : Type}.

Lemma get_set_eq (k : string) (v : V) (d : dict V) :
  get k (set k v d) = Some v.
Proof.
  induction d as [|[k' v'] d IH]; simpl.
  - now rewrite String.eqb_refl.
  - destruct (String.eqb k' k) eqn:E; simpl.
    + now rewrite String.eqb_refl.
    + now rewrite E.
Qed.

Lemma get_set_ne (k k' : string) (v : V) (d : dict V) :
  k <> k' -> get k' (set k v d) = get k' d.
Proof.
  intros Hne. induction d as [|[k0 v0] d IH]; simpl.
  - destruct (String.eqb k k') eqn:E; [|reflexivity].
    apply String.eqb_eq in E. contradiction.
  - destruct (String.eqb k0 k) eqn:E; simpl.
    + apply String.eqb_eq in E. subst k0.
      destruct (String.eqb k k') eqn:E'; [|reflexivity].
      apply String.eqb_eq in E'. contradiction.
    + now rewrite IH.
Qed.

Lemma in_set (k k' : string) (v v' : V) (d : dict V) :
  In (k', v') (set k v d) -> (k' = k /\ v' = v) \/ In (k', v') d.
Proof.
  induction d as [|[k0 v0] d IH]; simpl.
  - intros [H|[]]. inversion H. now left.
  - destruct (String.eqb k0 k) eqn:E; simpl.
    + intros [H|H]; [inversion H; now left | right; now right].
    + intros [H|H]; [right; now left|].
      destruct (IH H) as [?|?]; [now left | right; now right].
Qed.

Lemma keys_set (k : string) (v : V) (d : dict V) :
  forall k', In k' (keys (set k v d)) <-> k' = k \/ In k' (keys d).
Proof.
  intros k'. induction d as [|[k0 v0] d IH]; simpl.
  - intuition.
  - destruct (String.eqb k0 k) eqn:E; simpl.
    + apply String.eqb_eq in E. subst k0. intuition.
    + intuition.
Qed.

Lemma set_keeps_keys_distinct (k : string) (v : V) (d : dict V) :
  NoDup (keys d) -> NoDup (keys (set k v d)).
Proof.
  induction d as [|[k0 v0] d IH]; simpl; intros H.
  - constructor; [intros [] | constructor].
  - inversion H as [|? ? Hnin Hnd]; subst.
    destruct (String.eqb k0 k) eqn:E; simpl.
    + apply String.eqb_eq in E. subst k0. now constructor.
    + constructor; [|now apply IH].
      intros Hin. apply keys_set in Hin. destruct Hin as [->|Hin].
      * now rewrite String.eqb_refl in E.
      * contradiction.
Qed.

End PyDictFacts.

(** ** Search fan-out *)

Section SearchFanoutFacts.
Import PyStr PyDict SearchFanout Samples.
Variable clean_title : string -> string.

Abbreviation add_hit := (SearchFanout.add_hit clean_title).
Abbreviation add_hits := (SearchFanout.add_hits clean_title).
Abbreviation merge := (SearchFanout.merge clean_title).
Abbreviation make_doc := (SearchFanout.make_doc clean_title).
Abbreviation made_from_hits := (SearchFanout.made_from_hits clean_title).

Lemma add_hit_invariant q h docs :
  NoDup (keys docs) /\ made_from_hits docs ->
  NoDup (keys (add_hit q docs h)) /\ made_from_hits (add_hit q docs h).
Proof.
  intros [Hnd Hm]. unfold SearchFanout.add_hit.
  destruct (usable h) eqn:U; [|now split].
  split; [now apply set_keeps_keys_distinct|].
  intros u d Hin. apply in_set in Hin. destruct Hin as [[-> ->]|Hin].
  - exists h. now repeat split.
  - now apply Hm.
Qed.

Lemma add_hits_invariant q hits : forall docs,
  NoDup (keys docs) /\ made_from_hits docs ->
  NoDup (keys (add_hits q hits docs)) /\ made_from_hits (add_hits q hits docs).
Proof.
  induction hits as [|h hits IH]; intros docs H; [exact H|].
  apply IH. now apply add_hit_invariant.
Qed.

Lemma merge_invariant queries : forall results docs,
  NoDup (keys docs) /\ made_from_hits docs ->
  NoDup (keys (merge queries results docs))
  /\ made_from_hits (merge queries results docs).
Proof.
  induction queries as [|q queries IH]; intros [|hits results] docs H;
    try exact H.
  apply IH. now apply add_hits_invariant.
Qed.

(** Hits for other URLs leave an entry alone. *)
Lemma add_hits_other q u hits : forall docs,
  (forall h, In h hits -> usable h = true -> hit_key h <> u) ->
  get u (add_hits q hits docs) = get u docs.
Proof.
  induction hits as [|h hits IH]; intros docs Hother; [reflexivity|].
  simpl. rewrite IH.
  - unfold SearchFanout.add_hit. destruct (usable h) eqn:U; [|reflexivity].
    apply get_set_ne. apply Hother; [now left | exact U].
  - intros h' Hin. apply Hother. now right.
Qed.

(** After the hits of query [q], a URL that one of its usable hits
    carries holds a document of query [q]. *)
Lemma add_hits_own q u hits : forall docs h,
  In h hits -> usable h = true -> hit_key h = u ->
  exists h', In h' hits /\ usable h' = true /\ hit_key h' = u
             /\ get u (add_hits q hits docs) = Some (make_doc q h').
Proof.
  induction hits as [|h0 hits IH]; intros docs h Hin U K; [destruct Hin|].
  simpl.
  destruct (existsb (fun h' => usable h' && String.eqb (hit_key h') u) hits)
    eqn:Later.
  - apply existsb_exists in Later. destruct Later as [h1 [Hin1 T]].
    apply andb_true_iff in T. destruct T as [U1 K1].
    apply String.eqb_eq in K1.
    destruct (IH (add_hit q docs h0) h1 Hin1 U1 K1) as [h' [? [? [? ?]]]].
    exists h'. split; [now right|]. now repeat split.
  - assert (Hother : forall h', In h' hits -> usable h' = true -> hit_key h' <> u).
    { intros h' Hin' U' K'.
      assert (existsb (fun h' => usable h' && String.eqb (hit_key h') u) hits
              = true) as C; [|congruence].
      apply existsb_exists. exists h'. split; [exact Hin'|].
      now rewrite U', K', String.eqb_refl. }
    destruct Hin as [->|Hin]; [|now destruct (Hother h Hin U)].
    exists h. split; [now left|]. split; [exact U|]. split; [exact K|].
    rewrite add_hits_other by exact Hother.
    unfold SearchFanout.add_hit. rewrite U, K. apply get_set_eq.
Qed.

Lemma merge_other u queries : forall results docs,
  (forall j hits h, nth_error results j = Some hits -> In h hits ->
                    usable h = true -> hit_key h <> u) ->
  get u (merge queries results docs) = get u docs.
Proof.
  induction queries as [|q queries IH]; intros [|hits results] docs Hother;
    try reflexivity.
  simpl. rewrite IH.
  - apply add_hits_other. intros h. apply (Hother 0 hits h). reflexivity.
  - intros j hits' h. apply (Hother (S j)).
Qed.

(** The last query with a usable hit for a URL owns the entry. *)
Lemma merge_later_wins queries : forall results docs i q hits h,
  nth_error queries i = Some q ->
  nth_error results i = Some hits ->
  In h hits -> usable h = true ->
  (forall j hits' h', i < j -> nth_error results j = Some hits' ->
     In h' hits' -> usable h' = true -> hit_key h' <> hit_key h) ->
  exists h', In h' hits /\ usable h' = true /\ hit_key h' = hit_key h
    /\ get (hit_key h) (merge queries results docs) = Some (make_doc q h').
Proof.
  induction queries as [|q0 queries IH];
    intros [|hits0 results] docs [|i] q hits h Hq Hr Hin U Hlater;
    try discriminate.
  - simpl in *. inversion Hq; inversion Hr; subst.
    destruct (add_hits_own q (hit_key h) hits docs h Hin U eq_refl)
      as [h' [Hin' [U' [K' G]]]].
    exists h'. repeat split; auto.
    rewrite merge_other; [exact G|].
    intros j hits' h1 Hj. apply (Hlater (S j) hits' h1); [lia | exact Hj].
  - simpl in *. apply (IH results _ i q hits h Hq Hr Hin U).
    intros j hits' h' Hlt. apply (Hlater (S j)). lia.
Qed.

Lemma stored_title_blank (t u : string) :
  truthy t = true ->
  lower (clean_title t) = lower u \/ strip (clean_title t) = EmptyString ->
  stored_title clean_title t u = EmptyString.
Proof.
  intros T H. unfold stored_title. rewrite T.
  destruct H as [H|H].
  - rewrite H, String.eqb_refl. reflexivity.
  - rewrite H. simpl. now rewrite orb_true_r.
Qed.

Lemma usable_fields h :
  usable h = true ->
  truthy (get_or_empty (hit_content h)) = true /\ truthy (hit_key h) = true.
Proof.
  unfold usable, hit_key, present. intros H. apply andb_true_iff in H.
  destruct (hit_content h), (hit_url h); simpl in *; intuition discriminate.
Qed.

Lemma gather_raises {A : Type} (outcomes : list (result A)) (e : exn) :
  In (Raise e) outcomes -> exists e', gather outcomes = Raise e'.
Proof.
  induction outcomes as [|[a|e0] outcomes IH]; intros Hin.
  - destruct Hin.
  - destruct Hin as [H|H]; [discriminate|].
    destruct (IH H) as [e' E]. exists e'. simpl. now rewrite E.
  - now exists e0.
Qed.

Lemma requests_nth search queries : forall k i q,
  nth_error queries i = Some q ->
  In (search (k + i) q) (requests search k queries).
Proof.
  induction queries as [|q0 queries IH]; intros k [|i] q H; try discriminate.
  - inversion H; subst. rewrite Nat.add_0_r. now left.
  - right. replace (k + S i) with (S k + i) by lia. now apply IH.
Qed.

(** The entry of a URL after the hits of one query, and after the whole
    batch: the document of the last usable hit for it. *)
Lemma add_hits_last q u hits : forall docs best,
  get u docs = option_map (fun qh => make_doc (fst qh) (snd qh)) best ->
  get u (add_hits q hits docs)
  = option_map (fun qh => make_doc (fst qh) (snd qh))
      (fold_left (MergeRule.later u) (map (pair q) hits) best).
Proof.
  induction hits as [|h hits IH]; intros docs best H; [exact H|].
  cbn [SearchFanout.add_hits fold_left map]. apply IH.
  unfold SearchFanout.add_hit, MergeRule.later. cbn [fst snd].
  destruct (usable h); [|exact H]. cbn [andb].
  destruct (String.eqb (hit_key h) u) eqn:E.
  - apply String.eqb_eq in E. subst u. apply get_set_eq.
  - rewrite get_set_ne; [exact H|]. intros K. rewrite K, String.eqb_refl in E.
    discriminate.
Qed.

Lemma merge_last u queries : forall results docs best,
  get u docs = option_map (fun qh => make_doc (fst qh) (snd qh)) best ->
  get u (merge queries results docs)
  = option_map (fun qh => make_doc (fst qh) (snd qh))
      (fold_left (MergeRule.later u) (MergeRule.tagged queries results) best).
Proof.
  induction queries as [|q queries IH]; intros [|hits results] docs best H;
    try exact H.
  cbn [SearchFanout.merge MergeRule.tagged]. rewrite fold_left_app.
  apply IH. now apply add_hits_last.
Qed.

Lemma later_key u l : forall best q h,
  (forall q' h', best = Some (q', h') -> hit_key h' = u) ->
  fold_left (MergeRule.later u) l best = Some (q, h) ->
  hit_key h = u.
Proof.
  induction l as [|[q1 h1] l IH]; intros best q h Hb F; simpl in F.
  - now apply (Hb q h).
  - apply (IH _ q h) in F; [exact F|]. intros q' h' E.
    unfold MergeRule.later in E. cbn [snd] in E.
    destruct (usable h1 && String.eqb (hit_key h1) u) eqn:T.
    + inversion E; subst. apply andb_true_iff in T.
      now apply String.eqb_eq.
    + now apply (Hb q' h').
Qed.

(** C3.  The map returned by [search_documents] (1) holds no document
    with an empty content or URL, each under its own URL; (2) holds at
    most one entry per URL, and the entry of a URL is the document made
    from the last usable hit that the provider returned for it, in the
    order of the queries: a URL for which several queries returned
    usable hits holds the document of the last of these queries, made
    from that query's hit, and a URL without a usable hit has no entry;
    (3) holds an empty title wherever the cleaned title of that hit
    equals the URL up to case or is blank. *)
Theorem search_documents_merged_map :
  forall (analyst : string) (on : bool)
         (search : nat -> string -> result (list Hit)) (queries : list string),
    let docs := fst (search_documents clean_title analyst on search queries) in
    (forall u d, In (u, d) docs ->
       content d <> EmptyString /\ url d <> EmptyString /\ url d = u)
    /\ NoDup (keys docs)
    /\ (forall results i q hits h,
          gather (requests search 0 queries) = Ok results ->
          nth_error queries i = Some q ->
          nth_error results i = Some hits ->
          In h hits -> usable h = true ->
          (forall j hits' h', i < j -> nth_error results j = Some hits' ->
             In h' hits' -> usable h' = true -> hit_key h' <> hit_key h) ->
          exists h',
            In h' hits /\ usable h' = true /\ hit_key h' = hit_key h
            /\ get (hit_key h) docs = Some (make_doc q h'))
    /\ (forall results u,
          gather (requests search 0 queries) = Ok results ->
          get u docs
          = option_map (fun qh => make_doc (fst qh) (snd qh))
              (MergeRule.last_hit u (MergeRule.tagged queries results)))
    /\ (forall results u q h,
          gather (requests search 0 queries) = Ok results ->
          MergeRule.last_hit u (MergeRule.tagged queries results) = Some (q, h) ->
          present (hit_title h) = true ->
          lower (clean_title (get_or_empty (hit_title h))) = lower u
          \/ strip (clean_title (get_or_empty (hit_title h))) = EmptyString ->
          exists d, get u docs = Some d
                    /\ content d = get_or_empty (hit_content h)
                    /\ query d = q
                    /\ title d = EmptyString)
    /\ (forall u d, In (u, d) docs ->
          exists h, usable h = true /\ hit_key h = u
            /\ d = make_doc (query d) h
            /\ (present (hit_title h) = true ->
                lower (clean_title (get_or_empty (hit_title h))) = lower u
                \/ strip (clean_title (get_or_empty (hit_title h)))
                   = EmptyString ->
                title d = EmptyString)).
Proof.
  intros analyst on search queries docs.
  assert (Inv : NoDup (keys docs) /\ made_from_hits docs).
  { subst docs. unfold search_documents.
    assert (E : NoDup (keys (@nil (string * Doc)))
                /\ made_from_hits (@nil (string * Doc))).
    { split; [constructor | intros ? ? []]. }
    destruct queries as [|q0 queries]; [exact E|].
    destruct (gather _) as [results|e]; [|exact E].
    now apply merge_invariant. }
  assert (Last : forall results u,
            gather (requests search 0 queries) = Ok results ->
            get u docs
            = option_map (fun qh => make_doc (fst qh) (snd qh))
                (MergeRule.last_hit u (MergeRule.tagged queries results))).
  { intros results u G. subst docs. unfold search_documents.
    destruct queries as [|q0 queries]; [reflexivity|].
    rewrite G. cbn [fst]. now apply merge_last. }
  destruct Inv as [Hnd Hm].
  split; [|split; [exact Hnd|split; [|split; [exact Last|split]]]].
  - intros u d Hin. destruct (Hm u d Hin) as [h [U [K ->]]].
    destruct (usable_fields h U) as [Tc Tu]. simpl. rewrite K in *.
    repeat split; try reflexivity.
    + intros E. rewrite E in Tc. discriminate.
    + intros E. rewrite E in Tu. discriminate.
  - intros results i q hits h G Hq Hr Hin U Hlater. subst docs.
    unfold search_documents.
    destruct queries as [|q0 queries]; [now destruct i|].
    rewrite G. simpl fst.
    apply (merge_later_wins (q0 :: queries) results [] i q hits h
             Hq Hr Hin U Hlater).
  - intros results u q h G L P H. rewrite (Last results u G), L.
    cbn [option_map fst snd]. eexists. split; [reflexivity|].
    assert (K : hit_key h = u).
    { apply (later_key u (MergeRule.tagged queries results) None q h);
        [discriminate | exact L]. }
    cbn [SearchFanout.make_doc content query title]. repeat split.
    rewrite K. apply stored_title_blank; auto.
    unfold present in P. destruct (hit_title h); [exact P | discriminate].
  - intros u d Hin. destruct (Hm u d Hin) as [h [U [K D]]].
    exists h. repeat split; auto.
    intros P H. rewrite D. simpl. rewrite K. apply stored_title_blank; auto.
    unfold present in P. destruct (hit_title h); [exact P | discriminate].
Qed.

(** With updates that are delivered: one raising request makes
    [search_documents] return the empty mapping, whatever the other
    requests returned; [search_single_query] returns the empty mapping
    when its own request raises, and the documents of its own hits when
    its own request returns. *)
Theorem search_failure_scopes :
  forall (analyst : string) (on : bool),
    (forall (search : nat -> string -> result (list Hit))
            (queries : list string) i q e,
        nth_error queries i = Some q -> search i q = Raise e ->
        fst (search_documents clean_title analyst on search queries) = [])
    /\ (forall (search : string -> result (list Hit)) (query : string) e,
          search query = Raise e ->
          fst (search_single_query clean_title analyst on search query) = [])
    /\ (forall (search : string -> result (list Hit)) (query : string) hits,
          search query = Ok hits -> 3 <= List.length (words query) ->
          fst (search_single_query clean_title analyst on search query)
          = add_hits query hits []).
Proof.
  intros analyst on. split; [|split].
  - intros search queries i q e Hq Hraise. unfold search_documents.
    destruct queries as [|q0 queries]; [reflexivity|].
    pose proof (requests_nth search (q0 :: queries) 0 i q Hq) as Hin.
    simpl Nat.add in Hin. rewrite Hraise in Hin.
    destruct (gather_raises _ _ Hin) as [e' ->]. reflexivity.
  - intros search query e Hraise. unfold search_single_query.
    destruct (is_empty query || (_ <? _)); [reflexivity|]. now rewrite Hraise.
  - intros search query hits Hok Hlen. unfold search_single_query.
    assert (is_empty query = false) as ->.
    { destruct query; [simpl in Hlen; lia | reflexivity]. }
    assert ((List.length (words query) <? 3) = false) as ->
      by (apply Nat.ltb_ge; exact Hlen).
    simpl. now rewrite Hok.
Qed.

(** The single-query path sends nothing for a query that is empty or
    shorter than three words. *)
Lemma search_single_query_rejects_short analyst on search query :
  List.length (words query) < 3 ->
  search_single_query clean_title analyst on search query = ([], []).
Proof.
  intros H. unfold search_single_query.
  apply Nat.ltb_lt in H. rewrite H. now rewrite orb_true_r.
Qed.

(** C6 at the query "Tesla news": the single-query path returns the
    empty mapping and sends nothing, the batch path sends the two-word
    query to the provider and stores what comes back. *)
Theorem search_documents_sends_short_query :
  search_single_query clean_title "base_researcher" false
    (fun _ => Ok [tesla_hit]) "Tesla news" = ([], [])
  /\ search_documents clean_title "base_researcher" false
       (fun _ _ => Ok [tesla_hit]) ["Tesla news"]
     = ([("https://example.com/tesla", make_doc "Tesla news" tesla_hit)],
        [SearchRequest "Tesla news" None]).
Proof. split; reflexivity. Qed.

End SearchFanoutFacts.

Import Samples.

Lemma search_documents_merged_map_witness :
  PyDict.get "https://example.com/a"
    (fst (SearchFanout.search_documents (fun t => t) "news_analyst" true
            (fun _ q => Ok [same_url_hit q])
            ["acme corp news"; "acme corp revenue"]))
  = Some (SearchFanout.make_doc (fun t => t) "acme corp revenue"
            (same_url_hit "acme corp revenue")).
Proof.
  apply (proj1 (proj2 (proj2 (proj2
    (search_documents_merged_map (fun t => t) "news_analyst" true
       (fun _ q => Ok [same_url_hit q])
       ["acme corp news"; "acme corp revenue"]))))
    [[same_url_hit "acme corp news"]; [same_url_hit "acme corp revenue"]]
    "https://example.com/a" eq_refl).
Defined.

Lemma search_failure_scopes_witness :
  fst (SearchFanout.search_documents (fun t => t) "news_analyst" true
         (fun i q => if i =? 1 then Raise (Error "429")
                     else Ok [same_url_hit q])
         ["acme corp news"; "acme corp revenue"]) = []
  /\ fst (SearchFanout.search_single_query (fun t => t) "news_analyst" true
            (fun q => Ok [same_url_hit q]) "acme corp news")
     = [("https://example.com/a",
         SearchFanout.make_doc (fun t => t) "acme corp news"
           (same_url_hit "acme corp news"))].
Proof.
  split.
  - apply (proj1 (search_failure_scopes (fun t => t) "news_analyst" true)
             _ _ 1 "acme corp revenue" (Error "429")); reflexivity.
  - apply (proj2 (proj2 (search_failure_scopes (fun t => t) "news_analyst" true))
             (fun q => Ok [same_url_hit q]) "acme corp news"
             [same_url_hit "acme corp news"]); [reflexivity | simpl; lia].
Defined.

(** ** Document selection *)

Section SelectionFacts.
Import PyStr Pipeline Briefing.
Variable unordered : list (Float * CuratedDoc) -> list CuratedDoc.

Abbreviation sorted_items := (Briefing.sorted_items unordered).
Abbreviation select_documents := (Briefing.select_documents unordered).
Abbreviation generate_category_briefing :=
  (Briefing.generate_category_briefing unordered).

Local Open Scope Z_scope.

Lemma float_leb_trans a b c :
  float_leb a b = true -> float_leb b c = true -> float_leb a c = true.
Proof.
  destruct a, b, c; simpl; try congruence.
  intros H1 H2. apply Qle_bool_iff in H1, H2. apply Qle_bool_iff.
  now apply Qle_trans with x0.
Qed.

(** Two floats of which none is NaN can be compared. *)
Lemma float_leb_total a b :
  is_nan a = false -> is_nan b = false ->
  float_leb a b = false -> float_leb b a = true.
Proof.
  destruct a, b; simpl; try congruence.
  intros _ _ H. apply Qle_bool_iff. apply Qlt_le_weak, Qnot_le_lt.
  intros L. apply Qle_bool_iff in L. congruence.
Qed.

Lemma place_permutation x l : Permutation (place x l) (x :: l).
Proof.
  induction l as [|y l IH]; simpl; [reflexivity|].
  destruct (float_leb (fst y) (fst x)); [reflexivity|].
  rewrite IH. apply perm_swap.
Qed.

Lemma sort_desc_permutation l : Permutation (sort_desc l) l.
Proof.
  induction l as [|x l IH]; simpl; [reflexivity|].
  rewrite place_permutation. now constructor.
Qed.

Lemma has_nan_place x l : has_nan (place x l) = is_nan (fst x) || has_nan l.
Proof.
  induction l as [|y l IH]; [reflexivity|].
  cbn [place]. destruct (float_leb (fst y) (fst x)); [reflexivity|].
  unfold has_nan in *. cbn [existsb]. rewrite IH.
  now destruct (is_nan (fst x)), (is_nan (fst y)).
Qed.

Lemma has_nan_sort_desc l : has_nan (sort_desc l) = has_nan l.
Proof.
  induction l as [|x l IH]; [reflexivity|].
  cbn [sort_desc fold_right]. rewrite has_nan_place. fold (sort_desc l).
  now rewrite IH.
Qed.

Lemma place_sorted x l :
  is_nan (fst x) = false -> has_nan l = false ->
  Sorted key_desc l -> Sorted key_desc (place x l).
Proof.
  induction l as [|y l IH]; intros Nx Nl Hs; simpl.
  - repeat constructor.
  - unfold has_nan in Nl. cbn [existsb] in Nl.
    apply orb_false_iff in Nl. destruct Nl as [Ny Nl].
    destruct (float_leb (fst y) (fst x)) eqn:E.
    + constructor; [exact Hs|]. constructor. exact E.
    + inversion Hs as [|? ? Hs' Hhd]; subst.
      assert (Hxy : key_desc y x)
        by (unfold key_desc; now apply float_leb_total).
      constructor; [now apply IH|].
      destruct l as [|z l]; simpl.
      * now constructor.
      * destruct (float_leb (fst z) (fst x)); constructor; [exact Hxy|].
        now inversion Hhd.
Qed.

Lemma sort_desc_sorted l :
  has_nan l = false -> StronglySorted key_desc (sort_desc l).
Proof.
  intros N. apply Sorted_StronglySorted.
  - intros a b c Hab Hbc. unfold key_desc in *.
    now apply float_leb_trans with (fst b).
  - induction l as [|x l IH]; simpl; [constructor|].
    unfold has_nan in N. cbn [existsb] in N. apply orb_false_iff in N.
    destruct N as [Nx Nl].
    apply place_sorted; [exact Nx | now rewrite has_nan_sort_desc | now apply IH].
Qed.

(** The sort is stable: the items of one key keep their order. *)
Lemma place_stable k x l :
  filter (fun p => float_eqb (fst p) k) (place x l)
  = filter (fun p => float_eqb (fst p) k) (x :: l).
Proof.
  induction l as [|y l IH]; [reflexivity|].
  cbn [place]. destruct (float_leb (fst y) (fst x)) eqn:E; [reflexivity|].
  cbn [filter] in IH |- *. rewrite IH.
  destruct (float_eqb (fst y) k) eqn:Ey, (float_eqb (fst x) k) eqn:Ex;
    try reflexivity.
  unfold float_eqb in Ey, Ex. apply andb_true_iff in Ey, Ex.
  rewrite (float_leb_trans _ k _ (proj1 Ey) (proj2 Ex)) in E. discriminate E.
Qed.

Lemma sort_desc_stable k l :
  filter (fun p => float_eqb (fst p) k) (sort_desc l)
  = filter (fun p => float_eqb (fst p) k) l.
Proof.
  induction l as [|x l IH]; [reflexivity|].
  cbn [sort_desc fold_right]. rewrite place_stable.
  cbn [filter]. fold (sort_desc l). now rewrite IH.
Qed.

Lemma with_keys_numeric docs :
  (forall d, In d docs -> doc_score d <> NotNumeric) ->
  with_keys docs = Ok (map (fun d => (score_value d, d)) docs).
Proof.
  induction docs as [|d docs IH]; intros H; [reflexivity|].
  simpl. rewrite IH by (intros; apply H; now right).
  unfold score_key, score_value.
  destruct (doc_score d) as [| |[|]| |] eqn:E; try reflexivity.
  exfalso. apply (H d); [now left | exact E].
Qed.

Lemma with_keys_not_numeric docs d :
  In d docs -> doc_score d = NotNumeric ->
  exists e, with_keys docs = Raise e.
Proof.
  induction docs as [|d0 docs IH]; intros Hin E; [destruct Hin|].
  simpl. destruct Hin as [->|Hin].
  - unfold score_key. rewrite E. eauto.
  - destruct (score_key d0); [|eauto].
    destruct (IH Hin E) as [e ->]. eauto.
Qed.

(** Without a NaN score no key is NaN. *)
Lemma keys_without_nan docs :
  (forall d, In d docs -> doc_score d <> NotANumber) ->
  has_nan (map (fun d => (score_value d, d)) docs) = false.
Proof.
  induction docs as [|d docs IH]; intros H; [reflexivity|].
  unfold has_nan in *. cbn [map existsb fst]. rewrite IH
    by (intros; apply H; now right).
  assert (Hd : doc_score d <> NotANumber) by (apply H; now left).
  unfold score_value. now destruct (doc_score d) as [| |[|]| |].
Qed.

Lemma sorted_docs_of_keys (l : list (Float * CuratedDoc)) :
  (forall p, In p l -> fst p = score_value (snd p)) ->
  StronglySorted key_desc l -> StronglySorted score_desc (map snd l).
Proof.
  intros Hk Hs. induction Hs as [|p l Hs IH Hall]; simpl; constructor.
  - apply IH. intros q Hq. apply Hk. now right.
  - apply Forall_forall. intros d Hd. apply in_map_iff in Hd.
    destruct Hd as [q [<- Hq]]. rewrite Forall_forall in Hall.
    specialize (Hall q Hq). unfold key_desc in Hall. unfold score_desc.
    rewrite <- (Hk q) by now right. rewrite <- (Hk p) by now left. exact Hall.
Qed.

(** With scores that all convert, [sorted_items] returns; when none of
    them is NaN, what it returns is the documents in descending order of
    their scores. *)
Lemma sorted_items_returns curated docs :
  documents_of curated = Ok docs ->
  (forall d, In d docs -> doc_score d <> NotNumeric) ->
  exists sorted, sorted_items curated = Ok sorted.
Proof.
  intros Hd Hn. unfold Briefing.sorted_items.
  rewrite Hd, (with_keys_numeric docs Hn). eauto.
Qed.

Lemma sorted_items_spec curated docs :
  documents_of curated = Ok docs ->
  (forall d, In d docs -> doc_score d <> NotNumeric) ->
  (forall d, In d docs -> doc_score d <> NotANumber) ->
  exists sorted, sorted_items curated = Ok sorted
    /\ Permutation sorted docs /\ StronglySorted score_desc sorted.
Proof.
  intros Hd Hn Hnan. unfold Briefing.sorted_items.
  rewrite Hd, (with_keys_numeric docs Hn), (keys_without_nan docs Hnan).
  set (keyed := map (fun d => (score_value d, d)) docs).
  exists (map snd (sort_desc keyed)). split; [reflexivity|]. split.
  - rewrite (sort_desc_permutation keyed). unfold keyed.
    rewrite map_map. simpl. now rewrite map_id.
  - apply sorted_docs_of_keys;
      [|apply sort_desc_sorted; now apply keys_without_nan].
    intros p Hp.
    apply (Permutation_in _ (sort_desc_permutation keyed)) in Hp.
    unfold keyed in Hp. apply in_map_iff in Hp. now destruct Hp as [d [<- _]].
Qed.

Lemma take_length n s :
  String.length (take n s) = Nat.min n (String.length s).
Proof.
  revert s. induction n as [|n IH]; intros [|c s]; simpl; auto.
Qed.

Lemma append_length a b :
  String.length (a +:+ b) = (String.length a + String.length b)%nat.
Proof. induction a as [|c a IH]; simpl; [reflexivity | now rewrite IH]. Qed.

(** What is kept of a document's content. *)
Lemma doc_text_spec d :
  (len (full_content d) <= max_doc_length -> doc_text d = full_content d)
  /\ (max_doc_length < len (full_content d) ->
      doc_text d = take (Z.to_nat max_doc_length) (full_content d)
                   +:+ truncation_marker
      /\ len (doc_text d) = max_doc_length + len truncation_marker).
Proof.
  unfold doc_text. split; intros H.
  - apply Z.ltb_ge in H. now rewrite H.
  - pose proof H as H'. apply Z.ltb_lt in H'. rewrite H'.
    split; [reflexivity|].
    unfold len in *. rewrite append_length, take_length.
    unfold max_doc_length in *. lia.
Qed.

(** The loop adds a prefix of the documents, stays under the limit, and
    stops at the first document that would reach it. *)
Lemma add_entries_spec docs : forall total,
  total < prompt_limit ->
  exists k,
    add_entries docs total = map doc_entry (firstn k docs)
    /\ total + total_len (add_entries docs total) < prompt_limit
    /\ (forall d, nth_error docs k = Some d ->
          prompt_limit <= total + total_len (add_entries docs total)
                          + len (doc_entry d)).
Proof.
  induction docs as [|d docs IH]; intros total Ht.
  - exists 0%nat. simpl. repeat split; [lia | discriminate].
  - simpl. destruct (total + len (doc_entry d) <? prompt_limit) eqn:E.
    + apply Z.ltb_lt in E. destruct (IH _ E) as [k [Hk [Hlt Hstop]]].
      exists (S k).
      assert (T : total_len (doc_entry d :: add_entries docs (total + len (doc_entry d)))
                  = len (doc_entry d)
                    + total_len (add_entries docs (total + len (doc_entry d))))
        by reflexivity.
      split; [simpl; now rewrite Hk | split].
      * rewrite T. lia.
      * intros d' Hd'. specialize (Hstop d' Hd'). rewrite T. lia.
    + apply Z.ltb_ge in E. exists 0%nat.
      split; [reflexivity | split]; [simpl; lia|].
      intros d' Hd'. inversion Hd'; subst. simpl. lia.
Qed.

(** One score that does not convert is enough for the selection to
    raise. *)
Lemma select_documents_raises curated docs d :
  documents_of curated = Ok docs ->
  In d docs -> doc_score d = NotNumeric ->
  exists e, select_documents curated = Raise e.
Proof.
  intros Hd Hin Hs. unfold Briefing.select_documents, Briefing.sorted_items.
  rewrite Hd.
  destruct (with_keys_not_numeric docs d Hin Hs) as [e ->]. eauto.
Qed.

(** C4, amended.  For documents whose scores are absent or convert:
    the selection returns without raising; the entries of the prompt
    are those of a prefix of the order that the sort returns; their
    cumulative length stays below 120000, and the first document left
    out, with all after it, is the one whose whole entry would have
    reached 120000; a content longer than 8000 characters enters as its
    first 8000 characters followed by the marker
    "... [content truncated]", any other content unchanged.  When none
    of the scores is NaN, the order is the ranking by score, highest
    first, an absent score counting as 0. *)
Theorem select_documents_ranked_and_bounded :
  forall (curated : Value) (docs : list CuratedDoc),
    documents_of curated = Ok docs ->
    (forall d, In d docs -> doc_score d <> NotNumeric) ->
    exists (sorted : list CuratedDoc) (k : nat),
      sorted_items curated = Ok sorted
      /\ ((forall d, In d docs -> doc_score d <> NotANumber) ->
          Permutation sorted docs /\ StronglySorted score_desc sorted)
      /\ select_documents curated = Ok (map doc_entry (firstn k sorted))
      /\ total_len (map doc_entry (firstn k sorted)) < prompt_limit
      /\ (forall d, nth_error sorted k = Some d ->
            prompt_limit
            <= total_len (map doc_entry (firstn k sorted)) + len (doc_entry d))
      /\ (forall d, In d docs ->
            (len (full_content d) <= max_doc_length ->
             doc_text d = full_content d)
            /\ (max_doc_length < len (full_content d) ->
                doc_text d = take (Z.to_nat max_doc_length) (full_content d)
                             +:+ truncation_marker
                /\ len (doc_text d) = max_doc_length + len truncation_marker)).
Proof.
  intros curated docs Hd Hn.
  destruct (sorted_items_returns curated docs Hd Hn) as [sorted Hs].
  destruct (add_entries_spec sorted 0) as [k [Hk [Hlt Hstop]]];
    [unfold prompt_limit; lia|].
  exists sorted, k. unfold Briefing.select_documents. rewrite Hs, Hk in *.
  split; [reflexivity|]. split; [|split; [reflexivity|]].
  - intros Hnan.
    destruct (sorted_items_spec curated docs Hd Hn Hnan) as [sorted' [Hs' R]].
    rewrite Hs in Hs'. inversion Hs'; subst. exact R.
  - split; [lia|]. split.
    + intros x Hx. specialize (Hstop x Hx). lia.
    + intros x _. apply doc_text_spec.
Qed.

(** A score that is NaN leaves the order to the sorting algorithm. *)
Lemma nan_leaves_order_open curated docs d :
  documents_of curated = Ok docs ->
  (forall d, In d docs -> doc_score d <> NotNumeric) ->
  In d docs -> doc_score d = NotANumber ->
  sorted_items curated
  = Ok (unordered (map (fun d => (score_value d, d)) docs)).
Proof.
  intros Hd Hn Hin Hs. unfold Briefing.sorted_items.
  rewrite Hd, (with_keys_numeric docs Hn).
  assert (has_nan (map (fun d => (score_value d, d)) docs) = true) as ->;
    [|reflexivity].
  apply existsb_exists. exists (score_value d, d). split.
  - apply in_map_iff. now exists d.
  - cbn [fst]. unfold score_value. now rewrite Hs.
Qed.

End SelectionFacts.

(** C4, as the claim words it, fails: a score that [float] refuses is
    not taken as 0; the key function raises, and the exception leaves
    the selection and [generate_category_briefing].  And a content of
    8001 characters enters the prompt with 8023: its first 8000 and the
    marker. *)
Lemma non_numeric_score_raises :
  Briefing.select_documents Samples.as_given Samples.unrated_docs
  = Raise (Error "could not convert string to float")
  /\ fst (Briefing.generate_category_briefing Samples.as_given true
            (fun _ _ => Ok "briefing") Samples.unrated_docs "company")
     = Raise (Error "could not convert string to float")
  /\ Briefing.len (Briefing.full_content Samples.long_doc) = 8001%Z
  /\ Briefing.len (Briefing.doc_text Samples.long_doc) = 8023%Z.
Proof. repeat split; vm_compute; reflexivity. Qed.

Lemma select_documents_ranked_witness :
  exists (sorted : list Pipeline.CuratedDoc) (k : nat),
    Permutation sorted
      [ Samples.scored_doc "low" (Pipeline.Numeric (3 # 10));
        Samples.scored_doc "unscored" Pipeline.NoScore;
        Samples.scored_doc "high" (Pipeline.Numeric (9 # 10)) ]
    /\ StronglySorted Briefing.score_desc sorted
    /\ Briefing.select_documents Samples.as_given Samples.three_docs
       = Ok (map Briefing.doc_entry (firstn k sorted)).
Proof.
  destruct (select_documents_ranked_and_bounded Samples.as_given
              Samples.three_docs _ eq_refl)
    as [sorted [k [_ [Hr [Hsel _]]]]].
  - intros d [<-|[<-|[<-|[]]]]; discriminate.
  - destruct Hr as [Hp Hs].
    + intros d [<-|[<-|[<-|[]]]]; discriminate.
    + exists sorted, k. repeat split; assumption.
Defined.

(** The ranking of the three sample documents. *)
Example three_docs_ranking :
  Briefing.sorted_items Samples.as_given Samples.three_docs
  = Ok [ Samples.scored_doc "high" (Pipeline.Numeric (9 # 10));
         Samples.scored_doc "low" (Pipeline.Numeric (3 # 10));
         Samples.scored_doc "unscored" Pipeline.NoScore ].
Proof. reflexivity. Qed.

(** ** The state *)

Section PipelineFacts.
Import PyStr PyDict Pipeline.

Lemma get_field_set_eq k v st : get_field k (set_field k v st) = Some v.
Proof. apply get_set_eq. Qed.

Lemma get_field_set_ne k k' v st :
  k <> k' -> get_field k' (set_field k v st) = get_field k' st.
Proof. apply get_set_ne. Qed.

Lemma notifying_set_field k v st : notifying (set_field k v st) = notifying st.
Proof. reflexivity. Qed.

Lemma cat_eqb_eq a b : cat_eqb a b = true <-> a = b.
Proof. destruct a, b; simpl; split; congruence. Qed.

Lemma cat_eqb_refl a : cat_eqb a a = true.
Proof. now destruct a. Qed.

Lemma cat_eqb_neq a b : a <> b -> cat_eqb a b = false.
Proof.
  intros H. destruct (cat_eqb a b) eqn:E; [|reflexivity].
  apply cat_eqb_eq in E. contradiction.
Qed.

Lemma cat_name_inj a b : cat_name a = cat_name b -> a = b.
Proof. destruct a, b; simpl; congruence. Qed.

Lemma briefing_key_inj a b : briefing_key a = briefing_key b -> a = b.
Proof. destruct a, b; cbv; congruence. Qed.

Lemma briefing_key_not_curated a b : briefing_key a <> curated_key b.
Proof. destruct a, b; cbv; congruence. Qed.

Lemma briefing_key_not_briefings a : briefing_key a <> "briefings".
Proof. destruct a; cbv; congruence. Qed.

End PipelineFacts.

(** ** Concurrent briefings *)

Section BriefingFacts.
Import PyStr PyDict Pipeline Briefing.
Variable unordered : list (Float * CuratedDoc) -> list CuratedDoc.
Variable llm : string -> list string -> result string.

Abbreviation sorted_items := (Briefing.sorted_items unordered).
Abbreviation select_documents := (Briefing.select_documents unordered).
Abbreviation generate_category_briefing :=
  (Briefing.generate_category_briefing unordered).
Abbreviation finish := (Briefing.finish unordered).
Abbreviation advance := (Briefing.advance unordered).
Abbreviation run := (Briefing.run unordered).
Abbreviation create_briefings := (Briefing.create_briefings unordered).
Abbreviation execution := (Briefing.execution unordered).
Abbreviation outcome := (Briefing.outcome unordered).
Abbreviation synthesized := (Briefing.synthesized unordered).
Abbreviation consistent := (Briefing.consistent unordered).

Lemma run_invariant (P : Config -> Prop) :
  (forall c cfg, P cfg -> P (advance llm c cfg)) ->
  forall schedule cfg, P cfg -> P (run llm schedule cfg).
Proof.
  intros Hstep schedule. unfold run.
  induction schedule as [|c schedule IH]; intros cfg H; simpl; auto.
Qed.

Lemma in_flight_sum cfg :
  in_flight cfg
  = (match status cfg Financial with InFlight => 1 | _ => 0 end)
    + (match status cfg News with InFlight => 1 | _ => 0 end)
    + (match status cfg Industry with InFlight => 1 | _ => 0 end)
    + (match status cfg Company with InFlight => 1 | _ => 0 end).
Proof.
  unfold in_flight, categories. simpl.
  destruct (status cfg Financial), (status cfg News),
           (status cfg Industry), (status cfg Company); reflexivity.
Qed.

Lemma advance_balanced c cfg : balanced cfg -> balanced (advance llm c cfg).
Proof.
  unfold balanced, advance. intros B.
  destruct (status cfg c) eqn:S; try exact B.
  - destruct (permits cfg) as [|k] eqn:P; [now rewrite P|].
    rewrite in_flight_sum in *. simpl.
    destruct c; unfold update; simpl; rewrite S in B; lia.
  - unfold finish.
    destruct (generate_category_briefing _ _ _ _) as [[content|e] tr];
      rewrite in_flight_sum in *; simpl;
      destruct c; unfold update; simpl; rewrite S in B; lia.
Qed.

Lemma start_balanced st tasks : balanced (start st tasks).
Proof.
  unfold balanced. rewrite in_flight_sum. simpl.
  repeat match goal with |- context [task_data tasks ?c] =>
    destruct (task_data tasks c) end; reflexivity.
Qed.

(** What a turn leaves alone. *)
Lemma advance_frame c cfg :
  tasks (advance llm c cfg) = tasks cfg
  /\ notifying (state (advance llm c cfg)) = notifying (state cfg)
  /\ (forall c', c' <> c -> status (advance llm c cfg) c' = status cfg c')
  /\ (forall c', c' <> c ->
        get_field (briefing_key c') (state (advance llm c cfg))
        = get_field (briefing_key c') (state cfg))
  /\ (forall c', c' <> c ->
        get (cat_name c') (briefings (advance llm c cfg))
        = get (cat_name c') (briefings cfg)).
Proof.
  assert (U : forall s c', c' <> c -> update (status cfg) c s c' = status cfg c').
  { intros s c' H. unfold update. rewrite cat_eqb_neq; auto. }
  unfold advance. destruct (status cfg c) eqn:S; try (now repeat split).
  - destruct (permits cfg); simpl; repeat split; auto.
  - unfold finish.
    destruct (generate_category_briefing _ _ _ _) as [[content|e] tr]; simpl;
      repeat split; auto.
    + intros c' H. apply get_field_set_ne. intros E.
      apply briefing_key_inj in E. congruence.
    + intros c' H. destruct (truthy content); [|reflexivity].
      apply get_set_ne. intros E. apply cat_name_inj in E. congruence.
Qed.

Lemma generate_requests_own_category on docs name c :
  In (GenerateContent (cat_name c))
     (snd (generate_category_briefing on llm docs name)) ->
  name = cat_name c.
Proof.
  unfold generate_category_briefing.
  assert (N : forall s d, ~ In (GenerateContent (cat_name c)) (notify on s d)).
  { intros s d. unfold notify. destruct on; simpl; [|tauto].
    intros [H|[]]. discriminate. }
  destruct (select_documents docs) as [texts|e]; simpl.
  - destruct (llm name texts) as [text|e]; [destruct (truthy (strip text))|];
      simpl; rewrite ?in_app_iff; simpl; intros H;
      repeat match goal with
        | H : _ \/ _ |- _ => destruct H
        | H : In _ (notify _ _ _) |- _ => now apply N in H
        | H : In _ (match docs with _ => _ end) |- _ =>
            destruct docs; simpl in H; try now apply N in H
        | H : GenerateContent _ = GenerateContent _ |- _ => now inversion H
        | H : False |- _ => destruct H
        end.
  - intros H. destruct docs; simpl in H; try tauto; now apply N in H.
Qed.

Lemma advance_idle c c' cfg : idle c cfg -> idle c (advance llm c' cfg).
Proof.
  intros [S [G T]].
  destruct (advance_frame c' cfg) as [_ [_ [Fs [Fg _]]]].
  assert (D : c = c' \/ c <> c').
  { destruct (cat_eqb c c') eqn:E; [left; now apply cat_eqb_eq|right].
    intros ->. now rewrite cat_eqb_refl in E. }
  destruct D as [<-|D].
  - unfold advance. rewrite S. now repeat split.
  - repeat split; [now rewrite Fs | now rewrite Fg |].
    unfold advance. destruct (status cfg c') eqn:S'; try exact T.
    + now destruct (permits cfg).
    + unfold finish.
      pose proof (generate_requests_own_category (notifying (state cfg))
        (match task_data (tasks cfg) c' with Some v => v | None => VNone end)
        (cat_name c') c) as Own.
      destruct (generate_category_briefing _ _ _ _) as [[content|e] tr];
        simpl in *; rewrite in_app_iff; intros [H|H]; try tauto;
        apply Own, cat_name_inj in H; congruence.
Qed.

Lemma curated_data_set_briefing c c' v st :
  curated_data (set_field (briefing_key c) v st) c' = curated_data st c'.
Proof.
  unfold curated_data. rewrite get_field_set_ne; [reflexivity|].
  apply briefing_key_not_curated.
Qed.

Lemma cat_eqb_sym a b : cat_eqb a b = cat_eqb b a.
Proof. now destruct a, b. Qed.

(** The first loop of [create_briefings]. *)
Lemma prepare_spec cs : forall st st1 tasks,
  prepare cs st = (st1, tasks) ->
  notifying st1 = notifying st
  /\ (forall c,
        task_data tasks c
        = if existsb (cat_eqb c) cs && truthy_value (curated_data st c)
          then Some (curated_data st c) else None)
  /\ (forall c,
        get_field (briefing_key c) st1
        = if existsb (cat_eqb c) cs && negb (truthy_value (curated_data st c))
          then Some (VStr EmptyString) else get_field (briefing_key c) st).
Proof.
  induction cs as [|c0 cs IH]; intros st st1 tasks H; simpl in H.
  - inversion H; subst. now repeat split.
  - destruct (truthy_value (curated_data st c0)) eqn:T.
    + destruct (prepare cs st) as [st' tasks'] eqn:P. inversion H; subst.
      destruct (IH st st1 tasks' P) as [N [D G]].
      split; [exact N|]. split; intros c; simpl.
      * rewrite D, (cat_eqb_sym c0 c). destruct (cat_eqb c c0) eqn:E.
        -- apply cat_eqb_eq in E. subst c. simpl. now rewrite T.
        -- reflexivity.
      * rewrite G. destruct (cat_eqb c c0) eqn:E; [|reflexivity].
        apply cat_eqb_eq in E. subst c. rewrite T. simpl.
        now rewrite andb_false_r.
    + destruct (IH _ st1 tasks H) as [N [D G]].
      split; [exact N|]. split; intros c; simpl.
      * rewrite D, curated_data_set_briefing.
        destruct (cat_eqb c c0) eqn:E; [|reflexivity].
        apply cat_eqb_eq in E. subst c. rewrite T. simpl.
        now rewrite andb_false_r.
      * rewrite G, curated_data_set_briefing.
        destruct (cat_eqb c c0) eqn:E; simpl.
        -- apply cat_eqb_eq in E. subst c. rewrite T. simpl.
           rewrite get_field_set_eq. now destruct (existsb _ cs).
        -- rewrite get_field_set_ne; [reflexivity|].
           intros K. apply briefing_key_inj in K. subst c0.
           now rewrite cat_eqb_refl in E.
Qed.

Lemma all_categories c : existsb (cat_eqb c) categories = true.
Proof. now destruct c. Qed.


Lemma truthy_or_empty s : (if truthy s then s else EmptyString) = s.
Proof. now destruct s. Qed.

Lemma start_consistent st st1 briefing_tasks :
  prepare categories st = (st1, briefing_tasks) ->
  consistent llm st (start st1 briefing_tasks).
Proof.
  intros P. destruct (prepare_spec _ _ _ _ P) as [N [D G]].
  unfold Briefing.consistent, start. simpl.
  split; [exact N|]. split; [|split].
  - intros c. now rewrite D, all_categories.
  - intros k [].
  - intros c. rewrite D, G, all_categories. simpl.
    destruct (truthy_value (curated_data st c)); simpl; auto.
Qed.

Lemma advance_consistent st c cfg :
  consistent llm st cfg -> consistent llm st (advance llm c cfg).
Proof.
  intros [N [D [K J]]].
  destruct (advance_frame c cfg) as [Ft [Fn [Fs [Fg Fb]]]].
  assert (Ff : failure cfg <> None -> failure (advance llm c cfg) <> None).
  { unfold advance. destruct (status cfg c); auto.
    - now destruct (permits cfg).
    - unfold finish.
      destruct (generate_category_briefing _ _ _ _) as [[content|e] tr];
        simpl; auto. destruct (failure cfg); congruence. }
  split; [congruence|]. split; [intros c'; now rewrite Ft|]. split.
  - intros k. unfold advance. destruct (status cfg c); try exact (K k).
    + destruct (permits cfg); exact (K k).
    + unfold finish.
      destruct (generate_category_briefing _ _ _ _) as [[content|e] tr];
        simpl; try exact (K k).
      destruct (truthy content); try exact (K k).
      intros Hin. apply keys_set in Hin. destruct Hin as [->|Hin]; eauto.
  - intros c'.
    assert (E : c' = c \/ c' <> c).
    { destruct (cat_eqb c' c) eqn:E; [left; now apply cat_eqb_eq|right].
      intros ->. now rewrite cat_eqb_refl in E. }
    destruct E as [->|E].
    + specialize (J c). specialize (D c). unfold advance.
      destruct (status cfg c) eqn:S; try (rewrite S; exact J).
      * destruct (permits cfg); simpl; [now rewrite S|].
        unfold update. now rewrite cat_eqb_refl.
      * unfold finish. destruct J as [T B]. rewrite T in D. rewrite D, N.
        fold (outcome llm st c).
        destruct (generate_category_briefing (notifying st) llm _ _)
          as [[content|e] tr] eqn:G; simpl;
          unfold update; rewrite cat_eqb_refl.
        -- split; [exact T|]. exists content.
           unfold outcome. rewrite G. simpl. split; [reflexivity|].
           rewrite get_field_set_eq, truthy_or_empty. split; [reflexivity|].
           destruct (truthy content); [apply get_set_eq | exact B].
        -- destruct (failure cfg); discriminate.
    + specialize (J c'). rewrite (Fs c' E), (Fg c' E), (Fb c' E).
      destruct (status cfg c'); auto.
Qed.

Lemma execution_consistent schedule st :
  consistent llm st (execution llm schedule st).
Proof.
  unfold execution. destruct (prepare categories st) as [st1 ts] eqn:P.
  apply run_invariant; [intros; now apply advance_consistent|].
  now apply start_consistent.
Qed.

(** What [create_briefings] returns is the state of an execution in
    which no task failed and every task is through, with the map of
    briefings stored. *)
Lemma create_briefings_returns schedule st st' :
  fst (create_briefings llm schedule st) = Some (Ok st') ->
  exists cfg,
    consistent llm st cfg
    /\ failure cfg = None
    /\ (forall c, settled (status cfg c) = true)
    /\ st' = set_field "briefings" (VDict (briefings cfg)) (state cfg).
Proof.
  unfold create_briefings.
  destruct (prepare categories st) as [st1 ts] eqn:P.
  destruct ts as [|t ts].
  - simpl. intros R. inversion R; subst.
    exists (start st1 []). split; [now apply start_consistent|].
    repeat split; auto.
  - pose proof (execution_consistent schedule st) as C.
    unfold Briefing.execution in C. rewrite P in C.
    destruct (failure (run llm schedule (start st1 (t :: ts)))) eqn:F;
      [discriminate|].
    destruct (forallb _ categories) eqn:A; [|discriminate].
    simpl. intros R. inversion R; subst.
    eexists. split; [exact C|]. split; [exact F|]. split; [|reflexivity].
    intros c. rewrite forallb_forall in A. apply A. destruct c; simpl; auto.
Qed.

Lemma generate_returns on docs name texts :
  select_documents docs = Ok texts ->
  exists content, fst (generate_category_briefing on llm docs name) = Ok content.
Proof.
  intros S. unfold generate_category_briefing. rewrite S.
  destruct (llm name texts) as [text|e]; [|simpl; eauto].
  destruct (truthy (strip text)); simpl; eauto.
Qed.

Lemma advance_settled c cfg :
  settled (status cfg c) = true -> advance llm c cfg = cfg.
Proof. unfold advance. now destruct (status cfg c). Qed.

Lemma advance_admits c cfg k :
  status cfg c = Waiting -> permits cfg = S k ->
  advance llm c cfg
  = {| state := state cfg;
       briefings := briefings cfg;
       tasks := tasks cfg;
       status := update (status cfg) c InFlight;
       permits := k;
       failure := failure cfg;
       trace := trace cfg |}.
Proof. intros S P. unfold advance. now rewrite S, P. Qed.

Lemma advance_finishes c cfg :
  status cfg c = InFlight -> advance llm c cfg = finish llm c cfg.
Proof. intros S. unfold advance. now rewrite S. Qed.

(** One task taken from start to end while no other is under way. *)
Lemma advance_twice st c cfg :
  (forall c, truthy_value (curated_data st c) = true ->
             exists texts, select_documents (curated_data st c) = Ok texts) ->
  consistent llm st cfg -> quiet cfg ->
  let cfg' := advance llm c (advance llm c cfg) in
  quiet cfg'
  /\ settled (status cfg' c) = true
  /\ (forall c', settled (status cfg c') = true ->
                 settled (status cfg' c') = true).
Proof.
  intros Hsel [N [D [K J]]] [P [F Q]] cfg'.
  pose proof (Q c) as Qc. specialize (J c). specialize (D c). subst cfg'.
  destruct (status cfg c) eqn:S; try contradiction.
  - rewrite !(advance_settled c cfg) by now rewrite S.
    repeat split; auto; now rewrite ?S.
  - rewrite (advance_admits c cfg 1 S P).
    rewrite advance_finishes
      by (cbn [status]; unfold update; now rewrite cat_eqb_refl).
    unfold finish. cbn [state tasks briefings failure permits trace status].
    destruct J as [T _]. rewrite T in D. rewrite D.
    destruct (Hsel c T) as [texts Hs].
    destruct (generate_returns (notifying (state cfg)) _ (cat_name c) _ Hs)
      as [content G].
    destruct (generate_category_briefing _ _ _ _) as [r tr]. simpl in G.
    subst r.
    split; [|split].
    + split; [reflexivity|]. split; [exact F|]. intros c'. simpl.
      unfold update. destruct (cat_eqb c c'); [exact I|]. apply Q.
    + simpl. unfold update. now rewrite cat_eqb_refl.
    + intros c' H. simpl. unfold update. destruct (cat_eqb c c'); auto.
  - rewrite !(advance_settled c cfg) by now rewrite S.
    repeat split; auto; now rewrite ?S.
Qed.

Lemma start_quiet st ts : quiet (start st ts).
Proof.
  unfold quiet, start. simpl. repeat split.
  intros c. now destruct (task_data ts c).
Qed.

(** Taken one after the other, the tasks all come to their end. *)
Lemma sequential_returns st :
  (forall c, truthy_value (curated_data st c) = true ->
             exists texts, select_documents (curated_data st c) = Ok texts) ->
  exists st', fst (create_briefings llm sequential st) = Some (Ok st').
Proof.
  intros Hsel. unfold create_briefings.
  destruct (prepare categories st) as [st1 ts] eqn:P.
  destruct ts as [|t ts]; [simpl; eauto|].
  pose proof (start_consistent _ _ _ P) as C0.
  pose proof (start_quiet st1 (t :: ts)) as Q0.
  set (cfg0 := start st1 (t :: ts)) in *.
  assert (Step : forall c cfg, consistent llm st cfg -> quiet cfg ->
            consistent llm st (advance llm c (advance llm c cfg))).
  { intros. now repeat apply advance_consistent. }
  change (run llm sequential cfg0) with
    (advance llm Company (advance llm Company
      (advance llm Industry (advance llm Industry
        (advance llm News (advance llm News
          (advance llm Financial (advance llm Financial cfg0)))))))).
  destruct (advance_twice st Financial cfg0 Hsel C0 Q0) as [Q1 [S1 _]].
  pose proof (Step Financial cfg0 C0 Q0) as C1.
  set (cfg1 := advance llm Financial (advance llm Financial cfg0)) in *.
  destruct (advance_twice st News cfg1 Hsel C1 Q1) as [Q2 [S2 K2]].
  pose proof (Step News cfg1 C1 Q1) as C2.
  set (cfg2 := advance llm News (advance llm News cfg1)) in *.
  destruct (advance_twice st Industry cfg2 Hsel C2 Q2) as [Q3 [S3 K3]].
  pose proof (Step Industry cfg2 C2 Q2) as C3.
  set (cfg3 := advance llm Industry (advance llm Industry cfg2)) in *.
  destruct (advance_twice st Company cfg3 Hsel C3 Q3) as [Q4 [S4 K4]].
  set (cfg4 := advance llm Company (advance llm Company cfg3)) in *.
  destruct Q4 as [_ [F4 _]]. rewrite F4.
  assert (A : forallb (fun c => settled (status cfg4 c)) categories = true).
  { simpl. rewrite S4, (K4 _ S3), (K4 _ (K3 _ S2)), (K4 _ (K3 _ (K2 _ S1))).
    reflexivity. }
  rewrite A. simpl. eauto.
Qed.


End BriefingFacts.


(** With four tasks the bound is reached: two are inside the semaphore
    and the third waits for a slot. *)
Example third_task_waits :
  let cfg := Briefing.execution Samples.as_given Samples.echo
               [Pipeline.Financial; Pipeline.News; Pipeline.Industry]
               Samples.all_four in
  Briefing.in_flight cfg = 2
  /\ Briefing.status cfg Pipeline.Industry = Briefing.Waiting
  /\ Briefing.permits cfg = 0.
Proof. repeat split. Qed.


(** ** The editor *)

Section EditorFacts.
Import PyStr PyDict Chat Pipeline Editor.
Variable format_references_section : Value -> Value -> Value -> result string.
Variable compile : string -> result string.
Variable sweep : string -> Response.

Abbreviation compile_content :=
  (Editor.compile_content format_references_section compile).
Abbreviation edit_report_body :=
  (Editor.edit_report_body format_references_section compile sweep).
Abbreviation edit_report :=
  (Editor.edit_report format_references_section compile sweep).
Abbreviation compile_briefings :=
  (Editor.compile_briefings format_references_section compile sweep).

Lemma truthy_strip s : truthy (strip s) = true -> s <> EmptyString.
Proof. intros H ->. discriminate. Qed.

(** The outcomes of the body of [edit_report]. *)
Lemma edit_report_body_cases st briefings :
  let out := edit_report_body st briefings in
  (exists report d,
      fst (fst out) = Ok report
      /\ truthy (strip report) = true
      /\ get_field "report" (snd (fst out)) = Some (VStr report)
      /\ get_field "status" (snd (fst out)) = Some (VStr "editor_complete")
      /\ editor (snd (fst out)) = EditorDict d
      /\ get "report" d = Some report)
  \/ ((fst (fst out) = Ok EmptyString \/ exists e, fst (fst out) = Raise e)
      /\ snd (fst out) = st).
Proof.
  unfold Editor.edit_report_body.
  destruct (compile_content st briefings) as [[edited|e] tr1]; simpl.
  - destruct (truthy edited); simpl; [|right; split; auto].
    destruct (content_sweep (notifying st) sweep edited) as [final tr2].
    destruct (truthy (strip final)) eqn:T; simpl; [|right; split; auto].
    left.
    assert (R : forall e,
      get_field "report"
        (set_editor e (set_field "status" (VStr "editor_complete")
                         (set_field "report" (VStr final) st)))
      = Some (VStr final)).
    { intros e. unfold get_field. cbn [set_editor set_field fields].
      rewrite get_set_ne by discriminate. apply get_set_eq. }
    assert (S : forall e,
      get_field "status"
        (set_editor e (set_field "status" (VStr "editor_complete")
                         (set_field "report" (VStr final) st)))
      = Some (VStr "editor_complete")).
    { intros e. unfold get_field. cbn [set_editor set_field fields].
      apply get_set_eq. }
    cbn [editor set_field].
    destruct (editor st) as [| |d] eqn:E.
    + exists final, [("report", final)]. now rewrite R, S.
    + exists final, [("report", final)]. now rewrite R, S.
    + exists final, (set "report" final d). rewrite R, S.
      repeat split; auto. apply get_set_eq.
  - right. split; eauto.
Qed.

(** With updates that are delivered: [edit_report] returns a string.
    When the string is not empty it is the non-blank final text, and it
    then stands in [state['report']] and in [state['editor']['report']];
    the report or the 'editor' entry differ from what they were only in
    that case.  When the string is empty the state is what it was. *)
Theorem edit_report_writes_only_nonblank :
  forall (st : ResearchState) (briefings : dict Value),
    let out := edit_report st briefings in
    let report := fst (fst out) in
    let st' := snd (fst out) in
    (report <> EmptyString ->
       truthy (strip report) = true
       /\ get_field "report" st' = Some (VStr report)
       /\ exists d, editor st' = EditorDict d /\ get "report" d = Some report)
    /\ (get_field "report" st' <> get_field "report" st
        \/ editor st' <> editor st ->
        truthy (strip report) = true)
    /\ (report = EmptyString -> st' = st)
    /\ (fst (compile_content st briefings) = Ok EmptyString ->
        report = EmptyString)
    /\ (forall e, fst (compile_content st briefings) = Raise e ->
                  report = EmptyString)
    /\ (forall edited,
          fst (compile_content st briefings) = Ok edited ->
          strip (fst (content_sweep (notifying st) sweep edited)) = EmptyString ->
          report = EmptyString)
    /\ (forall e, fst (fst (edit_report_body st briefings)) = Raise e ->
                  report = EmptyString).
Proof.
  intros st briefings out report st'.
  pose proof (edit_report_body_cases st briefings) as C. cbv zeta in C.
  assert (Hr : report = match fst (fst (edit_report_body st briefings)) with
                        | Ok r => r | Raise _ => EmptyString end)
    by (subst report out; unfold Editor.edit_report;
        now destruct (edit_report_body st briefings) as [[[r|e] s1] t1]).
  assert (Hs : st' = snd (fst (edit_report_body st briefings)))
    by (subst st' out; unfold Editor.edit_report;
        now destruct (edit_report_body st briefings) as [[[r|e] s1] t1]).
  assert (Empty : report = EmptyString -> st' = st).
  { intros E. destruct C as [[r [d [O [T _]]]]|[_ S]]; [|congruence].
    rewrite O in Hr. apply truthy_strip in T. congruence. }
  assert (Full : report <> EmptyString ->
            truthy (strip report) = true
            /\ get_field "report" st' = Some (VStr report)
            /\ exists d, editor st' = EditorDict d /\ get "report" d = Some report).
  { intros NE. destruct C as [[r [d [O [T [G [_ [Ed Gd]]]]]]]|[[O|[e O]] _]];
      rewrite O in Hr; try congruence.
    subst r. rewrite Hs. eauto. }
  split; [exact Full|]. split; [|split; [exact Empty|]].
  - intros Changed. destruct (string_dec report EmptyString) as [E|NE].
    + rewrite (Empty E) in Changed. tauto.
    + now apply Full.
  - split; [|split; [|split]]; try (intros e He; now rewrite Hr, He);
      rewrite Hr; unfold Editor.edit_report_body.
    + intros Hc. destruct (compile_content st briefings) as [r tr1].
      simpl in Hc. subst r. reflexivity.
    + intros e Hc. destruct (compile_content st briefings) as [r tr1].
      simpl in Hc. subst r. reflexivity.
    + intros edited Hc Hblank.
      destruct (compile_content st briefings) as [r tr1].
      simpl in Hc. subst r. destruct (truthy edited); [|reflexivity].
      destruct (content_sweep (notifying st) sweep edited) as [final tr2].
      simpl in Hblank. rewrite Hblank. reflexivity.
Qed.

Lemma collect_nothing cs : forall st found msg,
  (forall c, no_briefing st c) ->
  collect cs st found msg
  = (found,
     msg ++ map (fun c => "No " +:+ cat_name c +:+ " briefing available") cs).
Proof.
  induction cs as [|c cs IH]; intros st found msg H; simpl.
  - now rewrite app_nil_r.
  - specialize (H c) as Hc. unfold no_briefing in Hc.
    destruct (get_field (briefing_key c) st) as [v|];
      [rewrite Hc|]; rewrite IH by exact H; now rewrite <- app_assoc.
Qed.

(** With updates that are delivered: when no briefing slot holds a
    text, [compile_briefings] makes no request to a model and returns
    the state it was given, with one message appended that tells, after
    the line of each missing briefing, that no briefing sections are
    available to compile. *)
Theorem compile_briefings_without_briefings :
  forall (st : ResearchState),
    (forall c, no_briefing st c) ->
    let st' := fst (compile_briefings st) in
    (forall model, ~ In (ChatRequest model) (snd (compile_briefings st)))
    /\ fields st' = fields st
    /\ editor st' = editor st
    /\ messages st'
       = Some (match messages st with Some l => l | None => [] end
               ++ [nothing_to_compile st]).
Proof.
  intros st H st'. subst st'. unfold Editor.compile_briefings.
  rewrite collect_nothing by exact H. cbn [app fst snd].
  split; [|split; [reflexivity | split; [reflexivity|]]].
  - intros model. unfold notify. destruct (notifying st); simpl; intuition discriminate.
  - unfold append_message, nothing_to_compile. cbn [messages].
    destruct (messages st); reflexivity.
Qed.

End EditorFacts.

(** Without a manager in the state no update is sent: the state that
    comes back holds no report. *)
Lemma no_placeholder_report :
  let st' := fst (Editor.compile_briefings Samples.no_references
                    Samples.compile_ok Samples.sweep_ok
                    Samples.no_briefings) in
  Pipeline.get_field "report" st' = None
  /\ Pipeline.editor st' = Pipeline.EditorAbsent
  /\ Pipeline.fields st' = [].
Proof. repeat split. Qed.

Lemma compile_briefings_without_briefings_witness :
  Pipeline.messages
    (fst (Editor.compile_briefings Samples.no_references Samples.compile_ok
            Samples.sweep_ok Samples.no_briefings))
  = Some [Editor.nothing_to_compile Samples.no_briefings].
Proof.
  apply (compile_briefings_without_briefings Samples.no_references
           Samples.compile_ok Samples.sweep_ok Samples.no_briefings).
  intros c. now destruct c.
Defined.

Lemma edit_report_writes_only_nonblank_witness :
  let out := Editor.edit_report Samples.no_references Samples.compile_ok
               Samples.sweep_ok Samples.company_briefed
               [("company", Pipeline.VStr "Acme makes anvils.")] in
  Pipeline.get_field "report" (snd (fst out))
  = Some (Pipeline.VStr (fst (fst out)))
  /\ fst (fst out) = "# AcmeAcme makes anvils.".
Proof.
  split; [|reflexivity].
  apply (proj1 (edit_report_writes_only_nonblank Samples.no_references
                  Samples.compile_ok Samples.sweep_ok Samples.company_briefed
                  [("company", Pipeline.VStr "Acme makes anvils.")])).
  discriminate.
Defined.

(** * Further properties *)

(** ** Stripping and splitting *)

Section StripFacts.
Import PyStr.

Lemma lstrip_head s :
  lstrip s = EmptyString
  \/ exists c t, lstrip s = String c t /\ isspace c = false.
Proof.
  induction s as [|c s IH]; simpl; [now left|].
  destruct (isspace c) eqn:E; [exact IH|]. right. eauto.
Qed.

Lemma rstrip_head c t :
  isspace c = false -> exists t', rstrip (String c t) = String c t'.
Proof.
  intros E. simpl. destruct (rstrip t); [rewrite E|]; eauto.
Qed.

Lemma rstrip_idempotent s : rstrip (rstrip s) = rstrip s.
Proof.
  induction s as [|c s IH]; [reflexivity|].
  simpl. destruct (rstrip s) as [|d r] eqn:R.
  - destruct (isspace c) eqn:E; [reflexivity|]. simpl. now rewrite E.
  - simpl in *. rewrite IH. reflexivity.
Qed.

(** [s.strip().strip() == s.strip()] *)
Lemma strip_idempotent s : strip (strip s) = strip s.
Proof.
  unfold strip. destruct (lstrip_head s) as [->|[c [t [-> E]]]]; [reflexivity|].
  destruct (rstrip_head c t E) as [t' R]. rewrite R.
  cbn [lstrip]. rewrite E, <- R. apply rstrip_idempotent.
Qed.

Lemma lstrip_keeps_clear sep s :
  contains sep s = false -> contains sep (lstrip s) = false.
Proof.
  induction s as [|c s IH]; [reflexivity|].
  simpl. destruct (Ascii.eqb c sep) eqn:E; [discriminate|]. intros H.
  destruct (isspace c); [now apply IH|]. simpl. now rewrite E.
Qed.

Lemma rstrip_keeps_clear sep s :
  contains sep s = false -> contains sep (rstrip s) = false.
Proof.
  induction s as [|c s IH]; [reflexivity|].
  simpl. destruct (Ascii.eqb c sep) eqn:E; [discriminate|]. intros H.
  specialize (IH H). destruct (rstrip s) as [|d r].
  - destruct (isspace c); [reflexivity|]. simpl. now rewrite E.
  - simpl in *. now rewrite E.
Qed.

Lemma strip_keeps_clear sep s :
  contains sep s = false -> contains sep (strip s) = false.
Proof. intros H. now apply rstrip_keeps_clear, lstrip_keeps_clear. Qed.

(** No part of a split holds the separator. *)
Lemma split_parts_clear sep s p :
  In p (split sep s) -> contains sep p = false.
Proof.
  revert p. induction s as [|c s IH]; intros p; simpl.
  - intros [<-|[]]. reflexivity.
  - destruct (Ascii.eqb c sep) eqn:E.
    + intros [<-|H]; [reflexivity | now apply IH].
    + destruct (split sep s) as [|q qs] eqn:S.
      * intros [<-|[]]. simpl. now rewrite E.
      * intros [<-|H].
        -- simpl. rewrite E. apply IH. now left.
        -- apply IH. now right.
Qed.

(** [(a + " " + b).split() == a.split() + b.split()] *)
Lemma words_from_space acc a sp b :
  isspace sp = true ->
  words_from acc (a +:+ String sp b) = words_from acc a ++ words b.
Proof.
  intros E. revert acc. induction a as [|c a IH]; intros acc; simpl.
  - rewrite E. now destruct (is_empty acc).
  - destruct (isspace c).
    + destruct (is_empty acc); simpl; now rewrite IH.
    + apply IH.
Qed.

Lemma words_space a sp b :
  isspace sp = true -> words (a +:+ String sp b) = words a ++ words b.
Proof. apply words_from_space. Qed.

End StripFacts.

(** ** Query generation: retries, results, notifications *)

Section QueryGeneratorMore.
Import PyStr Chat QueryGenerator Observe.

Lemma sleeps_app a b : sleeps (a ++ b) = sleeps a ++ sleeps b.
Proof.
  induction a as [|e a IH]; [reflexivity|].
  destruct e; simpl; now rewrite IH.
Qed.

Lemma chat_models_app a b : chat_models (a ++ b) = chat_models a ++ chat_models b.
Proof.
  induction a as [|e a IH]; [reflexivity|].
  destruct e; simpl; now rewrite IH.
Qed.

Lemma updates_are_silent tr :
  forallb is_update tr = true -> sleeps tr = [] /\ chat_models tr = [].
Proof.
  induction tr as [|e tr IH]; [now split|].
  destruct e; simpl; try discriminate. exact IH.
Qed.

Lemma forallb_app_true {A} (f : A -> bool) a b :
  forallb f a = true -> forallb f b = true -> forallb f (a ++ b) = true.
Proof. intros Ha Hb. rewrite forallb_app, Ha, Hb. reflexivity. Qed.

Lemma notify_updates on s d : forallb is_update (notify on s d) = true.
Proof. now destruct on. Qed.

Lemma notify_off s d : notify false s d = [].
Proof. reflexivity. Qed.

Lemma finalize_parts_updates on parts : forall qs n,
  forallb is_update (snd (finalize_parts on parts qs n)) = true.
Proof.
  induction parts as [|p parts IH]; intros qs n; [reflexivity|].
  simpl. destruct (truthy (strip p)); [|apply IH].
  specialize (IH (qs ++ [strip p]) (S n)).
  destruct (finalize_parts on parts (qs ++ [strip p]) (S n)) as [[qs' n'] tr].
  simpl in *. apply forallb_app_true; [apply notify_updates | exact IH].
Qed.

Lemma consume_updates on items : forall a,
  forallb is_update (snd (consume on items a)) = true.
Proof.
  induction items as [|[c|e] items IH]; intros a; simpl; try reflexivity.
  destruct (is_stop c); [reflexivity|].
  destruct (delta_content c) as [[|ch tl]|]; try apply IH.
  destruct (contains newline (current_query a +:+ String ch tl)).
  - pose proof (finalize_parts_updates on
      (removelast (split newline (current_query a +:+ String ch tl)))
      (queries a) (current_query_number a)) as F.
    destruct (finalize_parts _ _ _ _) as [[qs n] tr2].
    match goal with |- context [consume on items ?b] =>
      specialize (IH b); destruct (consume on items b) as [r tr3] end.
    simpl in *. repeat apply forallb_app_true; auto using notify_updates.
  - match goal with |- context [consume on items ?b] =>
      specialize (IH b); destruct (consume on items b) as [r tr3] end.
    simpl in *. apply forallb_app_true; auto using notify_updates.
Qed.

Lemma finalized_updates on items :
  forallb is_update (snd (finalized on items)) = true.
Proof.
  unfold finalized. pose proof (consume_updates on items acc0) as C.
  destruct (consume on items acc0) as [[a|e] tr]; simpl in *; [|exact C].
  destruct (truthy (strip (current_query a))); simpl; [|exact C].
  apply forallb_app_true; [exact C | apply notify_updates].
Qed.

(** One attempt asks the chat model once and does not sleep. *)
Lemma attempt_trace on company r :
  sleeps (snd (attempt on company r)) = []
  /\ chat_models (snd (attempt on company r)) = ["gpt-4"].
Proof.
  unfold attempt. destruct r as [e|items]; [now split|].
  pose proof (finalized_updates on items) as U.
  destruct (finalized on items) as [[[|q l]|e] tr]; simpl in *;
    destruct (updates_are_silent tr U) as [-> ->]; now split.
Qed.

(** The value of an attempt does not depend on the broadcaster. *)
Lemma attempt_value on on' company r :
  fst (attempt on company r) = fst (attempt on' company r).
Proof.
  unfold attempt. destruct r as [e|items]; [reflexivity|].
  pose proof (finalized_lines on items) as F.
  pose proof (finalized_lines on' items) as F'.
  destruct (finalized on items) as [r tr], (finalized on' items) as [r' tr'].
  simpl in *. rewrite <- F' in F. subst r'.
  destruct r as [[|q l]|e]; reflexivity.
Qed.

Lemma attempts_first_success cx responses qs k : forall remaining i,
  remaining + i = max_retries -> i <= k -> k < max_retries ->
  (forall j, i <= j -> j < k -> fails cx (responses j)) ->
  fst (attempt (notifying cx) (company cx) (responses k)) = Ok qs ->
  fst (attempts cx responses remaining i) = Some qs
  /\ sleeps (snd (attempts cx responses remaining i))
     = map (fun j => retry_delay * 2 ^ j) (seq i (k - i))
  /\ List.length (chat_models (snd (attempts cx responses remaining i)))
     = S (k - i).
Proof.
  induction remaining as [|r IH]; intros i Hsum Hik Hk Hfail Hok;
    unfold max_retries in *; [lia|].
  cbn [attempts].
  destruct (attempt_trace (notifying cx) (company cx) (responses i)) as [Sl Cm].
  destruct (Nat.eq_dec i k) as [->|Hne].
  - destruct (attempt _ _ (responses k)) as [res tr]. simpl in Hok. subst res.
    simpl in *. rewrite Sl, Cm, Nat.sub_diag. now repeat split.
  - destruct (Hfail i) as [e He]; [lia | lia |].
    destruct (attempt _ _ (responses i)) as [res tr]. simpl in He. subst res.
    change (max_retries - 1) with 2.
    assert ((i <? 2) = true) as -> by (apply Nat.ltb_lt; lia).
    destruct (IH (S i)) as [V [S' C']]; try lia; auto.
    { intros j Hj Hjk. apply Hfail; lia. }
    destruct (attempts cx responses r (S i)) as [v tr']. simpl in *.
    split; [exact V|]. rewrite sleeps_app, chat_models_app. simpl.
    rewrite Sl, Cm, S'. simpl. rewrite C'.
    replace (k - i) with (S (k - S i)) by lia. simpl. split; [reflexivity | lia].
Qed.


(** X2.  Whatever the provider does, [generate_queries] asks the chat
    model one to three times; it sleeps 2 seconds before a second
    request and 4 seconds before a third, and never after the last. *)
Theorem generate_queries_backoff :
  forall (cx : Ctx) (responses : nat -> Response),
    let tr := snd (generate_queries cx responses) in
    (sleeps tr = [] /\ chat_models tr = ["gpt-4"])
    \/ (sleeps tr = [2] /\ chat_models tr = ["gpt-4"; "gpt-4"])
    \/ (sleeps tr = [2; 4] /\ chat_models tr = ["gpt-4"; "gpt-4"; "gpt-4"]).
Proof.
  intros cx responses tr. subst tr. unfold generate_queries, max_retries.
  cbn [attempts].
  destruct (attempt_trace (notifying cx) (company cx) (responses 0)) as [S0 C0].
  destruct (attempt_trace (notifying cx) (company cx) (responses 1)) as [S1 C1].
  destruct (attempt_trace (notifying cx) (company cx) (responses 2)) as [S2 C2].
  destruct (attempt _ _ (responses 0)) as [[q0|e0] t0]; simpl in *;
    [left; now split|].
  destruct (attempt _ _ (responses 1)) as [[q1|e1] t1]; simpl in *.
  - right; left. rewrite sleeps_app, chat_models_app. simpl.
    rewrite S0, C0, S1, C1. now split.
  - right; right.
    destruct (updates_are_silent _ (notify_updates (notifying cx)
                "warning" "query_generation_fallback")) as [Sw Cw].
    destruct (attempt _ _ (responses 2)) as [[q2|e2] t2]; simpl in *;
      repeat (rewrite ?sleeps_app, ?chat_models_app;
              cbn [sleeps chat_models app]);
      rewrite ?Sw, ?Cw, ?S0, ?C0, ?S1, ?C1, ?S2, ?C2; now split.
Qed.

(** X3.  A stream whose text has no line with anything but white space
    makes the attempt fail with "No queries generated": an empty result
    counts as a failure and is retried. *)
Theorem blank_stream_fails :
  forall (on : bool) (company : string) (items : list StreamItem) (text : string),
    streamed_text items = Ok text ->
    query_lines text = [] ->
    fst (attempt on company (Stream items))
    = Raise (Error ("No queries generated for " +:+ company)).
Proof.
  intros on company items text Ht Hl. unfold attempt.
  pose proof (finalized_lines on items) as F. rewrite Ht, Hl in F.
  destruct (finalized on items) as [r tr]. simpl in F. now subst r.
Qed.

Lemma in_firstn {A} n (l : list A) x : In x (firstn n l) -> In x l.
Proof.
  revert l. induction n as [|n IH]; intros [|y l]; simpl; try tauto.
  intros [H|H]; [now left | right; now apply IH].
Qed.

(** X4.  Every query that an attempt returns is non-empty, carries no
    white space around it and holds no newline. *)
Theorem streamed_queries_are_clean :
  forall (on : bool) (company : string) (r : Response) (qs : list string),
    fst (attempt on company r) = Ok qs ->
    forall q, In q qs ->
      q <> EmptyString /\ strip q = q /\ contains newline q = false.
Proof.
  intros on company r qs H q Hin. unfold attempt in H.
  destruct r as [e|items]; [discriminate|].
  pose proof (finalized_lines on items) as F.
  destruct (finalized on items) as [res tr]. simpl in F. subst res.
  destruct (streamed_text items) as [text|e]; [|discriminate].
  assert (Hq : In q (query_lines text)).
  { destruct (query_lines text) as [|q0 l]; [discriminate|].
    cbn [fst] in H. inversion H; subst. exact (in_firstn 4 (q0 :: l) q Hin). }
  unfold query_lines in Hq. apply filter_In in Hq. destruct Hq as [Hm T].
  apply in_map_iff in Hm. destruct Hm as [p [<- Hp]].
  split; [|split].
  - intros E. rewrite E in T. discriminate.
  - apply strip_idempotent.
  - apply strip_keeps_clear. now apply (split_parts_clear newline text).
Qed.

Lemma finalize_parts_off parts : forall qs n,
  snd (finalize_parts false parts qs n) = [].
Proof.
  induction parts as [|p parts IH]; intros qs n; [reflexivity|].
  simpl. destruct (truthy (strip p)); [|apply IH].
  specialize (IH (qs ++ [strip p]) (S n)).
  now destruct (finalize_parts false parts (qs ++ [strip p]) (S n)) as [[qs' n'] tr].
Qed.

Lemma consume_off items : forall a, snd (consume false items a) = [].
Proof.
  induction items as [|[c|e] items IH]; intros a; simpl; try reflexivity.
  destruct (is_stop c); [reflexivity|].
  destruct (delta_content c) as [[|ch tl]|]; try apply IH.
  destruct (contains newline (current_query a +:+ String ch tl)).
  - pose proof (finalize_parts_off
      (removelast (split newline (current_query a +:+ String ch tl)))
      (queries a) (current_query_number a)) as F.
    destruct (finalize_parts _ _ _ _) as [[qs n] tr2].
    match goal with |- context [consume false items ?b] =>
      specialize (IH b); destruct (consume false items b) as [r tr3] end.
    simpl in *. now subst.
  - match goal with |- context [consume false items ?b] =>
      specialize (IH b); destruct (consume false items b) as [r tr3] end.
    simpl in *. now subst.
Qed.

Lemma attempt_off company r :
  forallb (fun e => negb (is_update e)) (snd (attempt false company r)) = true.
Proof.
  unfold attempt. destruct r as [e|items]; [reflexivity|].
  unfold finalized. pose proof (consume_off items acc0) as C.
  destruct (consume false items acc0) as [[a|e] tr]; simpl in C; subst tr.
  - destruct (truthy (strip (current_query a)));
      [destruct (queries a ++ [strip (current_query a)])
      | destruct (queries a)]; reflexivity.
  - reflexivity.
Qed.

Lemma attempts_value cx cx' responses : forall remaining i,
  analyst_type cx = analyst_type cx' -> company cx = company cx' ->
  current_year cx = current_year cx' ->
  fst (attempts cx responses remaining i)
  = fst (attempts cx' responses remaining i).
Proof.
  induction remaining as [|r IH]; intros i Ha Hc Hy; [reflexivity|].
  cbn [attempts].
  pose proof (attempt_value (notifying cx) (notifying cx') (company cx)
                (responses i)) as V.
  rewrite <- Hc.
  destruct (attempt (notifying cx) (company cx) (responses i)) as [v tr],
           (attempt (notifying cx') (company cx) (responses i)) as [v' tr'].
  simpl in V. subst v'. destruct v as [qs|e]; [reflexivity|].
  destruct (i <? max_retries - 1).
  - specialize (IH (S i) Ha Hc Hy).
    destruct (attempts cx responses r (S i)), (attempts cx' responses r (S i)).
    exact IH.
  - simpl. now rewrite Ha, Hy.
Qed.

Lemma attempts_off cx responses : forall remaining i,
  notifying cx = false ->
  forallb (fun e => negb (is_update e)) (snd (attempts cx responses remaining i))
  = true.
Proof.
  induction remaining as [|r IH]; intros i Hn; [reflexivity|].
  cbn [attempts]. rewrite Hn.
  pose proof (attempt_off (company cx) (responses i)) as A.
  destruct (attempt false (company cx) (responses i)) as [[qs|e] tr];
    simpl in A; [exact A|].
  destruct (i <? max_retries - 1).
  - specialize (IH (S i) Hn).
    destruct (attempts cx responses r (S i)) as [v tr']. simpl in *.
    rewrite forallb_app, A. simpl. exact IH.
  - simpl. now rewrite app_nil_r.
Qed.

(** X5.  The broadcaster has no part in the result: two calls that
    differ only in whether a manager and a job id are present return the
    same queries; and without them no status update is sent. *)
Theorem generate_queries_ignores_broadcaster :
  forall (cx cx' : Ctx) (responses : nat -> Response),
    analyst_type cx = analyst_type cx' ->
    company cx = company cx' ->
    current_year cx = current_year cx' ->
    fst (generate_queries cx responses) = fst (generate_queries cx' responses)
    /\ (notifying cx = false ->
        forallb (fun e => negb (is_update e))
                (snd (generate_queries cx responses)) = true).
Proof.
  intros cx cx' responses Ha Hc Hy. split.
  - now apply attempts_value.
  - intros Hn. now apply attempts_off.
Qed.

Lemma words_from_nonempty acc s :
  is_empty acc = false -> 1 <= List.length (words_from acc s).
Proof.
  revert acc. induction s as [|c s IH]; intros acc H; simpl.
  - rewrite H. simpl. lia.
  - destruct (isspace c); [rewrite H; simpl; lia|].
    apply IH. now destruct acc.
Qed.

(** [str(n)] starts with a digit or a minus sign, so it is one word at
    least. *)
Lemma of_int_word n : 1 <= List.length (words (of_int n)).
Proof.
  assert (H : exists c t, of_int n = String c t /\ isspace c = false).
  { unfold of_int, NilZero.string_of_int, NilZero.string_of_uint.
    destruct (Z.to_int n) as [d|d]; destruct d; simpl; eauto. }
  destruct H as [c [t [-> E]]]. unfold words. simpl. rewrite E.
  now apply words_from_nonempty.
Qed.

(** X6.  When the company name holds at least one word, every fallback
    query has at least three words, so that the length test of
    [search_single_query] lets it through. *)
Theorem fallback_queries_have_three_words :
  forall (analyst company : string) (year : Z),
    words company <> [] ->
    forall q, In q (_fallback_queries analyst company year) ->
      3 <= List.length (words q).
Proof.
  intros analyst company year Hc q Hin.
  assert (L : 1 <= List.length (words company))
    by (destruct (words company); [congruence | simpl; lia]).
  pose proof (of_int_word year) as Hy.
  assert (W : forall tail, 2 <= List.length (words tail) ->
            3 <= List.length (words (company +:+ String " "%char tail))).
  { intros tail Ht. rewrite words_space by reflexivity.
    rewrite length_app. lia. }
  assert (Y : forall lit, 1 <= List.length (words lit) ->
            3 <= List.length
                   (words (company +:+ String " "%char (lit +:+ " ")
                                   +:+ of_int year))).
  { intros lit Hl. cbn [String.append]. apply W.
    rewrite append_assoc. cbn [String.append].
    rewrite words_space by reflexivity. rewrite length_app. lia. }
  unfold _fallback_queries in Hin.
  repeat match type of Hin with
    | In _ (if ?b then _ else _) => destruct b
    end;
    cbn [In] in Hin;
    repeat (destruct Hin as [<-|Hin]); try contradiction.
  all: first
    [ refine (W _ _); vm_compute; lia
    | refine (Y "company overview" _); vm_compute; lia
    | refine (Y "financial performance" _); vm_compute; lia
    | refine (Y "revenue" _); vm_compute; lia
    | refine (Y "financial reports" _); vm_compute; lia
    | refine (Y "industry position" _); vm_compute; lia
    | refine (Y "industry trends" _); vm_compute; lia
    | refine (Y "latest news" _); vm_compute; lia
    | refine (Y "press releases" _); vm_compute; lia
    | refine (Y "overview" _); vm_compute; lia
    | refine (Y "recent news" _); vm_compute; lia
    | refine (Y "industry analysis" _); vm_compute; lia ].
Qed.

(** X7.  The analyst types for which a search topic is set are not those
    for which [_fallback_queries] has a list of their own: an analyst
    whose searches are narrowed to news or finance is given the default
    fallback list. *)
Theorem topic_and_fallback_names_differ :
  forall (analyst company : string) (year : Z),
    SearchFanout.topic analyst <> None ->
    _fallback_queries analyst company year = default_queries company year.
Proof.
  intros analyst company year H. unfold SearchFanout.topic in H.
  unfold default_queries, _fallback_queries.
  destruct (String.eqb analyst "news_analyst") eqn:N.
  - apply String.eqb_eq in N. now subst.
  - destruct (String.eqb analyst "financial_analyst") eqn:F; [|congruence].
    apply String.eqb_eq in F. now subst.
Qed.

End QueryGeneratorMore.


Lemma blank_stream_fails_witness :
  fst (QueryGenerator.attempt true "Acme"
         (Chat.Stream [Chat.token "  "; Chat.token PyStr.nl]))
  = Raise (Error "No queries generated for Acme").
Proof.
  apply (blank_stream_fails true "Acme"
           [Chat.token "  "; Chat.token PyStr.nl] ("  " +:+ PyStr.nl));
    reflexivity.
Defined.

Lemma streamed_queries_are_clean_witness :
  "acme revenue" <> EmptyString
  /\ PyStr.strip "acme revenue" = "acme revenue"
  /\ PyStr.contains PyStr.newline "acme revenue" = false.
Proof.
  apply (streamed_queries_are_clean false "Acme"
           (Chat.Stream [Chat.token "  acme revenue "; Chat.token PyStr.nl])
           ["acme revenue"] eq_refl).
  now left.
Defined.

Lemma generate_queries_ignores_broadcaster_witness :
  fst (QueryGenerator.generate_queries Samples.news_ctx
         (fun _ => Chat.Stream [Chat.token "acme corp news"]))
  = fst (QueryGenerator.generate_queries
           {| QueryGenerator.analyst_type := "news_analyzer";
              QueryGenerator.company := "Acme";
              QueryGenerator.current_year := 2026%Z;
              QueryGenerator.notifying := false |}
           (fun _ => Chat.Stream [Chat.token "acme corp news"])).
Proof.
  apply (proj1 (generate_queries_ignores_broadcaster Samples.news_ctx
                  {| QueryGenerator.analyst_type := "news_analyzer";
                     QueryGenerator.company := "Acme";
                     QueryGenerator.current_year := 2026%Z;
                     QueryGenerator.notifying := false |}
                  (fun _ => Chat.Stream [Chat.token "acme corp news"])
                  eq_refl eq_refl eq_refl)).
Defined.

Lemma fallback_queries_have_three_words_witness :
  3 <= List.length (PyStr.words "Acme business model").
Proof.
  apply (fallback_queries_have_three_words "company_analyzer" "Acme" 2026%Z).
  - discriminate.
  - right. now left.
Defined.

Lemma topic_and_fallback_names_differ_witness :
  QueryGenerator._fallback_queries "news_analyst" "Acme" 2026%Z
  = Observe.default_queries "Acme" 2026%Z.
Proof.
  apply topic_and_fallback_names_differ. discriminate.
Defined.

(** ** Search: requests, provenance, titles *)

Section SearchFanoutMore.
Import PyStr PyDict SearchFanout Observe.
Variable clean_title : string -> string.

Abbreviation add_hit' := (SearchFanout.add_hit clean_title).
Abbreviation add_hits' := (SearchFanout.add_hits clean_title).
Abbreviation merge' := (SearchFanout.merge clean_title).
Abbreviation make_doc' := (SearchFanout.make_doc clean_title).

Lemma searched_app a b : searched (a ++ b) = searched a ++ searched b.
Proof.
  induction a as [|e a IH]; [reflexivity|].
  destruct e; simpl; now rewrite IH.
Qed.

Lemma searched_notify on s d : searched (notify on s d) = [].
Proof. now destruct on. Qed.

Lemma searched_requests t queries :
  searched (map (fun q => SearchRequest q t) queries) = queries.
Proof. induction queries as [|q qs IH]; simpl; [reflexivity | now rewrite IH]. Qed.



Lemma length_set {V} k (v : V) d : List.length (set k v d) <= S (List.length d).
Proof.
  induction d as [|[k' v'] d IH]; simpl; [lia|].
  destruct (String.eqb k' k); simpl; lia.
Qed.

Lemma add_hits_size q hits : forall docs,
  List.length (add_hits' q hits docs)
  <= List.length docs + List.length (filter usable hits).
Proof.
  induction hits as [|h hits IH]; intros docs; simpl; [lia|].
  specialize (IH (add_hit' q docs h)). unfold SearchFanout.add_hit in *.
  destruct (usable h); simpl; [|lia].
  pose proof (length_set (hit_key h) (make_doc' q h) docs). lia.
Qed.

Lemma merge_size queries : forall results docs,
  List.length (merge' queries results docs)
  <= List.length docs + List.length (filter usable (List.concat results)).
Proof.
  induction queries as [|q queries IH]; intros [|hits results] docs; simpl;
    try lia.
  specialize (IH results (add_hits' q hits docs)).
  pose proof (add_hits_size q hits docs). rewrite filter_app, length_app. lia.
Qed.

(** X10.  The merged map never holds more documents than the provider
    returned usable hits. *)
Theorem merged_map_size :
  forall (analyst : string) (on : bool)
         (search : nat -> string -> result (list Hit)) (queries : list string)
         (results : list (list Hit)),
    gather (requests search 0 queries) = Ok results ->
    List.length (fst (search_documents clean_title analyst on search queries))
    <= List.length (filter usable (List.concat results)).
Proof.
  intros analyst on search queries results G. unfold search_documents.
  destruct queries as [|q0 queries]; [simpl; lia|].
  rewrite G. cbn [fst]. apply (merge_size (q0 :: queries) results []).
Qed.

(** Where a document comes from. *)
Lemma add_hits_origin (P : Doc -> Prop) q hits : forall docs,
  (forall h, P (make_doc' q h)) ->
  Forall (fun e => P (snd e)) docs ->
  Forall (fun e => P (snd e)) (add_hits' q hits docs).
Proof.
  induction hits as [|h hits IH]; intros docs Hq Hd; [exact Hd|].
  simpl. apply IH; [exact Hq|]. unfold SearchFanout.add_hit.
  destruct (usable h); [|exact Hd].
  apply Forall_forall. intros [u d] Hin. apply in_set in Hin.
  destruct Hin as [[_ ->]|Hin]; [apply Hq|].
  rewrite Forall_forall in Hd. now apply (Hd (u, d)).
Qed.

Lemma merge_origin (P : Doc -> Prop) queries : forall results docs,
  (forall q h, In q queries -> P (make_doc' q h)) ->
  Forall (fun e => P (snd e)) docs ->
  Forall (fun e => P (snd e)) (merge' queries results docs).
Proof.
  induction queries as [|q queries IH]; intros [|hits results] docs Hq Hd;
    try exact Hd.
  simpl. apply IH.
  - intros q' h Hin. apply Hq. now right.
  - apply add_hits_origin; [|exact Hd]. intros h. apply Hq. now left.
Qed.

(** X11.  Every document of the merged map names one of the queries of
    the batch as the query it was found by, and "web_search" as its
    source. *)
Theorem merged_documents_origin :
  forall (analyst : string) (on : bool)
         (search : nat -> string -> result (list Hit)) (queries : list string)
         (u : string) (d : Doc),
    In (u, d) (fst (search_documents clean_title analyst on search queries)) ->
    In (query d) queries /\ source d = "web_search".
Proof.
  intros analyst on search queries u d Hin. unfold search_documents in Hin.
  destruct queries as [|q0 queries]; [destruct Hin|].
  destruct (gather _) as [results|e]; [|destruct Hin].
  cbn [fst] in Hin.
  pose proof (merge_origin
    (fun d => In (query d) (q0 :: queries) /\ source d = "web_search")
    (q0 :: queries) results [] (fun q h Hq => conj Hq eq_refl)
    (Forall_nil _)) as M.
  rewrite Forall_forall in M. apply (M (u, d) Hin).
Qed.

Lemma stored_title_kept t u :
  stored_title clean_title t u <> EmptyString ->
  stored_title clean_title t u = clean_title t
  /\ lower (clean_title t) <> lower u
  /\ strip (clean_title t) <> EmptyString.
Proof.
  unfold stored_title. destruct (truthy t) eqn:T.
  - destruct (String.eqb (lower (clean_title t)) (lower u)) eqn:E; simpl;
      [congruence|].
    destruct (truthy (strip (clean_title t))) eqn:S; simpl; [|congruence].
    intros _. split; [reflexivity|]. split.
    + intros H. rewrite H, String.eqb_refl in E. discriminate.
    + intros H. rewrite H in S. discriminate.
  - destruct t; [congruence | discriminate].
Qed.

(** X12.  A title that is stored non-empty is the cleaned title, differs
    from the URL of its document even when case is ignored, and is not
    blank. *)
Theorem stored_titles_differ_from_url :
  forall (analyst : string) (on : bool)
         (search : nat -> string -> result (list Hit)) (queries : list string)
         (u : string) (d : Doc),
    In (u, d) (fst (search_documents clean_title analyst on search queries)) ->
    title d <> EmptyString ->
    lower (title d) <> lower (url d) /\ strip (title d) <> EmptyString.
Proof.
  intros analyst on search queries u d Hin Ht. unfold search_documents in Hin.
  destruct queries as [|q0 queries]; [destruct Hin|].
  destruct (gather _) as [results|e]; [|destruct Hin].
  cbn [fst] in Hin.
  pose proof (merge_origin
    (fun d => title d <> EmptyString ->
              lower (title d) <> lower (url d) /\ strip (title d) <> EmptyString)
    (q0 :: queries) results []) as M.
  assert (K : Forall
    (fun e : string * Doc => title (snd e) <> EmptyString ->
       lower (title (snd e)) <> lower (url (snd e))
       /\ strip (title (snd e)) <> EmptyString)
    (merge' (q0 :: queries) results [])).
  { apply M; [|constructor].
    intros q h _. cbn [SearchFanout.make_doc title url]. intros H.
    destruct (stored_title_kept _ _ H) as [-> [L S]]. now split. }
  rewrite Forall_forall in K. exact (K (u, d) Hin Ht).
Qed.

(** X13.  The map that [search_single_query] returns has one entry per
    URL, each under the URL of its document, with a content and a URL
    that are not empty, and found by the query of the call. *)
Theorem search_single_query_map :
  forall (analyst : string) (on : bool)
         (search : string -> result (list Hit)) (q : string),
    let docs := fst (search_single_query clean_title analyst on search q) in
    NoDup (keys docs)
    /\ forall u d, In (u, d) docs ->
         url d = u /\ url d <> EmptyString /\ content d <> EmptyString
         /\ query d = q.
Proof.
  intros analyst on search q docs. subst docs. unfold search_single_query.
  assert (E : NoDup (keys (@nil (string * Doc)))
              /\ forall u d, In (u, d) (@nil (string * Doc)) ->
                   url d = u /\ url d <> EmptyString
                   /\ content d <> EmptyString /\ query d = q)
    by (split; [constructor | intros ? ? []]).
  destruct (is_empty q || (List.length (words q) <? 3)); [exact E|].
  destruct (search q) as [hits|e]; [|exact E]. cbn [fst].
  destruct (add_hits_invariant clean_title q hits [])
    as [Hnd Hm]; [split; [constructor | intros ? ? []]|].
  split; [exact Hnd|]. intros u d Hin.
  destruct (Hm u d Hin) as [h [U [K D]]].
  destruct (usable_fields clean_title h U) as [Tc Tu].
  pose proof (add_hits_origin (fun d => query d = q) q hits []
                (fun h => eq_refl) (Forall_nil _)) as O.
  rewrite Forall_forall in O. specialize (O (u, d) Hin). simpl in O.
  rewrite D. cbn [SearchFanout.make_doc url content query].
  rewrite K in *. repeat split; auto.
  - intros X. rewrite X in Tu. discriminate.
  - intros X. rewrite X in Tc. discriminate.
Qed.

End SearchFanoutMore.


Lemma merged_map_size_witness :
  List.length
    (fst (SearchFanout.search_documents (fun t => t) "news_analyst" true
            (fun _ q => Ok [Samples.same_url_hit q]) ["first"; "second"]))
  <= 2.
Proof.
  apply (merged_map_size (fun t => t) "news_analyst" true
           (fun _ q => Ok [Samples.same_url_hit q]) ["first"; "second"]
           [[Samples.same_url_hit "first"]; [Samples.same_url_hit "second"]]).
  reflexivity.
Defined.

Lemma merged_documents_origin_witness :
  In "second" ["first"; "second"].
Proof.
  apply (merged_documents_origin (fun t => t) "news_analyst" true
           (fun _ q => Ok [Samples.same_url_hit q]) ["first"; "second"]
           "https://example.com/a"
           (SearchFanout.make_doc (fun t => t) "second"
              (Samples.same_url_hit "second"))).
  vm_compute. now left.
Defined.

Lemma stored_titles_differ_from_url_witness :
  PyStr.lower "A" <> PyStr.lower "https://example.com/a"
  /\ PyStr.strip "A" <> EmptyString.
Proof.
  apply (stored_titles_differ_from_url (fun t => t) "news_analyst" true
           (fun _ q => Ok [Samples.same_url_hit q]) ["first"; "second"]
           "https://example.com/a"
           (SearchFanout.make_doc (fun t => t) "second"
              (Samples.same_url_hit "second"))).
  - vm_compute. now left.
  - discriminate.
Defined.

(** ** Briefings: ranking, selection, synthesis *)

Section SelectionMore.
Import PyStr Pipeline Briefing.

Variable unordered : list (Float * CuratedDoc) -> list CuratedDoc.

Abbreviation sorted_items := (Briefing.sorted_items unordered).
Abbreviation select_documents := (Briefing.select_documents unordered).
Abbreviation generate_category_briefing :=
  (Briefing.generate_category_briefing unordered).

Local Open Scope Z_scope.

Lemma filter_map_swap {A B} (f : B -> bool) (g : A -> B) (l : list A) :
  filter f (map g l) = map g (filter (fun a => f (g a)) l).
Proof.
  induction l as [|a l IH]; [reflexivity|].
  simpl. destruct (f (g a)); simpl; now rewrite IH.
Qed.

(** X14.  When every score converts and none is NaN, documents with the
    same score keep the order they came in: the ranking is stable. *)
Theorem ranking_keeps_order_of_ties :
  forall (curated : Value) (docs : list CuratedDoc),
    documents_of curated = Ok docs ->
    (forall d, In d docs -> doc_score d <> NotNumeric) ->
    (forall d, In d docs -> doc_score d <> NotANumber) ->
    exists sorted,
      sorted_items curated = Ok sorted
      /\ forall k : Float,
           filter (fun d => float_eqb (score_value d) k) sorted
           = filter (fun d => float_eqb (score_value d) k) docs.
Proof.
  intros curated docs Hd Hn Hnan. unfold Briefing.sorted_items.
  rewrite Hd, (with_keys_numeric docs Hn), (keys_without_nan docs Hnan).
  set (keyed := map (fun d => (score_value d, d)) docs).
  eexists. split; [reflexivity|]. intros k.
  rewrite filter_map_swap.
  rewrite (filter_ext_in (fun p => float_eqb (score_value (snd p)) k)
                         (fun p => float_eqb (fst p) k)).
  - rewrite sort_desc_stable. unfold keyed.
    rewrite filter_map_swap, map_map. simpl. now rewrite map_id.
  - intros p Hp.
    apply (Permutation_in _ (sort_desc_permutation keyed)) in Hp.
    unfold keyed in Hp. apply in_map_iff in Hp.
    now destruct Hp as [d [<- _]].
Qed.

Lemma len_nonneg s : 0 <= len s.
Proof. unfold len. lia. Qed.

Lemma total_len_nonneg l : 0 <= total_len l.
Proof.
  induction l as [|e l IH]; simpl; [lia|]. pose proof (len_nonneg e). lia.
Qed.

Lemma total_len_permutation a b :
  Permutation a b -> total_len a = total_len b.
Proof. induction 1; simpl; lia. Qed.

Lemma add_entries_all docs : forall total,
  total + total_len (map doc_entry docs) < prompt_limit ->
  add_entries docs total = map doc_entry docs.
Proof.
  induction docs as [|d docs IH]; intros total H; [reflexivity|].
  change (total_len (map doc_entry (d :: docs)))
    with (len (doc_entry d) + total_len (map doc_entry docs)) in H.
  pose proof (total_len_nonneg (map doc_entry docs)).
  cbn [add_entries map].
  assert ((total + len (doc_entry d) <? prompt_limit) = true) as ->
    by (apply Z.ltb_lt; lia).
  rewrite IH; [reflexivity | lia].
Qed.

(** X15.  When every score converts, none is NaN, and the entries of
    all documents together stay below 120000 characters, none is left
    out: the prompt holds the entry of every document, in ranked
    order. *)
Theorem small_collections_enter_whole :
  forall (curated : Value) (docs : list CuratedDoc),
    documents_of curated = Ok docs ->
    (forall d, In d docs -> doc_score d <> NotNumeric) ->
    (forall d, In d docs -> doc_score d <> NotANumber) ->
    total_len (map doc_entry docs) < prompt_limit ->
    exists sorted,
      Permutation sorted docs
      /\ StronglySorted score_desc sorted
      /\ select_documents curated = Ok (map doc_entry sorted).
Proof.
  intros curated docs Hd Hn Hnan Hlen.
  destruct (sorted_items_spec unordered curated docs Hd Hn Hnan)
    as [sorted [Hs [Hp Hord]]].
  exists sorted. split; [exact Hp|]. split; [exact Hord|].
  unfold Briefing.select_documents. rewrite Hs, add_entries_all; [reflexivity|].
  rewrite (total_len_permutation _ (map doc_entry docs)); [lia|].
  now apply Permutation_map.
Qed.


End SelectionMore.

Lemma ranking_keeps_order_of_ties_witness :
  exists sorted,
    Briefing.sorted_items Samples.as_given
      (Pipeline.VDocList
         [ Samples.scored_doc "first" Pipeline.NoScore;
           Samples.scored_doc "top" (Pipeline.Infinite true);
           Samples.scored_doc "second" (Pipeline.Numeric 0) ])
    = Ok sorted
    /\ filter (fun d => Briefing.float_eqb (Briefing.score_value d)
                          (Briefing.Fin 0)) sorted
       = [ Samples.scored_doc "first" Pipeline.NoScore;
           Samples.scored_doc "second" (Pipeline.Numeric 0) ].
Proof.
  destruct (ranking_keeps_order_of_ties Samples.as_given
              (Pipeline.VDocList
                 [ Samples.scored_doc "first" Pipeline.NoScore;
                   Samples.scored_doc "top" (Pipeline.Infinite true);
                   Samples.scored_doc "second" (Pipeline.Numeric 0) ])
              _ eq_refl) as [sorted [Hs Hk]].
  - intros d [<-|[<-|[<-|[]]]]; discriminate.
  - intros d [<-|[<-|[<-|[]]]]; discriminate.
  - exists sorted. split; [exact Hs|]. rewrite Hk. reflexivity.
Defined.

Lemma small_collections_enter_whole_witness :
  exists sorted,
    Permutation sorted
      [ Samples.scored_doc "low" (Pipeline.Numeric (3 # 10));
        Samples.scored_doc "unscored" Pipeline.NoScore;
        Samples.scored_doc "high" (Pipeline.Numeric (9 # 10)) ]
    /\ Briefing.select_documents Samples.as_given Samples.three_docs
       = Ok (map Briefing.doc_entry sorted).
Proof.
  destruct (small_collections_enter_whole Samples.as_given
              Samples.three_docs _ eq_refl)
    as [sorted [Hp [_ Hs]]].
  - intros d [<-|[<-|[<-|[]]]]; discriminate.
  - intros d [<-|[<-|[<-|[]]]]; discriminate.
  - vm_compute. reflexivity.
  - exists sorted. split; assumption.
Defined.

Section BriefingMore.
Import PyStr PyDict Pipeline Briefing Observe.
Variable unordered : list (Float * CuratedDoc) -> list CuratedDoc.
Variable llm : string -> list string -> result string.

Abbreviation sorted_items := (Briefing.sorted_items unordered).
Abbreviation select_documents := (Briefing.select_documents unordered).
Abbreviation generate_category_briefing :=
  (Briefing.generate_category_briefing unordered).
Abbreviation finish := (Briefing.finish unordered).
Abbreviation advance := (Briefing.advance unordered).
Abbreviation run := (Briefing.run unordered).
Abbreviation create_briefings := (Briefing.create_briefings unordered).
Abbreviation execution := (Briefing.execution unordered).
Abbreviation outcome := (Briefing.outcome unordered).
Abbreviation synthesized := (Briefing.synthesized unordered).
Abbreviation consistent := (Briefing.consistent unordered).

Lemma generated_app a b : generated (a ++ b) = generated a ++ generated b.
Proof.
  induction a as [|e a IH]; [reflexivity|].
  destruct e; simpl; now rewrite IH.
Qed.

Lemma generated_notify on s d : generated (notify on s d) = [].
Proof. now destruct on. Qed.

(** A request is made exactly when the selection returns. *)
Lemma generate_requests on docs name :
  match fst (generate_category_briefing on llm docs name) with
  | Ok _ => generated (snd (generate_category_briefing on llm docs name)) = [name]
  | Raise _ => generated (snd (generate_category_briefing on llm docs name)) = []
  end.
Proof.
  unfold generate_category_briefing.
  destruct (select_documents docs) as [texts|e].
  - destruct (llm name texts) as [text|e]; [destruct (truthy (strip text))|];
      cbn [fst snd]; rewrite ?generated_app;
      destruct docs; rewrite ?generated_notify; reflexivity.
  - cbn [fst snd]. destruct docs; rewrite ?generated_notify; reflexivity.
Qed.

Lemma nodup_snoc {A} (l : list A) x : NoDup l -> ~ In x l -> NoDup (l ++ [x]).
Proof.
  induction l as [|y l IH]; intros Hnd Hn; simpl.
  - constructor; [intros [] | constructor].
  - inversion Hnd; subst. constructor.
    + intros Hin. apply in_app_or in Hin. destruct Hin as [Hin|[->|[]]].
      * contradiction.
      * apply Hn. now left.
    + apply IH; [assumption|]. intros Hin. apply Hn. now right.
Qed.

Lemma advance_requested_once c cfg :
  requested_once cfg -> requested_once (advance llm c cfg).
Proof.
  intros [Hnd H]. unfold advance. destruct (status cfg c) eqn:S;
    try (split; assumption).
  - destruct (permits cfg); [split; assumption|].
    split; [exact Hnd|]. intros c'. cbn [status trace]. unfold update.
    destruct (cat_eqb c c') eqn:E; [|apply H].
    apply cat_eqb_eq in E. subst c'. split; [|discriminate].
    intros Hin. destruct (proj1 (H c) Hin) as [X|[e X]]; congruence.
  - assert (Fresh : ~ In (cat_name c) (generated (trace cfg))).
    { intros Hin. destruct (proj1 (H c) Hin) as [X|[e X]]; congruence. }
    unfold finish.
    pose proof (generate_requests (notifying (state cfg))
                  match task_data (tasks cfg) c with
                  | Some v => v
                  | None => VNone
                  end (cat_name c)) as G.
    destruct (generate_category_briefing _ _ _ _) as [[content|e] tr];
      cbn [fst snd] in G; unfold requested_once; cbn [status trace];
      rewrite generated_app, G.
    + split; [now apply nodup_snoc|]. intros c'. unfold update.
      destruct (cat_eqb c c') eqn:E.
      * apply cat_eqb_eq in E. subst c'. split; [now left|].
        intros _. apply in_or_app. right. now left.
      * split.
        -- intros Hin. apply in_app_or in Hin. destruct Hin as [Hin|[X|[]]].
           ++ now apply H.
           ++ apply cat_name_inj in X. subst c'.
              now rewrite cat_eqb_refl in E.
        -- intros X. apply in_or_app. left. now apply H.
    + rewrite app_nil_r. split; [exact Hnd|]. intros c'. unfold update.
      destruct (cat_eqb c c') eqn:E; [|apply H].
      apply cat_eqb_eq in E. subst c'. split; [|discriminate].
      intros _. right. now exists e.
Qed.

Lemma start_requested_once st ts : requested_once (start st ts).
Proof.
  split; [constructor|]. intros c. split; [intros []|].
  cbn [status start]. destruct (task_data ts c); discriminate.
Qed.

(** X17.  Whatever the interleaving of the tasks, no category is
    synthesized twice; and when [create_briefings] returns a state, the
    categories for which the model was asked are exactly those with
    curated documents. *)
Theorem every_category_synthesized_once :
  forall (schedule : list Category) (st : ResearchState),
    NoDup (generated (snd (create_briefings llm schedule st)))
    /\ forall st',
         fst (create_briefings llm schedule st) = Some (Ok st') ->
         forall c,
           In (cat_name c) (generated (snd (create_briefings llm schedule st)))
           <-> truthy_value (curated_data st c) = true.
Proof.
  intros schedule st. unfold create_briefings.
  destruct (prepare categories st) as [st1 ts] eqn:P.
  destruct ts as [|t ts].
  - cbn [fst snd]. rewrite generated_notify. split; [constructor|].
    intros st' _ c. split; [intros []|]. intros T.
    destruct (prepare_spec _ _ _ _ P) as [_ [D _]]. specialize (D c).
    rewrite all_categories, T in D. discriminate.
  - pose proof (execution_consistent unordered llm schedule st) as C.
    unfold Briefing.execution in C. rewrite P in C.
    assert (O : requested_once (run llm schedule (start st1 (t :: ts)))).
    { apply run_invariant; [intros; now apply advance_requested_once|].
      apply start_requested_once. }
    set (cfg := run llm schedule (start st1 (t :: ts))) in *.
    destruct O as [Hnd H]. destruct C as [_ [_ [_ J]]].
    assert (G : generated (notify (notifying st) "processing" "Briefing"
                           ++ trace cfg) = generated (trace cfg))
      by now rewrite generated_app, generated_notify.
    destruct (failure cfg) eqn:F;
      [|destruct (forallb (fun c => settled (status cfg c)) categories) eqn:A];
      cbn [fst snd]; rewrite G; (split; [exact Hnd|]); intros st' R;
      try discriminate.
    intros c. specialize (J c). specialize (H c).
    assert (Sc : settled (status cfg c) = true).
    { rewrite forallb_forall in A. apply A. destruct c; simpl; auto. }
    destruct (status cfg c) eqn:S; try discriminate.
    + destruct J as [T _]. rewrite T. split; [|discriminate].
      intros Hin. destruct (proj1 H Hin) as [X|[e X]]; discriminate.
    + destruct J as [T _]. rewrite T. split; [reflexivity|].
      intros _. now apply H.
    + contradiction.
Qed.

Lemma kept_refl st : kept st st.
Proof. unfold kept, same_but. now repeat split. Qed.

Lemma kept_set key v st st' :
  briefing_slot key -> kept st st' -> kept st (set_field key v st').
Proof.
  intros W [[A [B [C [D [E F]]]]] [M Ed]].
  unfold kept, same_but. cbn [set_field company industry hq_location
    websocket_manager job_id messages editor].
  repeat split; auto. intros key' Hn.
  rewrite get_field_set_ne; [now apply F|]. intros X. subst key'. tauto.
Qed.

Lemma prepare_kept cs : forall st st0 st1 tasks,
  kept st0 st -> prepare cs st = (st1, tasks) -> kept st0 st1.
Proof.
  induction cs as [|c cs IH]; intros st st0 st1 tasks K P; simpl in P.
  - now inversion P; subst.
  - destruct (truthy_value (curated_data st c)).
    + destruct (prepare cs st) as [st' tasks'] eqn:Q. inversion P; subst.
      now apply (IH st st0 st1 tasks').
    + apply (IH (set_field (briefing_key c) (VStr EmptyString) st)
                st0 st1 tasks); [|exact P].
      apply kept_set; [|exact K]. right. now exists c.
Qed.

Lemma advance_kept st c cfg :
  kept st (state cfg) -> kept st (state (advance llm c cfg)).
Proof.
  intros K. unfold advance. destruct (status cfg c); try exact K.
  - now destruct (permits cfg).
  - unfold finish.
    destruct (generate_category_briefing _ _ _ _) as [[content|e] tr];
      [|exact K].
    cbn [state]. apply kept_set; [|exact K]. right. now exists c.
Qed.

(** X18.  [create_briefings] writes the four briefing slots and
    'briefings' and nothing else: every other entry of the returned
    state is the one of the state it was called with. *)
Theorem create_briefings_frame :
  forall (schedule : list Category) (st st' : ResearchState),
    fst (create_briefings llm schedule st) = Some (Ok st') ->
    same_but briefing_slot st st'
    /\ messages st' = messages st
    /\ editor st' = editor st.
Proof.
  intros schedule st st'. unfold create_briefings.
  destruct (prepare categories st) as [st1 ts] eqn:P.
  pose proof (prepare_kept _ _ _ _ _ (kept_refl st) P) as K1.
  destruct ts as [|t ts].
  - cbn [fst]. intros R. inversion R; subst.
    apply kept_set; [now left | exact K1].
  - assert (K : kept st (state (run llm schedule (start st1 (t :: ts))))).
    { apply (run_invariant unordered llm (fun cfg => kept st (state cfg)));
        [intros; now apply advance_kept | exact K1]. }
    destruct (failure _); [discriminate|].
    destruct (forallb _ categories); [|discriminate].
    cbn [fst]. intros R. inversion R; subst.
    apply kept_set; [now left | exact K].
Qed.

(** One task taken from start to end while no other is inside the
    semaphore, whether it fails or not. *)
Lemma advance_twice_any c cfg :
  permits cfg = 2 ->
  (forall c', status cfg c' <> InFlight) ->
  let cfg' := advance llm c (advance llm c cfg) in
  permits cfg' = 2
  /\ (forall c', status cfg' c' <> InFlight)
  /\ settled (status cfg' c) = true
  /\ (forall c', settled (status cfg c') = true ->
                 settled (status cfg' c') = true).
Proof.
  intros P Q cfg'. subst cfg'. destruct (status cfg c) eqn:S.
  - rewrite !(advance_settled unordered llm c cfg) by now rewrite S.
    repeat split; auto; now rewrite S.
  - rewrite (advance_admits unordered llm c cfg 1 S P).
    rewrite advance_finishes
      by (cbn [status]; unfold update; now rewrite cat_eqb_refl).
    unfold finish. cbn [state tasks briefings failure permits trace status].
    destruct (generate_category_briefing _ _ _ _) as [[content|e] tr];
      cbn [permits status]; unfold update;
      (split; [reflexivity|]); (split; [|split]).
    + intros c'. destruct (cat_eqb c c'); [discriminate | apply Q].
    + now rewrite cat_eqb_refl.
    + intros c' H. destruct (cat_eqb c c'); [reflexivity | exact H].
    + intros c'. destruct (cat_eqb c c'); [discriminate | apply Q].
    + now rewrite cat_eqb_refl.
    + intros c' H. destruct (cat_eqb c c'); [reflexivity | exact H].
  - now destruct (Q c).
  - rewrite !(advance_settled unordered llm c cfg) by now rewrite S.
    repeat split; auto; now rewrite S.
  - rewrite !(advance_settled unordered llm c cfg) by now rewrite S.
    repeat split; auto; now rewrite S.
Qed.

(** X19.  When the document selection of a category with curated
    documents raises, [create_briefings] returns no state under any
    interleaving; taken one after the other, the tasks end with the
    call raising. *)
Theorem selection_error_fails_the_call :
  forall (st : ResearchState) (c : Category) (e : exn),
    truthy_value (curated_data st c) = true ->
    select_documents (curated_data st c) = Raise e ->
    (forall schedule st',
        fst (create_briefings llm schedule st) <> Some (Ok st'))
    /\ exists e', fst (create_briefings llm sequential st) = Some (Raise e').
Proof.
  intros st c e T Sel.
  assert (Out : forall content, outcome llm st c <> Ok content).
  { intros content. unfold Briefing.outcome, generate_category_briefing.
    rewrite Sel. discriminate. }
  split.
  - intros schedule st' R.
    destruct (create_briefings_returns unordered llm schedule st st' R)
      as [cfg [[_ [_ [_ J]]] [F [A _]]]].
    specialize (J c). specialize (A c).
    destruct (status cfg c); try discriminate.
    + destruct J as [T' _]. congruence.
    + destruct J as [_ [content [O _]]]. now apply Out in O.
    + contradiction.
  - unfold create_briefings.
    destruct (prepare categories st) as [st1 ts] eqn:P.
    pose proof (execution_consistent unordered llm sequential st) as C.
    unfold Briefing.execution in C. rewrite P in C.
    destruct ts as [|t ts].
    + destruct (prepare_spec _ _ _ _ P) as [_ [D _]]. specialize (D c).
      rewrite all_categories, T in D. discriminate.
    + set (cfg0 := start st1 (t :: ts)) in *.
      assert (P0 : permits cfg0 = 2) by reflexivity.
      assert (Q0 : forall c', status cfg0 c' <> InFlight).
      { intros c'. unfold cfg0. cbn [status start].
        destruct (task_data (t :: ts) c'); discriminate. }
      change (run llm sequential cfg0) with
        (advance llm Company (advance llm Company
          (advance llm Industry (advance llm Industry
            (advance llm News (advance llm News
              (advance llm Financial (advance llm Financial cfg0)))))))) in *.
      destruct (advance_twice_any Financial cfg0 P0 Q0) as [P1 [Q1 [S1 _]]].
      set (cfg1 := advance llm Financial (advance llm Financial cfg0)) in *.
      destruct (advance_twice_any News cfg1 P1 Q1) as [P2 [Q2 [S2 K2]]].
      set (cfg2 := advance llm News (advance llm News cfg1)) in *.
      destruct (advance_twice_any Industry cfg2 P2 Q2) as [P3 [Q3 [S3 K3]]].
      set (cfg3 := advance llm Industry (advance llm Industry cfg2)) in *.
      destruct (advance_twice_any Company cfg3 P3 Q3) as [_ [_ [S4 K4]]].
      set (cfg4 := advance llm Company (advance llm Company cfg3)) in *.
      assert (A : settled (status cfg4 c) = true).
      { destruct c; auto. }
      destruct C as [_ [_ [_ J]]]. specialize (J c).
      destruct (status cfg4 c); try discriminate.
      * destruct J as [T' _]. congruence.
      * destruct J as [_ [content [O _]]]. now apply Out in O.
      * destruct (failure cfg4) as [e'|]; [|contradiction].
        cbn [fst]. eauto.
Qed.

End BriefingMore.

Lemma create_briefings_frame_witness :
  exists st',
    fst (Briefing.create_briefings Samples.as_given Samples.echo Briefing.sequential
           Samples.company_only) = Some (Ok st')
    /\ Pipeline.get_field "curated_company_data" st' = Some Samples.one_doc.
Proof.
  eexists. split; [reflexivity|].
  destruct (create_briefings_frame Samples.as_given Samples.echo Briefing.sequential
              Samples.company_only _ eq_refl) as [[_ [_ [_ [_ [_ F]]]]] _].
  rewrite F; [reflexivity|].
  intros [X|[c X]]; [discriminate | destruct c; discriminate].
Defined.

Lemma selection_error_fails_the_call_witness :
  exists e',
    fst (Briefing.create_briefings Samples.as_given Samples.echo Briefing.sequential
           (Samples.state_with
              [("curated_company_data", Samples.unrated_docs)]))
    = Some (Raise e').
Proof.
  apply (selection_error_fails_the_call Samples.as_given Samples.echo
           (Samples.state_with [("curated_company_data", Samples.unrated_docs)])
           Pipeline.Company (Error "could not convert string to float"));
    reflexivity.
Defined.

(** ** The editor: streaming, requests, what is written *)

Section SweepFacts.
Import PyStr Chat QueryGenerator Editor Observe.

Lemma sweep_stream_text on items : forall acc buf,
  fst (sweep_stream on items acc buf)
  = match streamed_text items with
    | Ok t => Ok (acc +:+ t)
    | Raise e => Raise e
    end.
Proof.
  induction items as [|[c|e] items IH]; intros acc buf; cbn [sweep_stream streamed_text].
  - now rewrite append_empty_r.
  - destruct (is_stop c); [cbn [fst]; now rewrite append_empty_r|].
    destruct (delta_content c) as [[|ch tl]|].
    + rewrite IH. now destruct (streamed_text items).
    + destruct (has_boundary _ && _).
      * specialize (IH (acc +:+ String ch tl) EmptyString).
        destruct (sweep_stream on items _ EmptyString) as [r tr].
        cbn [fst] in *. rewrite IH.
        destruct (streamed_text items); [now rewrite append_assoc|reflexivity].
      * rewrite IH.
        destruct (streamed_text items); [now rewrite append_assoc|reflexivity].
    + rewrite IH. now destruct (streamed_text items).
  - reflexivity.
Qed.


Lemma sweep_stream_payloads items : forall acc buf t,
  streamed_text items = Ok t ->
  exists rest,
    buf +:+ t = payloads (snd (sweep_stream true items acc buf)) +:+ rest
    /\ (stops items = true -> rest = EmptyString).
Proof.
  induction items as [|[c|e] items IH]; intros acc buf t H;
    cbn [sweep_stream streamed_text stops] in *.
  - inversion H; subst. exists (buf +:+ EmptyString). split; [reflexivity|].
    discriminate.
  - destruct (is_stop c).
    + inversion H; subst. exists EmptyString. split; [|reflexivity].
      destruct buf; [reflexivity|]. cbn [snd truthy is_empty negb notify payloads].
      now rewrite !append_empty_r.
    + destruct (streamed_text items) as [t'|e]; [|discriminate].
      inversion H; subst. clear H.
      destruct (delta_content c) as [[|ch tl]|].
      * apply (IH acc buf t' eq_refl).
      * destruct (has_boundary _ && _).
        -- destruct (IH (acc +:+ String ch tl) EmptyString t' eq_refl)
             as [rest [R S]].
           destruct (sweep_stream true items _ EmptyString) as [r tr].
           cbn [snd notify app payloads] in *. exists rest. split; [|exact S].
           rewrite append_assoc, <- R. cbn [String.append].
           now rewrite append_assoc.
        -- destruct (IH (acc +:+ String ch tl) (buf +:+ String ch tl) t' eq_refl)
             as [rest [R S]].
           exists rest. split; [|exact S]. now rewrite <- R, append_assoc.
      * apply (IH acc buf t' eq_refl).
  - discriminate.
Qed.

(** X21.  With a broadcaster attached, the chunks that [content_sweep]
    broadcasts, put one after the other, are a beginning of the streamed
    text; when the stream reaches its stop chunk they are the whole
    text. *)
Theorem report_chunks_cover_stream :
  forall (sweep : string -> Response) (content : string)
         (items : list StreamItem) (t : string),
    sweep content = Stream items ->
    streamed_text items = Ok t ->
    exists rest,
      t = payloads (snd (content_sweep true sweep content)) +:+ rest
      /\ (stops items = true -> rest = EmptyString).
Proof.
  intros sweep content items t Hs Ht. unfold content_sweep. rewrite Hs.
  destruct (sweep_stream_payloads items EmptyString EmptyString t Ht)
    as [rest [R S]].
  exists rest. split; [|exact S].
  destruct (sweep_stream true items EmptyString EmptyString) as [[text|e] tr];
    exact R.
Qed.

Lemma chat_models_notify on s d : chat_models (notify on s d) = [].
Proof. now destruct on. Qed.

Lemma chat_models_sweep_stream on items : forall acc buf,
  chat_models (snd (sweep_stream on items acc buf)) = [].
Proof.
  induction items as [|[c|e] items IH]; intros acc buf; cbn [sweep_stream];
    try reflexivity.
  destruct (is_stop c).
  - cbn [snd]. destruct (truthy buf); [apply chat_models_notify | reflexivity].
  - destruct (delta_content c) as [[|ch tl]|]; try apply IH.
    destruct (has_boundary _ && _); [|apply IH].
    specialize (IH (acc +:+ String ch tl) EmptyString).
    destruct (sweep_stream on items _ EmptyString) as [r tr].
    cbn [snd] in *. now rewrite chat_models_app, chat_models_notify, IH.
Qed.

Lemma chat_models_content_sweep on sweep content :
  chat_models (snd (content_sweep on sweep content)) = ["gpt-4.1-mini"].
Proof.
  unfold content_sweep. destruct (sweep content) as [e|items]; [reflexivity|].
  pose proof (chat_models_sweep_stream on items EmptyString EmptyString) as C.
  destruct (sweep_stream on items EmptyString EmptyString) as [[text|e] tr];
    cbn [snd chat_models] in *; now rewrite C.
Qed.

End SweepFacts.

Lemma report_chunks_cover_stream_witness :
  exists rest,
    "Acme makes anvils. Since 1949"
    = Observe.payloads
        (snd (Editor.content_sweep true
                (fun _ => Chat.Stream
                   [ Chat.token "Acme makes anvils.";
                     Chat.token " Since 1949";
                     Chat.Yield {| Chat.finish_reason := Some "stop";
                                   Chat.delta_content := None |} ])
                "draft"))
      +:+ rest.
Proof.
  destruct (report_chunks_cover_stream
              (fun _ => Chat.Stream
                 [ Chat.token "Acme makes anvils.";
                   Chat.token " Since 1949";
                   Chat.Yield {| Chat.finish_reason := Some "stop";
                                 Chat.delta_content := None |} ])
              "draft" _ "Acme makes anvils. Since 1949" eq_refl eq_refl)
    as [rest [R _]].
  exists rest. exact R.
Defined.

Section EditorMore.
Import PyStr PyDict Chat Pipeline Editor Observe.
Variable format_references_section : Value -> Value -> Value -> result string.
Variable compile : string -> result string.
Variable sweep : string -> Response.

Abbreviation compile_content' :=
  (Editor.compile_content format_references_section compile).
Abbreviation edit_report_body' :=
  (Editor.edit_report_body format_references_section compile sweep).
Abbreviation edit_report' :=
  (Editor.edit_report format_references_section compile sweep).
Abbreviation compile_briefings' :=
  (Editor.compile_briefings format_references_section compile sweep).

Lemma compile_content_requests st briefings :
  chat_models (snd (compile_content' st briefings)) = []
  \/ chat_models (snd (compile_content' st briefings)) = ["gpt-4.1"].
Proof.
  unfold Editor.compile_content.
  destruct (texts (values briefings)); [|now left].
  destruct (if truthy_value _ then _ else _); [|now left].
  destruct (compile _); now right.
Qed.

Lemma compile_content_returns_after_request st briefings r :
  fst (compile_content' st briefings) = Ok r ->
  chat_models (snd (compile_content' st briefings)) = ["gpt-4.1"].
Proof.
  unfold Editor.compile_content.
  destruct (texts (values briefings)); [|discriminate].
  destruct (if truthy_value _ then _ else _); [|discriminate].
  now destruct (compile _).
Qed.

(** X22.  [edit_report] asks the compiling model at most once and the
    formatting model at most once, the second only after the first; a
    report that is returned was made with one request to each. *)
Theorem edit_report_requests :
  forall (st : ResearchState) (briefings : dict Value),
    let out := edit_report' st briefings in
    (chat_models (snd out) = []
     \/ chat_models (snd out) = ["gpt-4.1"]
     \/ chat_models (snd out) = ["gpt-4.1"; "gpt-4.1-mini"])
    /\ (fst (fst out) <> EmptyString ->
        chat_models (snd out) = ["gpt-4.1"; "gpt-4.1-mini"]).
Proof.
  intros st briefings. cbv zeta.
  unfold Editor.edit_report, Editor.edit_report_body.
  pose proof (compile_content_requests st briefings) as Q.
  pose proof (compile_content_returns_after_request st briefings) as A.
  destruct (compile_content' st briefings) as [[edited|e] tr1];
    cbn [fst snd] in *.
  - specialize (A edited eq_refl).
    destruct (truthy edited); cbn [negb].
    + pose proof (chat_models_content_sweep (notifying st) sweep edited) as W.
      destruct (content_sweep (notifying st) sweep edited) as [final tr2].
      cbn [snd] in W.
      destruct (truthy (strip final)); cbn [negb fst snd];
        rewrite ?chat_models_app, ?chat_models_notify, A, W; cbn [app];
        rewrite ?app_nil_r; auto.
    + cbn [fst snd]. rewrite chat_models_app, chat_models_notify, A.
      split; [auto | congruence].
  - rewrite chat_models_app, chat_models_notify. cbn [app].
    split; [destruct Q as [->| ->]; auto | congruence].
Qed.

(** Whatever [edit_report] does, it writes 'report', 'status' and the
    'editor' entry at most. *)
Lemma edit_report_frame st briefings :
  same_but report_slot st (snd (fst (edit_report' st briefings)))
  /\ messages (snd (fst (edit_report' st briefings))) = messages st.
Proof.
  assert (R : same_but report_slot st st /\ messages st = messages st)
    by (unfold same_but; now repeat split).
  unfold Editor.edit_report, Editor.edit_report_body.
  destruct (compile_content' st briefings) as [[edited|e] tr1];
    cbn [fst snd]; [|exact R].
  destruct (truthy edited); cbn [negb fst snd]; [|exact R].
  destruct (content_sweep (notifying st) sweep edited) as [final tr2].
  destruct (truthy (strip final)); cbn [negb fst snd]; [|exact R].
  cbn [editor set_field].
  assert (F : forall e,
    same_but report_slot st
      (set_editor e (set_field "status" (VStr "editor_complete")
                       (set_field "report" (VStr final) st)))).
  { intros e. unfold same_but.
    cbn [set_editor set_field company industry hq_location websocket_manager
         job_id]. repeat split. intros key Hn.
    unfold get_field. cbn [fields set_editor set_field].
    rewrite (get_set_ne "status" key)
      by (intros X; apply Hn; right; now symmetry).
    rewrite (get_set_ne "report" key)
      by (intros X; apply Hn; left; now symmetry).
    reflexivity. }
  destruct (editor st); split; try apply F; reflexivity.
Qed.

(** X23.  When [edit_report] returns a report, 'status' holds
    "editor_complete"; the 'editor' entry is a dictionary that keeps
    every entry it had under another key than 'report'; and no other
    entry of the state than 'report', 'status' and 'editor' is
    touched. *)
Theorem edit_report_success_state :
  forall (st : ResearchState) (briefings : dict Value),
    let st' := snd (fst (edit_report' st briefings)) in
    fst (fst (edit_report' st briefings)) <> EmptyString ->
    get_field "status" st' = Some (VStr "editor_complete")
    /\ same_but report_slot st st'
    /\ messages st' = messages st
    /\ exists d',
         editor st' = EditorDict d'
         /\ forall k, k <> "report" ->
              get k d' = match editor st with
                         | EditorDict d => get k d
                         | _ => None
                         end.
Proof.
  intros st briefings st' NE.
  destruct (edit_report_frame st briefings) as [F M]. fold st' in F, M.
  split; [|split; [exact F | split; [exact M|]]]; subst st';
    revert NE; clear F M;
    unfold Editor.edit_report, Editor.edit_report_body;
    (destruct (compile_content' st briefings) as [[edited|e] tr1];
       cbn [fst snd]; [|congruence]);
    (destruct (truthy edited); cbn [negb fst snd]; [|congruence]);
    destruct (content_sweep (notifying st) sweep edited) as [final tr2];
    (destruct (truthy (strip final)); cbn [negb fst snd]; [|congruence]);
    intros _; cbn [editor set_field].
  - destruct (editor st); unfold get_field; cbn [set_editor set_field fields];
      apply get_set_eq.
  - destruct (editor st) as [| |d]; cbn [set_editor editor]; eexists;
      (split; [reflexivity|]); intros k Hk.
    + cbn [get]. destruct (String.eqb "report" k) eqn:E; [|reflexivity].
      apply String.eqb_eq in E. congruence.
    + cbn [get]. destruct (String.eqb "report" k) eqn:E; [|reflexivity].
      apply String.eqb_eq in E. congruence.
    + apply get_set_ne. congruence.
Qed.



(** X26.  The briefings handed to [edit_report] are the non-empty
    briefing slots in the order company, industry, financial, news,
    each under the name of its category, whatever the order of the
    state. *)
Theorem collected_briefings_in_order :
  forall (st : ResearchState) (msg : list string),
    fst (collect briefing_keys st [] msg)
    = flat_map (found st) briefing_keys.
Proof.
  intros st msg. unfold briefing_keys, found.
  cbn [collect flat_map].
  destruct (get_field (briefing_key Company) st) as [v1|];
    [destruct (truthy_value v1)|];
    (destruct (get_field (briefing_key Industry) st) as [v2|];
       [destruct (truthy_value v2)|]);
    (destruct (get_field (briefing_key Financial) st) as [v3|];
       [destruct (truthy_value v3)|]);
    (destruct (get_field (briefing_key News) st) as [v4|];
       [destruct (truthy_value v4)|]);
    reflexivity.
Qed.

End EditorMore.

Lemma edit_report_success_state_witness :
  Pipeline.get_field "status"
    (snd (fst (Editor.edit_report Samples.no_references Samples.compile_ok
                 Samples.sweep_ok Samples.company_briefed
                 [("company", Pipeline.VStr "Acme makes anvils.")])))
  = Some (Pipeline.VStr "editor_complete").
Proof.
  apply (edit_report_success_state Samples.no_references Samples.compile_ok
           Samples.sweep_ok Samples.company_briefed
           [("company", Pipeline.VStr "Acme makes anvils.")]).
  discriminate.
Defined.


(** * The nodes when a status update raises *)

Section RunQueries.
Import PyStr Chat QueryGenerator Run Observe.
Variable bc : Broadcaster.

Abbreviation attempt' := (Run.attempt bc).
Abbreviation iteration' := (Run.iteration bc).
Abbreviation attempts' := (Run.attempts bc).
Abbreviation generate_queries' := (Run.generate_queries bc).

(** An attempt that returns gives one to four queries. *)
Lemma run_attempt_length on company r tr qs :
  value (attempt' on company r tt tr) = Ok qs -> 1 <= List.length qs <= 4.
Proof.
  unfold Run.attempt, bind, emit, value. destruct r as [e|items];
    [discriminate|].
  destruct (Run.consume bc on items acc0 tt _) as [[[a|e] u] tr1];
    [|discriminate].
  assert (B : forall (l : list string) w t,
            fst (fst (match l with
                      | [] => @raise unit (list string)
                                (Error ("No queries generated for "
                                        +:+ company))
                      | _ :: _ => ret (firstn 4 l)
                      end w t)) = Ok qs ->
            1 <= List.length qs <= 4).
  { intros [|q [|? [|? [|? ?]]]] w t H; try discriminate;
      inversion H; simpl; lia. }
  destruct (truthy (strip (current_query a))).
  - unfold send_status_update. destruct on.
    + destruct (bc tr1 "query_generated" _); [discriminate | apply B].
    + apply B.
  - apply B.
Qed.

(** What one turn of the loop can end with: a list to return, the
    [continue] of an attempt that is not the last, or the exception of
    the 'error' update, sent because the 'warning' update raised. *)
Lemma iteration_outcome cx responses i tr :
  match value (iteration' cx responses i tt tr) with
  | Ok (Some qs) => 1 <= List.length qs <= 4
  | Ok None => i < max_retries - 1
  | Raise e =>
      notifying cx = true
      /\ exists tr1 tr2 e1,
           bc tr1 "warning" "query_generation_fallback" = Some e1
           /\ bc tr2 "error" "Failed to generate research queries" = Some e
  end.
Proof.
  pose proof (fallback_length (analyst_type cx) (company cx) (current_year cx))
    as F.
  unfold Run.iteration, try_except, bind, value.
  pose proof (run_attempt_length (notifying cx) (company cx) (responses i) tr)
    as A. unfold value in A.
  destruct (attempt' (notifying cx) (company cx) (responses i) tt tr)
    as [[[qs|e0] u] tr0].
  - cbn [ret fst]. now apply A.
  - destruct (i <? max_retries - 1) eqn:L.
    + cbn [emit ret fst]. now apply Nat.ltb_lt.
    + unfold send_status_update. destruct (notifying cx).
      * destruct (bc tr0 "warning" "query_generation_fallback") as [e1|] eqn:W.
        -- destruct (bc (tr0 ++ [StatusUpdate "warning"
                                   "query_generation_fallback"])
                        "error" "Failed to generate research queries")
             as [e2|] eqn:E; cbn [ret fst].
           ++ split; [reflexivity|]. eauto.
           ++ rewrite F. lia.
        -- cbn [ret fst]. rewrite F. lia.
      * cbn [ret fst]. rewrite F. lia.
Qed.

Lemma attempts_outcome cx responses : forall remaining i tr,
  remaining + i = max_retries -> 0 < remaining ->
  match value (attempts' cx responses remaining i tt tr) with
  | Ok (Some qs) => 1 <= List.length qs <= 4
  | Ok None => False
  | Raise e =>
      notifying cx = true
      /\ exists tr1 tr2 e1,
           bc tr1 "warning" "query_generation_fallback" = Some e1
           /\ bc tr2 "error" "Failed to generate research queries" = Some e
  end.
Proof.
  induction remaining as [|k IH]; intros i tr Hsum Hpos; [lia|].
  cbn [Run.attempts]. unfold bind, value.
  pose proof (iteration_outcome cx responses i tr) as I. unfold value in I.
  destruct (iteration' cx responses i tt tr) as [[[[qs|]|e] u] tr0];
    cbn [fst] in *; try exact I.
  destruct u. apply IH; unfold max_retries in *; lia.
Qed.

(** When every attempt fails, what is returned is the fallback list. *)
Lemma attempts_fall_back cx responses :
  (forall i tr, i < max_retries ->
     exists e,
       value (attempt' (notifying cx) (company cx) (responses i) tt tr)
       = Raise e) ->
  forall remaining i tr,
    remaining + i = max_retries -> 0 < remaining ->
    forall r,
      value (attempts' cx responses remaining i tt tr) = Ok r ->
      r = Some (_fallback_queries (analyst_type cx) (company cx)
                                  (current_year cx)).
Proof.
  intros Hfail. induction remaining as [|k IH]; intros i tr Hsum Hpos r;
    [lia|].
  cbn [Run.attempts]. unfold bind, Run.iteration, try_except, value.
  unfold bind at 1.
  destruct (Hfail i tr) as [e A]; [unfold max_retries in *; lia|].
  unfold value in A.
  destruct (attempt' (notifying cx) (company cx) (responses i) tt tr)
    as [[[qs|e0] u] tr0]; cbn [fst] in A; [discriminate|].
  destruct (i <? max_retries - 1) eqn:L.
  - unfold bind, emit. cbn [ret]. destruct u.
    apply Nat.ltb_lt in L. apply IH; unfold max_retries in *; lia.
  - unfold bind, send_status_update. destruct (notifying cx).
    + destruct (bc tr0 "warning" "query_generation_fallback").
      * destruct (bc _ "error" "Failed to generate research queries");
          cbn [ret fst]; [discriminate | congruence].
      * cbn [ret fst]. congruence.
    + cbn [ret fst]. congruence.
Qed.


End RunQueries.

(** C1.  With a manager and a job id in the state, three requests that
    time out and a broadcaster whose connection is gone, the 'warning'
    update of the inner handler raises, the outer handler catches it,
    and the 'error' update that the outer handler awaits raises in turn:
    the exception leaves [generate_queries], after three requests, and
    no fallback list is returned.  With a broadcaster that delivers, the
    same call returns the fallback list. *)
Theorem generate_queries_raises_with_closed_broadcaster :
  Run.value (Run.generate_queries Cases.closed Samples.news_ctx
               (fun _ => Chat.RequestRaises TimeoutError) tt [])
  = Raise (Error "connection closed")
  /\ Run.events (Run.generate_queries Cases.closed Samples.news_ctx
                   (fun _ => Chat.RequestRaises TimeoutError) tt [])
     = [ ChatRequest "gpt-4"; Sleep 2; ChatRequest "gpt-4"; Sleep 4;
         ChatRequest "gpt-4";
         StatusUpdate "warning" "query_generation_fallback";
         StatusUpdate "error" "Failed to generate research queries" ]
  /\ Run.value (Run.generate_queries Cases.silent Samples.news_ctx
                  (fun _ => Chat.RequestRaises TimeoutError) tt [])
     = Ok (Some (QueryGenerator._fallback_queries "news_analyzer" "Acme" 2026)).
Proof. repeat split. Qed.

(** ** A broadcaster that delivers

    Against a broadcaster that delivers every update, the nodes do what
    the first part of this file takes them to do: the same value, the
    same events. *)

Section Delivered.
Import PyStr Chat QueryGenerator Run.
Variable bc : Broadcaster.
Hypothesis Hbc : delivers bc.

Lemma send_delivered {S : Type} on status detail (s : S) tr :
  send_status_update bc on status detail s tr
  = (Ok tt, s, tr ++ notify on status detail).
Proof.
  unfold send_status_update, notify. destruct on.
  - now rewrite Hbc.
  - now rewrite app_nil_r.
Qed.

Lemma finalize_parts_delivered on parts : forall qs n tr,
  Run.finalize_parts bc on parts qs n tt tr
  = (Ok (fst (fst (QueryGenerator.finalize_parts on parts qs n)),
         snd (fst (QueryGenerator.finalize_parts on parts qs n))),
     tt, tr ++ snd (QueryGenerator.finalize_parts on parts qs n)).
Proof.
  induction parts as [|p parts IH]; intros qs n tr;
    cbn [Run.finalize_parts QueryGenerator.finalize_parts].
  - cbn. now rewrite app_nil_r.
  - destruct (truthy (strip p)); [|apply IH].
    unfold bind. rewrite send_delivered, IH.
    destruct (QueryGenerator.finalize_parts on parts (qs ++ [strip p]) (S n))
      as [[qs' n'] tr'].
    cbn [fst snd]. now rewrite app_assoc.
Qed.

Lemma consume_delivered on items : forall a tr,
  Run.consume bc on items a tt tr
  = (fst (QueryGenerator.consume on items a), tt,
     tr ++ snd (QueryGenerator.consume on items a)).
Proof.
  induction items as [|[c|e] items IH]; intros a tr;
    cbn [Run.consume QueryGenerator.consume].
  - cbn. now rewrite app_nil_r.
  - destruct (is_stop c); [cbn; now rewrite app_nil_r|].
    destruct (delta_content c) as [[|ch tl]|]; try apply IH.
    unfold bind. rewrite send_delivered.
    destruct (contains newline (current_query a +:+ String ch tl)).
    + rewrite finalize_parts_delivered.
      destruct (QueryGenerator.finalize_parts on _ (queries a)
                  (current_query_number a)) as [[qs n] tr2].
      cbn [fst snd]. rewrite IH.
      destruct (QueryGenerator.consume on items _) as [r tr3].
      cbn [fst snd]. now rewrite !app_assoc.
    + rewrite IH.
      destruct (QueryGenerator.consume on items _) as [r tr3].
      cbn [fst snd]. now rewrite !app_assoc.
  - cbn. now rewrite app_nil_r.
Qed.

Lemma attempt_delivered on company r tr :
  Run.attempt bc on company r tt tr
  = (fst (QueryGenerator.attempt on company r), tt,
     tr ++ snd (QueryGenerator.attempt on company r)).
Proof.
  unfold Run.attempt, QueryGenerator.attempt, finalized, bind, emit.
  destruct r as [e|items]; [reflexivity|].
  rewrite consume_delivered.
  destruct (QueryGenerator.consume on items acc0) as [[a|e] tr1];
    cbn [fst snd].
  - destruct (truthy (strip (current_query a))).
    + rewrite send_delivered. cbn [ret].
      destruct (queries a ++ [strip (current_query a)]) as [|q l];
        cbn [raise ret fst snd]; rewrite <- !app_assoc; reflexivity.
    + cbn [ret]. destruct (queries a) as [|q l];
        cbn [raise ret fst snd]; rewrite <- !app_assoc; reflexivity.
  - now rewrite <- app_assoc.
Qed.

Lemma attempts_delivered cx responses : forall remaining i tr,
  Run.attempts bc cx responses remaining i tt tr
  = (Ok (fst (QueryGenerator.attempts cx responses remaining i)), tt,
     tr ++ snd (QueryGenerator.attempts cx responses remaining i)).
Proof.
  induction remaining as [|k IH]; intros i tr;
    cbn [Run.attempts QueryGenerator.attempts].
  - cbn. now rewrite app_nil_r.
  - unfold bind, Run.iteration, try_except. unfold bind at 1.
    rewrite attempt_delivered.
    destruct (QueryGenerator.attempt (notifying cx) (company cx) (responses i))
      as [[qs|e] tr1]; cbn [fst snd ret]; [reflexivity|].
    destruct (i <? max_retries - 1).
    + unfold bind, emit. cbn [ret]. rewrite IH.
      destruct (QueryGenerator.attempts cx responses k (S i)) as [r tr2].
      cbn [fst snd]. now rewrite <- !app_assoc.
    + unfold bind. rewrite send_delivered. cbn [ret fst snd].
      now rewrite app_assoc.
Qed.

(** [generate_queries] against a broadcaster that delivers. *)
Lemma generate_queries_delivered cx responses tr :
  Run.generate_queries bc cx responses tt tr
  = (Ok (fst (QueryGenerator.generate_queries cx responses)), tt,
     tr ++ snd (QueryGenerator.generate_queries cx responses)).
Proof. apply attempts_delivered. Qed.

End Delivered.

Section RunSearch.
Import PyStr PyDict SearchFanout Run Observe.
Variable bc : Broadcaster.
Variable clean_title : string -> string.

Abbreviation search_single_query' := (Run.search_single_query bc clean_title).
Abbreviation search_documents' := (Run.search_documents bc clean_title).

Lemma searched_snoc_update tr status detail :
  searched (tr ++ [StatusUpdate status detail]) = searched tr.
Proof. rewrite searched_app. cbn. now rewrite app_nil_r. Qed.

(** What [search_single_query] can end with. *)
Lemma search_single_query_outcome analyst on search query tr :
  match value (search_single_query' analyst on search query tt tr) with
  | Ok docs =>
      docs = []
      \/ exists hits, search query = Ok hits
                      /\ docs = add_hits clean_title query hits []
  | Raise e => on = true /\ exists tr', bc tr' "query_error" query = Some e
  end.
Proof.
  unfold Run.search_single_query, value.
  destruct (is_empty query || (List.length (words query) <? 3));
    [now left|].
  unfold try_except, bind, send_status_update, emit, lift.
  destruct on.
  - destruct (bc tr "query_searching" query) as [e0|].
    + destruct (bc _ "query_error" query) as [e1|] eqn:E; cbn [ret fst].
      * split; [reflexivity | eauto].
      * now left.
    + destruct (search query) as [hits|e0] eqn:S.
      * destruct (bc _ "query_searched" query) as [e1|].
        -- destruct (bc _ "query_error" query) as [e2|] eqn:E; cbn [ret fst].
           ++ split; [reflexivity | eauto].
           ++ now left.
        -- cbn [ret fst]. right. now exists hits.
      * destruct (bc _ "query_error" query) as [e1|] eqn:E; cbn [ret fst].
        -- split; [reflexivity | eauto].
        -- now left.
  - destruct (search query) as [hits|e0] eqn:S; cbn [ret fst].
    + right. now exists hits.
    + now left.
Qed.

(** X28.  Against any broadcaster: when one request of the batch raises,
    [search_documents] returns the empty mapping, or it has raised
    before any request was sent, from one of its two opening updates;
    [search_single_query] returns the empty mapping when its request
    raises, unless its 'query_error' update raises, and that exception
    is the only one that leaves it. *)
Theorem search_failure_scopes_any_broadcaster :
  forall (analyst : string) (on : bool),
    (forall (search : nat -> string -> result (list Hit))
            (queries : list string) tr i q e,
        nth_error queries i = Some q -> search i q = Raise e ->
        match value (search_documents' analyst on search queries tt tr) with
        | Ok docs => docs = []
        | Raise e' =>
            on = true
            /\ searched (events (search_documents' analyst on search queries
                                   tt tr)) = searched tr
            /\ exists tr' status,
                 (status = "queries_generated" \/ status = "search_started")
                 /\ bc tr' status analyst = Some e'
        end)
    /\ (forall (search : string -> result (list Hit)) (query : string) tr,
          match value (search_single_query' analyst on search query tt tr) with
          | Ok docs => forall e, search query = Raise e -> docs = []
          | Raise e' =>
              on = true /\ exists tr', bc tr' "query_error" query = Some e'
          end).
Proof.
  intros analyst on. split.
  - intros search queries tr i q e Hq Hs.
    destruct (gather_raises (requests search 0 queries) e) as [e0 G].
    { rewrite <- Hs. apply (requests_nth search queries 0 i q Hq). }
    unfold Run.search_documents, value, events.
    destruct queries as [|q0 queries]; [now destruct i|].
    unfold bind, try_except, send_status_update, emit_all, lift.
    rewrite G. destruct on; [|reflexivity].
    destruct (bc tr "queries_generated" analyst) as [e1|] eqn:E1.
    + cbn [fst snd]. split; [reflexivity|]. split.
      * apply searched_snoc_update.
      * exists tr, "queries_generated". split; [now left | exact E1].
    + destruct (bc _ "search_started" analyst) as [e2|] eqn:E2.
      * cbn [fst snd]. split; [reflexivity|]. split.
        -- now rewrite !searched_snoc_update.
        -- eexists _, "search_started". split; [now right | exact E2].
      * reflexivity.
  - intros search query tr.
    pose proof (search_single_query_outcome analyst on search query tr) as O.
    destruct (value _) as [docs|e']; [|exact O].
    intros e Hs. destruct O as [->|[hits [H _]]]; [reflexivity | congruence].
Qed.

Lemma search_single_query_delivered analyst on search query tr :
  delivers bc ->
  search_single_query' analyst on search query tt tr
  = (Ok (fst (SearchFanout.search_single_query clean_title analyst on
                search query)), tt,
     tr ++ snd (SearchFanout.search_single_query clean_title analyst on
                  search query)).
Proof.
  intros Hbc. unfold Run.search_single_query, SearchFanout.search_single_query.
  destruct (is_empty query || (List.length (words query) <? 3));
    [cbn; now rewrite app_nil_r|].
  unfold try_except, bind, emit, lift.
  rewrite !(send_delivered bc Hbc).
  destruct (search query) as [hits|e]; cbn [fst snd].
  - cbn [ret]. now rewrite <- !app_assoc.
  - rewrite !(send_delivered bc Hbc). cbn [ret fst snd].
    now rewrite <- !app_assoc.
Qed.

Lemma search_documents_delivered analyst on search queries tr :
  delivers bc ->
  search_documents' analyst on search queries tt tr
  = (Ok (fst (SearchFanout.search_documents clean_title analyst on
                search queries)), tt,
     tr ++ snd (SearchFanout.search_documents clean_title analyst on
                  search queries)).
Proof.
  intros Hbc. unfold Run.search_documents, SearchFanout.search_documents.
  destruct queries as [|q0 queries]; [cbn; now rewrite app_nil_r|].
  unfold try_except, bind, emit_all, lift.
  rewrite !(send_delivered bc Hbc).
  destruct (gather _) as [results|e]; cbn [fst snd ret];
    rewrite ?(send_delivered bc Hbc); cbn [fst snd];
    now rewrite <- !app_assoc.
Qed.

End RunSearch.

(** C5.  The request of the query raises, and the 'query_error' update
    that the handler of [search_single_query] awaits raises too: the
    exception leaves [search_single_query], where the empty mapping was
    to be returned.  With a broadcaster that delivers, the same call
    returns the empty mapping. *)
Theorem search_single_query_raises_with_failing_update :
  Run.value (Run.search_single_query (Cases.fails_on "query_error")
               (fun t => t) "news_analyst" true
               (fun _ => Raise (Error "429")) "Tesla latest news" tt [])
  = Raise (Error "connection closed")
  /\ Run.events (Run.search_single_query (Cases.fails_on "query_error")
                   (fun t => t) "news_analyst" true
                   (fun _ => Raise (Error "429")) "Tesla latest news" tt [])
     = [ StatusUpdate "query_searching" "Tesla latest news";
         SearchRequest "Tesla latest news" (Some "news");
         StatusUpdate "query_error" "Tesla latest news" ]
  /\ Run.value (Run.search_single_query Cases.silent
                  (fun t => t) "news_analyst" true
                  (fun _ => Raise (Error "429")) "Tesla latest news" tt [])
     = Ok [].
Proof. repeat split. Qed.

Section RunEditor.
Import PyStr PyDict Chat Pipeline Editor Run Observe.
Variable bc : Broadcaster.
Variable format_references_section : Value -> Value -> Value -> result string.
Variable compile : string -> result string.
Variable sweep : string -> Response.

Abbreviation update' := (Run.update bc).
Abbreviation sweep_stream' := (Run.sweep_stream bc).
Abbreviation content_sweep' := (Run.content_sweep bc sweep).
Abbreviation rcompile_content :=
  (Run.compile_content format_references_section compile).
Abbreviation redit_report :=
  (Run.edit_report bc format_references_section compile sweep).
Abbreviation rcompile_briefings :=
  (Run.compile_briefings bc format_references_section compile sweep).

Lemma update_unfold status detail st tr :
  update' status detail st tr
  = (if notifying st
     then match bc tr status detail with
          | Some e => Raise e
          | None => Ok tt
          end
     else Ok tt,
     st,
     tr ++ notify (notifying st) status detail).
Proof.
  unfold Run.update, bind, get, send_status_update, notify.
  destruct (notifying st); [reflexivity | now rewrite app_nil_r].
Qed.

Lemma update_store status detail st tr :
  store (update' status detail st tr) = st.
Proof. now rewrite update_unfold. Qed.

(** The streaming loop leaves the state alone. *)
Lemma sweep_stream_store items : forall acc buf st tr,
  store (sweep_stream' items acc buf st tr) = st.
Proof.
  induction items as [|[c|e] items IH]; intros acc buf st tr;
    cbn [Run.sweep_stream]; try reflexivity.
  destruct (is_stop c).
  - unfold bind. destruct (truthy buf); [|reflexivity].
    rewrite update_unfold.
    destruct (if notifying st then _ else _); reflexivity.
  - destruct (delta_content c) as [[|ch tl]|]; try apply IH.
    destruct (has_boundary _ && _); [|apply IH].
    unfold bind. rewrite update_unfold.
    destruct (if notifying st then _ else _); [apply IH | reflexivity].
Qed.

(** [content_sweep] returns, whatever the broadcaster does, and leaves
    the state alone. *)
Lemma content_sweep_returns content st tr :
  exists final,
    value (content_sweep' content st tr) = Ok final
    /\ store (content_sweep' content st tr) = st.
Proof.
  unfold Run.content_sweep, try_except, bind, emit, value, store.
  destruct (sweep content) as [e|items]; [cbn; eauto|].
  pose proof (sweep_stream_store items EmptyString EmptyString st
                (tr ++ [ChatRequest "gpt-4.1-mini"])) as S.
  unfold store in S.
  destruct (sweep_stream' items EmptyString EmptyString st _)
    as [[[text|e] st'] tr']; cbn [fst snd] in *; subst st'; cbn; eauto.
Qed.

Lemma compile_content_store briefings st tr :
  store (rcompile_content briefings st tr) = st.
Proof. reflexivity. Qed.

Lemma edit_report_run briefings st tr :
  exists report st' tr',
    redit_report briefings st tr = (Ok report, st', tr')
    /\ (report <> EmptyString ->
        truthy (strip report) = true /\ st' = store_report report st)
    /\ (st' = st
        \/ exists final,
             truthy (strip final) = true
             /\ st' = store_report final st
             /\ (report = final
                 \/ (report = EmptyString
                     /\ notifying st = true
                     /\ exists tr0 e,
                          bc tr0 "editor_complete" "report" = Some e))).
Proof.
  assert (Quiet : forall t : Trace,
            exists report st' tr',
              (@Ok string EmptyString, st, t) = (Ok report, st', tr')
              /\ (report <> EmptyString ->
                  truthy (strip report) = true /\ st' = store_report report st)
              /\ (st' = st
                  \/ exists final,
                       truthy (strip final) = true
                       /\ st' = store_report final st
                       /\ (report = final
                           \/ (report = EmptyString
                               /\ notifying st = true
                               /\ exists tr0 e,
                                    bc tr0 "editor_complete" "report" = Some e))))
    by (intros t; exists EmptyString, st, t;
        split; [reflexivity | split; [congruence | now left]]).
  unfold Run.edit_report, try_except.
  unfold bind at 1. rewrite update_unfold.
  destruct (if notifying st then _ else _); [|apply Quiet].
  unfold bind at 1. unfold Run.compile_content at 1.
  unfold bind at 1. unfold bind at 1. unfold get, emit_all, lift.
  destruct (fst (Editor.compile_content format_references_section compile
                   st briefings)) as [edited|e]; [|apply Quiet].
  destruct (truthy edited); cbn [negb]; [|apply Quiet].
  unfold bind at 1. rewrite update_unfold.
  destruct (if notifying st then _ else _); [|apply Quiet].
  unfold bind at 1. rewrite update_unfold.
  destruct (if notifying st then _ else _); [|apply Quiet].
  unfold bind at 1.
  match goal with
  | |- context [Run.content_sweep bc sweep edited st ?t] =>
      destruct (content_sweep_returns edited st t) as [final [V S]];
      unfold value, store in V, S;
      destruct (Run.content_sweep bc sweep edited st t) as [[r st1] tr1]
  end.
  cbn [fst snd] in V, S. subst r st1.
  destruct (truthy (strip final)) eqn:T; cbn [negb]; [|apply Quiet].
  unfold bind, modify. rewrite update_unfold.
  assert (N : notifying (store_report final st) = notifying st).
  { unfold store_report. cbn [editor set_field].
    destruct (editor st); reflexivity. }
  rewrite N.
  destruct (notifying st) eqn:On.
  - destruct (bc _ "editor_complete" "report") as [e|] eqn:E; cbn [ret].
    + eexists EmptyString, _, _. split; [reflexivity|]. split; [congruence|].
      right. exists final. split; [exact T|]. split; [reflexivity|].
      right. split; [reflexivity|]. split; [reflexivity|]. eauto.
    + eexists final, _, _. split; [reflexivity|]. split; [now split|].
      right. exists final. split; [exact T|]. split; [reflexivity | now left].
  - cbn [ret]. eexists final, _, _. split; [reflexivity|].
    split; [now split|].
    right. exists final. split; [exact T|]. split; [reflexivity | now left].
Qed.

(** X29.  Against any broadcaster [edit_report] returns a string and
    never raises.  A string that is not empty is the non-blank final
    text, and the state then holds it.  The state is written in no
    other case but one: when the final text is non-blank and the
    'editor_complete' update raises, the report is in the state and the
    empty string is returned. *)
Theorem edit_report_outcomes :
  forall (briefings : dict Value) (st : ResearchState) (tr : Trace),
    exists report,
      value (redit_report briefings st tr) = Ok report
      /\ (report <> EmptyString ->
          truthy (strip report) = true
          /\ store (redit_report briefings st tr) = store_report report st)
      /\ (store (redit_report briefings st tr) = st
          \/ exists final,
               truthy (strip final) = true
               /\ store (redit_report briefings st tr) = store_report final st
               /\ (report = final
                   \/ (report = EmptyString
                       /\ notifying st = true
                       /\ exists tr' e,
                            bc tr' "editor_complete" "report" = Some e))).
Proof.
  intros briefings st tr.
  destruct (edit_report_run briefings st tr) as [report [st' [tr' [E R]]]].
  exists report. rewrite E. split; [reflexivity | exact R].
Qed.

(** The run of [compile_briefings] on a state without briefings. *)
Lemma compile_briefings_empty_run st tr :
  (forall c, no_briefing st c) ->
  rcompile_briefings st tr
  = if notifying st then
      match bc tr "processing" "initialization" with
      | Some e => (Raise e, st, tr ++ [StatusUpdate "processing" "initialization"])
      | None =>
          match bc (tr ++ [StatusUpdate "processing" "initialization"])
                   "processing" "collecting_briefings" with
          | Some e =>
              (Raise e, st,
               (tr ++ [StatusUpdate "processing" "initialization"])
               ++ [StatusUpdate "processing" "collecting_briefings"])
          | None =>
              (Ok tt, append_message (nothing_to_compile st) st,
               (tr ++ [StatusUpdate "processing" "initialization"])
               ++ [StatusUpdate "processing" "collecting_briefings"])
          end
      end
    else (Ok tt, append_message (nothing_to_compile st) st, tr).
Proof.
  intros H. unfold Run.compile_briefings. unfold bind at 1. cbn [get].
  rewrite (collect_nothing briefing_keys st [] _ H). cbn [fst snd].
  unfold bind. rewrite !update_unfold. unfold notify, modify.
  destruct (notifying st).
  - destruct (bc tr "processing" "initialization"); [reflexivity|].
    destruct (bc _ "processing" "collecting_briefings"); reflexivity.
  - now rewrite !app_nil_r.
Qed.

(** C8, amended.  When no briefing slot holds a text,
    [compile_briefings] makes no request to a model; and when its two
    opening updates are delivered, or no manager or job id is present,
    it returns, and what it returns is the state it was given with one
    message appended that tells, after the line of each missing
    briefing, that no briefing sections are available to compile.  No
    report is written. *)
Theorem compile_briefings_nothing_to_compile :
  forall (st : ResearchState) (tr : Trace),
    (forall c, no_briefing st c) ->
    (forall model,
        In (ChatRequest model) (events (rcompile_briefings st tr)) ->
        In (ChatRequest model) tr)
    /\ (notifying st = false
        \/ (bc tr "processing" "initialization" = None
            /\ bc (tr ++ [StatusUpdate "processing" "initialization"])
                  "processing" "collecting_briefings" = None) ->
        value (rcompile_briefings st tr) = Ok tt
        /\ fields (store (rcompile_briefings st tr)) = fields st
        /\ editor (store (rcompile_briefings st tr)) = editor st
        /\ messages (store (rcompile_briefings st tr))
           = Some (match messages st with Some l => l | None => [] end
                   ++ [nothing_to_compile st])).
Proof.
  intros st tr H. rewrite (compile_briefings_empty_run st tr H).
  assert (M : messages (append_message (nothing_to_compile st) st)
              = Some (match messages st with Some l => l | None => [] end
                      ++ [nothing_to_compile st]))
    by (unfold append_message; cbn [messages]; destruct (messages st);
        reflexivity).
  assert (U : forall model s d (t : Trace),
            In (ChatRequest model) (t ++ [StatusUpdate s d]) ->
            In (ChatRequest model) t).
  { intros model s d t Hin. apply in_app_or in Hin.
    destruct Hin as [Hin|[X|[]]]; [exact Hin | discriminate]. }
  destruct (notifying st).
  - destruct (bc tr "processing" "initialization") as [e1|].
    + split; [intros model Hin; now apply U in Hin|].
      intros [X|[X _]]; discriminate.
    + destruct (bc _ "processing" "collecting_briefings") as [e2|];
        (split; [intros model Hin; now apply U, U in Hin|]).
      * intros [X|[_ X]]; discriminate.
      * intros _. now repeat split.
  - split; [auto|]. intros _. now repeat split.
Qed.

End RunEditor.

Section DeliveredEditor.
Import PyStr PyDict Chat Pipeline Editor Run.
Variable bc : Broadcaster.
Hypothesis Hbc : delivers bc.
Variable format_references_section : Value -> Value -> Value -> result string.
Variable compile : string -> result string.
Variable sweep : string -> Response.

Lemma update_delivered status detail st tr :
  Run.update bc status detail st tr
  = (Ok tt, st, tr ++ notify (notifying st) status detail).
Proof.
  rewrite update_unfold, Hbc. now destruct (notifying st).
Qed.

Lemma sweep_stream_delivered items : forall acc buf st tr,
  Run.sweep_stream bc items acc buf st tr
  = (fst (Editor.sweep_stream (notifying st) items acc buf), st,
     tr ++ snd (Editor.sweep_stream (notifying st) items acc buf)).
Proof.
  induction items as [|[c|e] items IH]; intros acc buf st tr;
    cbn [Run.sweep_stream Editor.sweep_stream].
  - cbn. now rewrite app_nil_r.
  - destruct (is_stop c).
    + unfold bind. destruct (truthy buf).
      * now rewrite update_delivered.
      * cbn. now rewrite app_nil_r.
    + destruct (delta_content c) as [[|ch tl]|]; try apply IH.
      destruct (has_boundary _ && _); [|apply IH].
      unfold bind. rewrite update_delivered, IH.
      destruct (Editor.sweep_stream (notifying st) items _ EmptyString)
        as [r tr1].
      cbn [fst snd]. now rewrite app_assoc.
  - cbn. now rewrite app_nil_r.
Qed.

Lemma content_sweep_delivered content st tr :
  Run.content_sweep bc sweep content st tr
  = (Ok (fst (Editor.content_sweep (notifying st) sweep content)), st,
     tr ++ snd (Editor.content_sweep (notifying st) sweep content)).
Proof.
  unfold Run.content_sweep, Editor.content_sweep, try_except, bind, emit.
  destruct (sweep content) as [e|items]; [reflexivity|].
  rewrite sweep_stream_delivered.
  destruct (Editor.sweep_stream (notifying st) items EmptyString EmptyString)
    as [[text|e] tr1]; cbn [fst snd ret]; now rewrite <- app_assoc.
Qed.

Lemma edit_report_delivered briefings st tr :
  Run.edit_report bc format_references_section compile sweep briefings st tr
  = (Ok (fst (fst (Editor.edit_report format_references_section compile
                     sweep st briefings))),
     snd (fst (Editor.edit_report format_references_section compile
                 sweep st briefings)),
     tr ++ snd (Editor.edit_report format_references_section compile
                  sweep st briefings)).
Proof.
  unfold Run.edit_report, Editor.edit_report, Editor.edit_report_body,
    try_except.
  unfold bind at 1. rewrite update_delivered.
  unfold bind at 1. unfold Run.compile_content at 1.
  unfold bind at 1. unfold bind at 1. unfold get, emit_all, lift.
  destruct (Editor.compile_content format_references_section compile
              st briefings) as [[edited|e] tr1]; cbn [fst snd];
    [|now rewrite <- app_assoc].
  destruct (truthy edited); cbn [negb ret fst snd];
    [|now rewrite <- app_assoc].
  unfold bind at 1. rewrite update_delivered.
  unfold bind at 1. rewrite update_delivered.
  unfold bind at 1. rewrite content_sweep_delivered.
  destruct (Editor.content_sweep (notifying st) sweep edited) as [final tr2].
  cbn [fst snd].
  destruct (truthy (strip final)); cbn [negb ret fst snd];
    [|now rewrite <- !app_assoc].
  unfold bind, modify. rewrite update_delivered.
  assert (N : notifying (store_report final st) = notifying st).
  { unfold store_report. cbn [editor set_field].
    destruct (editor st); reflexivity. }
  rewrite N. unfold store_report. cbn [editor set_field ret].
  destruct (editor st); cbn [fst snd]; now rewrite <- !app_assoc.
Qed.

Lemma compile_briefings_delivered st tr :
  Run.compile_briefings bc format_references_section compile sweep st tr
  = (Ok tt,
     fst (Editor.compile_briefings format_references_section compile
            sweep st),
     tr ++ snd (Editor.compile_briefings format_references_section compile
                  sweep st)).
Proof.
  unfold Run.compile_briefings, Editor.compile_briefings.
  unfold bind at 1. cbn [get].
  unfold bind at 1. rewrite update_delivered.
  unfold bind at 1. rewrite update_delivered.
  destruct (collect briefing_keys st [] _) as [found msg]. cbn [fst snd].
  destruct found as [|b found].
  - unfold modify. cbn [fst snd]. now rewrite <- !app_assoc.
  - unfold bind, try_except. rewrite edit_report_delivered.
    destruct (Editor.edit_report format_references_section compile sweep st
                (b :: found)) as [[report st1] tr1].
    cbn [fst snd ret modify]. now rewrite <- !app_assoc.
Qed.

End DeliveredEditor.

(** X30.  Against a broadcaster that delivers every update, each node
    returns the value, leaves the state and adds the events that the
    first part of this file gives for it: there the updates are
    recorded and taken to return. *)
Theorem delivered_updates_agree :
  forall (bc : Run.Broadcaster),
    Run.delivers bc ->
    (forall cx responses tr,
        Run.generate_queries bc cx responses tt tr
        = (Ok (fst (QueryGenerator.generate_queries cx responses)), tt,
           tr ++ snd (QueryGenerator.generate_queries cx responses)))
    /\ (forall clean_title analyst on search query tr,
          Run.search_single_query bc clean_title analyst on search query tt tr
          = (Ok (fst (SearchFanout.search_single_query clean_title analyst on
                        search query)), tt,
             tr ++ snd (SearchFanout.search_single_query clean_title analyst
                          on search query)))
    /\ (forall clean_title analyst on search queries tr,
          Run.search_documents bc clean_title analyst on search queries tt tr
          = (Ok (fst (SearchFanout.search_documents clean_title analyst on
                        search queries)), tt,
             tr ++ snd (SearchFanout.search_documents clean_title analyst
                          on search queries)))
    /\ (forall sweep content st tr,
          Run.content_sweep bc sweep content st tr
          = (Ok (fst (Editor.content_sweep (Pipeline.notifying st) sweep
                        content)), st,
             tr ++ snd (Editor.content_sweep (Pipeline.notifying st) sweep
                          content)))
    /\ (forall fmt compile sweep briefings st tr,
          Run.edit_report bc fmt compile sweep briefings st tr
          = (Ok (fst (fst (Editor.edit_report fmt compile sweep st briefings))),
             snd (fst (Editor.edit_report fmt compile sweep st briefings)),
             tr ++ snd (Editor.edit_report fmt compile sweep st briefings)))
    /\ (forall fmt compile sweep st tr,
          Run.compile_briefings bc fmt compile sweep st tr
          = (Ok tt,
             fst (Editor.compile_briefings fmt compile sweep st),
             tr ++ snd (Editor.compile_briefings fmt compile sweep st))).
Proof.
  intros bc Hbc. repeat split; intros.
  - now apply generate_queries_delivered.
  - now apply search_single_query_delivered.
  - now apply search_documents_delivered.
  - now apply content_sweep_delivered.
  - now apply edit_report_delivered.
  - now apply compile_briefings_delivered.
Qed.

Lemma delivered_updates_agree_witness :
  Run.generate_queries Cases.silent Samples.news_ctx
    (fun _ => Chat.Stream [Chat.token "acme corp news"]) tt []
  = (Ok (Some ["acme corp news"]), tt,
     [ ChatRequest "gpt-4";
       StatusUpdate "query_generating" "acme corp news";
       StatusUpdate "query_generated" "acme corp news" ]).
Proof.
  apply (proj1 (delivered_updates_agree Cases.silent (fun _ _ _ => eq_refl))
           Samples.news_ctx
           (fun _ => Chat.Stream [Chat.token "acme corp news"]) []).
Defined.

(** C8, as the claim words it, fails: with no briefing in the state no
    placeholder report is produced; the 'report' key stays absent, and
    so does the 'editor' entry. *)
Lemma no_report_without_briefings :
  let out := Run.compile_briefings Cases.silent Samples.no_references
               Samples.compile_ok Samples.sweep_ok Samples.no_briefings [] in
  Run.value out = Ok tt
  /\ Pipeline.get_field "report" (Run.store out) = None
  /\ Pipeline.editor (Run.store out) = Pipeline.EditorAbsent
  /\ Pipeline.fields (Run.store out) = [].
Proof. repeat split. Qed.

Lemma compile_briefings_nothing_to_compile_witness :
  Pipeline.messages
    (Run.store (Run.compile_briefings Cases.silent Samples.no_references
                  Samples.compile_ok Samples.sweep_ok (Cases.watched []) []))
  = Some [Editor.nothing_to_compile (Cases.watched [])].
Proof.
  assert (H : forall c, Editor.no_briefing (Cases.watched []) c)
    by (intros c; destruct c; exact I).
  apply (proj2 (compile_briefings_nothing_to_compile Cases.silent
                  Samples.no_references Samples.compile_ok Samples.sweep_ok
                  (Cases.watched []) [] H)).
  right. split; reflexivity.
Defined.

(** With a manager and a job id in the state and a broadcaster whose
    connection is gone, the first update of [compile_briefings] raises
    and the exception leaves it: nothing guards the two opening
    updates. *)
Example compile_briefings_update_raises :
  Run.value (Run.compile_briefings Cases.closed Samples.no_references
               Samples.compile_ok Samples.sweep_ok (Cases.watched []) [])
  = Raise (Error "connection closed").
Proof. reflexivity. Qed.

(** C10.  The final text is non-blank and the 'editor_complete' update
    raises: [edit_report] has then written the report to the state, in
    'report' and in the 'editor' entry, with 'status' set to
    "editor_complete", and its handler returns the empty string, the
    value of a failed compilation.  With a broadcaster that delivers,
    the same call returns the report. *)
Theorem edit_report_keeps_report_of_failed_call :
  let out := Run.edit_report (Cases.fails_on "editor_complete")
               Samples.no_references Samples.compile_ok Samples.sweep_ok
               [("company", Pipeline.VStr "Acme makes anvils.")]
               (Cases.watched
                  [("company_briefing", Pipeline.VStr "Acme makes anvils.")])
               [] in
  Run.value out = Ok EmptyString
  /\ Pipeline.get_field "report" (Run.store out)
     = Some (Pipeline.VStr "# AcmeAcme makes anvils.")
  /\ Pipeline.get_field "status" (Run.store out)
     = Some (Pipeline.VStr "editor_complete")
  /\ Pipeline.editor (Run.store out)
     = Pipeline.EditorDict [("report", "# AcmeAcme makes anvils.")]
  /\ Run.value (Run.edit_report Cases.silent
                  Samples.no_references Samples.compile_ok Samples.sweep_ok
                  [("company", Pipeline.VStr "Acme makes anvils.")]
                  (Cases.watched
                     [("company_briefing",
                       Pipeline.VStr "Acme makes anvils.")])
                  [])
     = Ok "# AcmeAcme makes anvils.".
Proof. repeat split. Qed.
